(** * MoCapsNet: capsule network with residual routing blocks

    A shallow embedding of [model.py], [main.py] and [trainer.py].
    Floating-point numbers are idealised as real numbers; a division by
    zero (which would yield NaN or Inf and poison every later value) is
    kept visible through the partial division [fdiv].  Tensors whose rank
    is fixed by the code are nested lists; tensors that are reshaped with
    [view], and learned parameters, carry an explicit shape next to their
    row-major data.  Calls into PyTorch modules run in a state and error
    monad over the interpreter state (the random generator among it). *)

From Stdlib Require Import String Ascii DecimalString.
From Stdlib Require Import Reals Lra Lia ZArith Bool List.
From Stdlib Require SpecFloat.
Import ListNotations.

Set Implicit Arguments.

Open Scope R_scope.

(** ** Exceptions and results *)

Inductive exn : Type :=
| ShapeError
| IndexError
| ValueError
| ZeroDivisionError
| OverflowError
| UnboundLocalError (name : string)
| AttributeError (name : string)
| ExternalError
| NonFinite.
(* [NonFinite] is not a Python exception: it marks a value that would
   contain NaN or Inf. *)

Inductive result (A : Type) : Type :=
| Ok (a : A)
| Raise (e : exn).

Arguments Ok {A} a.
Arguments Raise {A} e.

Definition rbind {A B} (m : result A) (k : A -> result B) : result B :=
  match m with
  | Ok a => k a
  | Raise e => Raise e
  end.

Declare Scope res_scope.
Delimit Scope res_scope with res.
Notation "x <- m ;; k" := (rbind m (fun x => k))
  (at level 61, m at next level, right associativity) : res_scope.

Definition is_ok {A} (m : result A) : bool :=
  match m with Ok _ => true | Raise _ => false end.

Definition of_option {A} (e : exn) (o : option A) : result A :=
  match o with Some a => Ok a | None => Raise e end.

Fixpoint mapM {A B} (f : A -> result B) (l : list A) : result (list B) :=
  match l with
  | [] => Ok []
  | x :: l' => (y <- f x ;; ys <- mapM f l' ;; Ok (y :: ys))%res
  end.

Fixpoint omapM {A B} (f : A -> option B) (l : list A) : option (list B) :=
  match l with
  | [] => Some []
  | x :: l' =>
      match f x with
      | None => None
      | Some y =>
          match omapM f l' with
          | None => None
          | Some ys => Some (y :: ys)
          end
      end
  end.

(** ** Reals, vectors and nested tensors *)

Abbreviation t1 := (list R).
Abbreviation t2 := (list (list R)).
Abbreviation t3 := (list (list (list R))).

Definition Rsum (l : list R) : R := fold_right Rplus 0 l.

Definition sum_upto (n : nat) (f : nat -> R) : R := Rsum (map f (seq 0 n)).

Definition sum_sq (v : t1) : R := Rsum (map (fun x => x * x) v).

(** [torch.norm(v, dim=-1)]: the Euclidean norm along the last axis. *)
Definition norm (v : t1) : R := sqrt (sum_sq v).

Definition zeros (d : nat) : t1 := repeat 0 d.

Definition get2 (m : t2) (i k : nat) : R := nth k (nth i m []) 0.

Definition get3 (u : t3) (i j d : nat) : R := nth d (nth j (nth i u []) []) 0.

(** A float division is defined only for a non-zero divisor. *)
Definition fdiv (x y : R) : option R :=
  if Req_dec_T y 0 then None else Some (x / y).

Definition Rltb (x y : R) : bool := if Rlt_dec x y then true else false.

(** ** Python numbers

    [a / b] on two integers, [float * int], [float / int] and
    [int(float)] as Python computes them: in binary64, every operation
    rounded to nearest, ties to even. *)

Definition float64 : Type := SpecFloat.spec_float.

Definition exact_int (z : Z) : float64 :=
  match z with
  | Z0 => SpecFloat.S754_zero false
  | Zpos p => SpecFloat.S754_finite false p 0
  | Zneg p => SpecFloat.S754_finite true p 0
  end.

Definition finite_or_overflow (f : float64) : result float64 :=
  match f with
  | SpecFloat.S754_infinity _ => Raise OverflowError
  | _ => Ok f
  end.

(** [float(z)], as the arithmetic operators convert an integer operand. *)
Definition py_float (z : Z) : result float64 :=
  finite_or_overflow (SpecFloat.binary_normalize 53 1024 z 0 false).

(** [a / b] on integers: the correctly rounded quotient. *)
Definition py_truediv (a b : Z) : result float64 :=
  if (b =? 0)%Z then Raise ZeroDivisionError
  else finite_or_overflow
         (SpecFloat.SFdiv 53 1024 (exact_int a) (exact_int b)).

Definition py_fmul (x y : float64) : float64 := SpecFloat.SFmul 53 1024 x y.

(** [x / y] on floats, for a divisor that is not zero. *)
Definition py_fdiv (x y : float64) : float64 := SpecFloat.SFdiv 53 1024 x y.

(** [int(x)]: truncation towards zero. *)
Definition py_int (x : float64) : result Z :=
  match x with
  | SpecFloat.S754_zero _ => Ok 0%Z
  | SpecFloat.S754_infinity _ => Raise OverflowError
  | SpecFloat.S754_nan => Raise ValueError
  | SpecFloat.S754_finite s m e =>
      let v := if (0 <=? e)%Z then (Zpos m * 2 ^ e)%Z
               else Z.quot (Zpos m) (2 ^ (- e)) in
      Ok (if s then (- v)%Z else v)
  end.

(** [shaped2 n d m]: [m] is an [n] by [d] matrix; [shaped3] one rank up. *)
Definition shaped2 (n d : nat) (m : t2) : Prop :=
  length m = n /\ Forall (fun r => length r = d) m.

Definition shaped3 (b n d : nat) (x : t3) : Prop :=
  length x = b /\ Forall (shaped2 n d) x.

Definition shaped2b (n d : nat) (m : t2) : bool :=
  (length m =? n)%nat && forallb (fun r => (length r =? d)%nat) m.

Definition shaped3b (n d : nat) (x : t3) : bool := forallb (shaped2b n d) x.

(** ** Tensors with an explicit shape *)

Record tensor : Type := { shape : list nat; data : list R }.

Definition numel (sh : list nat) : nat := fold_right Nat.mul 1%nat sh.

Definition tget (t : tensor) (i : nat) : R := nth i (data t) 0.

Definition tabulate4 (n1 n2 n3 n4 : nat) (f : nat -> nat -> nat -> nat -> R)
  : list R :=
  flat_map (fun a =>
    flat_map (fun b =>
      flat_map (fun c => map (f a b c) (seq 0 n4)) (seq 0 n3)) (seq 0 n2))
    (seq 0 n1).

Inductive device : Type := cpu | cuda.

(** ** torch: the library operations the sources call *)

(** [nn.Conv2d(in_channels, out_channels, kernel_size, stride, bias=True)]. *)
Record Conv2d : Type := {
  in_channels : Z;
  out_channels : Z;
  conv_kernel_size : Z;
  conv_stride : Z;
  conv_weight : tensor;   (* [out_channels, in_channels, k, k] *)
  conv_bias : tensor      (* [out_channels] *)
}.

Definition Conv2d_forward (l : Conv2d) (x : tensor) : result tensor :=
  match shape x with
  | [B; C; H; W] =>
      let k := Z.to_nat (conv_kernel_size l) in
      let s := Z.to_nat (conv_stride l) in
      let O := Z.to_nat (out_channels l) in
      if negb (C =? Z.to_nat (in_channels l))%nat then Raise ShapeError
      else if ((s =? 0) || (k =? 0))%nat then Raise ValueError
      else if ((H <? k) || (W <? k))%nat then Raise ShapeError
      else
        let H' := ((H - k) / s + 1)%nat in
        let W' := ((W - k) / s + 1)%nat in
        Ok {| shape := [B; O; H'; W'];
              data := tabulate4 B O H' W' (fun b o h w =>
                tget (conv_bias l) o +
                sum_upto C (fun c => sum_upto k (fun p => sum_upto k (fun q =>
                  tget (conv_weight l) (((o * C + c) * k + p) * k + q) *
                  tget x (((b * C + c) * H + (h * s + p)) * W + (w * s + q))))))
           |}
  | _ => Raise ShapeError
  end.

Definition relu (x : R) : R := Rmax 0 x.

Definition sigmoid (x : R) : R := 1 / (1 + exp (- x)).

(** [nn.ReLU(inplace=True)] on a feature map. *)
Definition ReLU_forward (x : tensor) : tensor :=
  {| shape := shape x; data := map relu (data x) |}.

(** [nn.Linear(in_features, out_features)]. *)
Record Linear : Type := {
  in_features : Z;
  out_features : Z;
  lin_weight : tensor;    (* [out_features, in_features] *)
  lin_bias : tensor       (* [out_features] *)
}.

Definition Linear_forward (l : Linear) (x : t2) : result t2 :=
  let I := Z.to_nat (in_features l) in
  let O := Z.to_nat (out_features l) in
  mapM (fun row =>
          if (length row =? I)%nat then
            Ok (map (fun o =>
                       sum_upto I (fun k =>
                         tget (lin_weight l) (o * I + k) * nth k row 0)
                       + tget (lin_bias l) o)
                    (seq 0 O))
          else Raise ShapeError) x.

(** The members of the decoder's [nn.Sequential]. *)
Inductive layer : Type :=
| LLinear (l : Linear)
| LReLU
| LSigmoid.

Definition layer_forward (m : layer) (x : t2) : result t2 :=
  match m with
  | LLinear l => Linear_forward l x
  | LReLU => Ok (map (map relu) x)
  | LSigmoid => Ok (map (map sigmoid) x)
  end.

Fixpoint Sequential_forward (ms : list layer) (x : t2) : result t2 :=
  match ms with
  | [] => Ok x
  | m :: ms' => (y <- layer_forward m x ;; Sequential_forward ms' y)%res
  end.

(** Elementwise binary operations broadcast an axis of size one. *)
Fixpoint zipWithM {A B C} (f : A -> B -> result C) (a : list A) (b : list B)
  : result (list C) :=
  match a, b with
  | [], [] => Ok []
  | x :: a', y :: b' =>
      (z <- f x y ;; zs <- zipWithM f a' b' ;; Ok (z :: zs))%res
  | _, _ => Raise ShapeError
  end.

Definition bcast {A B C} (f : A -> B -> result C) (a : list A) (b : list B)
  : result (list C) :=
  if (length a =? length b)%nat then zipWithM f a b
  else match a, b with
       | [x], _ => mapM (f x) b
       | _, [y] => mapM (fun x => f x y) a
       | _, _ => Raise ShapeError
       end.

Definition tadd3 : t3 -> t3 -> result t3 :=
  bcast (bcast (bcast (fun x y => Ok (x + y)))).

Definition tmul3 : t3 -> t3 -> result t3 :=
  bcast (bcast (bcast (fun x y => Ok (x * y)))).

(** What [out * y] amounts to when [y] holds one factor per capsule. *)
Definition scale_capsule (q : t1 * t1) : t1 :=
  map (fun v => v * hd 0 (snd q)) (fst q).

Definition scale_example (p : t2 * t2) : t2 :=
  map scale_capsule (combine (fst p) (snd p)).

(** [torch.eye(n)], [index_select(dim=0, index)], [unsqueeze(2)]. *)
Definition one_hot (n i : nat) : t1 :=
  map (fun j => if (i =? j)%nat then 1 else 0) (seq 0 n).

Definition eye (n : nat) : t2 := map (one_hot n) (seq 0 n).

Definition index_select0 (m : t2) (index : list nat) : result t2 :=
  mapM (fun i => of_option IndexError (nth_error m i)) index.

Definition unsqueeze2 (m : t2) : t3 := map (map (fun v => [v])) m.

(** [t.max(dim=1)] returns, next to the maxima, the index of the first
    maximal entry of every row; an empty row cannot be reduced. *)
Fixpoint argmax_from (bi : nat) (bv : R) (i : nat) (l : t1) : nat :=
  match l with
  | [] => bi
  | x :: l' =>
      if Rltb bv x then argmax_from i x (S i) l'
      else argmax_from bi bv (S i) l'
  end.

Definition argmax (row : t1) : nat :=
  match row with
  | [] => 0%nat
  | x :: l' => argmax_from 0 x 1 l'
  end.

Definition max_index (row : t1) : result nat :=
  match row with
  | [] => Raise IndexError
  | _ => Ok (argmax row)
  end.

(** [i] is the lowest index at which [row] is maximal. *)
Definition is_first_max (row : t1) (i : nat) : Prop :=
  (i < length row)%nat /\
  (forall k, (k < length row)%nat -> nth k row 0 <= nth i row 0) /\
  (forall k, (k < i)%nat -> nth k row 0 < nth i row 0).

Definition max_dim1 (preds : t2) : result (list nat) := mapM max_index preds.

(** [x.view(x.size(0), -1)]: with an empty batch the free axis cannot be
    inferred. *)
Definition view_rows (x : t3) : result t2 :=
  match x with
  | [] => Raise ShapeError
  | _ => Ok (map (@concat R) x)
  end.

(** [x.view(-1, *img_shape)]. *)
Definition view_infer (rows : t2) (img : list nat) : result tensor :=
  let n := length (concat rows) in
  let p := numel img in
  if (p =? 0)%nat then Raise ShapeError
  else if negb (n mod p =? 0)%nat then Raise ShapeError
  else Ok {| shape := (n / p)%nat :: img; data := concat rows |}.

(** [t[i]] on a tuple. *)
Definition index {A} (l : list A) (i : nat) : result A :=
  of_option IndexError (nth_error l i).

(** ** State and error monad of the interpreter *)

Definition M (world A : Type) : Type := world -> result A * world.

Definition ret {world A} (a : A) : M world A := fun w => (Ok a, w).

Definition bind {world A B} (m : M world A) (k : A -> M world B) : M world B :=
  fun w =>
    match m w with
    | (Ok a, w') => k a w'
    | (Raise e, w') => (Raise e, w')
    end.

Definition lift {world A} (r : result A) : M world A := fun w => (r, w).

Declare Scope M_scope.
Delimit Scope M_scope with M.
Notation "x <- m ;; k" := (bind m (fun x => k))
  (at level 61, m at next level, right associativity) : M_scope.

Fixpoint replicateM {world A} (n : nat) (m : M world A) : M world (list A) :=
  match n with
  | O => ret []
  | S n' => (x <- m ;; xs <- replicateM n' m ;; ret (x :: xs))%M
  end.

(** ** capsules.py (the file is not among the sources) *)

(** Modelled from the spec: the class [capsules.RoutingCapsules] is missing
    from the sources.  A layer object keeps the arguments that [model.py]
    passes to its constructor, in their order (input dimension, input
    capsules, output capsules, output dimension, routing iterations,
    device), and the transformation matrix [W] of the data model. *)
Record RoutingCapsules : Type := {
  rc_in_dim : Z;
  rc_in_caps : Z;
  rc_out_caps : Z;
  rc_out_dim : Z;
  rc_num_routing : Z;
  rc_device : device;
  rc_W : tensor           (* [out_caps, in_caps, out_dim, in_dim] *)
}.

Module Capsules.

(** Modelled from the spec: [capsules.squash] is missing from the sources.
    The contract of section 4.1 is
    [v = (||s||^2 / (1 + ||s||^2)) * (s / ||s||)], with [||s||] clamped
    away from zero by a small epsilon before it divides. *)
Definition squash (eps : R) (s : t1) : option t1 :=
  let n := norm s in
  match fdiv (n * n) (1 + n * n) with
  | None => None
  | Some scale =>
      omapM (fun x =>
               match fdiv x (Rmax n eps) with
               | None => None
               | Some u => Some (scale * u)
               end) s
  end.

(** The same formula with the clamp removed, to see what the clamp buys. *)
Definition squash_unguarded (s : t1) : option t1 := squash 0 s.

Definition squash_scale (eps : R) (s : t1) : R :=
  (norm s * norm s) / (1 + norm s * norm s) / Rmax (norm s) eps.

(** Modelled from the spec: the softmax over the out-capsule axis
    (section 4.3, step 3a). *)
Definition softmax (row : t1) : option t1 :=
  let e := map exp row in
  omapM (fun a => fdiv a (Rsum e)) e.

Section Routing.

Variable eps : R.
Variables nI nO nD nK : nat.   (* in_caps, out_caps, out_dim, in_dim *)
Variable W : tensor.

Definition W_at (j i d k : nat) : R :=
  tget W (((j * nI + i) * nD + d) * nK + k).

(** Modelled from the spec: step 1 of section 4.3,
    [u_hat[i][j] = W[j][i] . x[i]], with [W] in row-major order. *)
Definition u_hat (x : t2) : t3 :=
  map (fun i =>
    map (fun j =>
      map (fun d => sum_upto nK (fun k => W_at j i d k * get2 x i k))
          (seq 0 nD))
      (seq 0 nO))
    (seq 0 nI).

(** Modelled from the spec: step 3b,
    [s[j] = sum_i c[i][j] * u_hat[i][j]]. *)
Definition weighted_sum (c : t2) (u : t3) : t2 :=
  map (fun j =>
    map (fun d => sum_upto nI (fun i => get2 c i j * get3 u i j d))
        (seq 0 nD))
    (seq 0 nO).

(** Modelled from the spec: step 3d,
    [b[i][j] += u_hat[i][j] . v[j]]. *)
Definition agreement (u : t3) (v : t2) : t2 :=
  map (fun i =>
    map (fun j => sum_upto nD (fun d => get3 u i j d * get2 v j d))
        (seq 0 nO))
    (seq 0 nI).

Definition update (b a : t2) : t2 :=
  map (fun i => map (fun j => get2 b i j + get2 a i j) (seq 0 nO)) (seq 0 nI).

(** Modelled from the spec: step 3, with [r] iterations still to come
    after this one; the last iteration skips the logit update. *)
Fixpoint iterate (u : t3) (r : nat) (b : t2) : option t2 :=
  match omapM softmax b with
  | None => None
  | Some c =>
      match omapM (squash eps) (weighted_sum c u) with
      | None => None
      | Some v =>
          match r with
          | O => Some v
          | S r' => iterate u r' (update b (agreement u v))
          end
      end
  end.

(** Modelled from the spec: steps 1 to 4 on one example, for [S r]
    routing iterations; the coupling logits start from zero at every
    call. *)
Definition route (r : nat) (x : t2) : option t2 :=
  iterate (u_hat x) r (repeat (zeros nO) nI).

End Routing.

(** Modelled from the spec: [capsules.RoutingCapsules.forward] is missing
    from the sources.  By section 4.3 shape mismatches fail before any
    computation, the iteration count is at least one, and every example of
    the batch is routed on its own. *)
Definition forward (eps : R) (l : RoutingCapsules) (x : t3) : result t3 :=
  let I := Z.to_nat (rc_in_caps l) in
  let K := Z.to_nat (rc_in_dim l) in
  let O := Z.to_nat (rc_out_caps l) in
  let D := Z.to_nat (rc_out_dim l) in
  if negb (shaped3b I K x) then Raise ShapeError
  else if (rc_num_routing l <? 1)%Z then Raise ValueError
  else
    mapM (fun ex =>
            of_option NonFinite
              (route eps I O D K (rc_W l)
                     (Z.to_nat (rc_num_routing l) - 1) ex)) x.

End Capsules.

(** ** What the sources take from their environment

    The interpreter state [world]; the initialiser that draws a fresh
    parameter tensor of a given shape from the random generator
    ([torch.randn] and the default initialisers of [nn.Conv2d] and
    [nn.Linear]); and the two classes of [capsules.py]. *)
Class Runtime : Type := {
  world : Type;
  init_param : list Z -> M world tensor;
  PrimaryCapsules : Type;
  PrimaryCapsules_init : Z -> Z -> Z -> Z -> M world PrimaryCapsules;
  PrimaryCapsules_forward : PrimaryCapsules -> tensor -> M world t3;
  RoutingCapsules_forward : RoutingCapsules -> t3 -> M world t3
}.

Section Constructors.

Context {rt : Runtime}.

Definition Conv2d_init (cin cout k s : Z) : M world Conv2d :=
  (w <- init_param [cout; cin; k; k] ;;
   b <- init_param [cout] ;;
   ret {| in_channels := cin; out_channels := cout;
          conv_kernel_size := k; conv_stride := s;
          conv_weight := w; conv_bias := b |})%M.

Definition Linear_init (fin fout : Z) : M world Linear :=
  (w <- init_param [fout; fin] ;;
   b <- init_param [fout] ;;
   ret {| in_features := fin; out_features := fout;
          lin_weight := w; lin_bias := b |})%M.

(** Modelled from the spec: the constructor of [caps.RoutingCapsules] is
    missing from the sources.  By section 3 the transformation matrix of
    shape [[out_capsules, in_capsules, out_dim, in_dim]] is created at
    construction; no check on the configuration is described. *)
Definition RoutingCapsules_init
    (in_dim in_caps out_caps out_dim num_routing : Z) (dev : device)
  : M world RoutingCapsules :=
  (w <- init_param [out_caps; in_caps; out_dim; in_dim] ;;
   ret {| rc_in_dim := in_dim; rc_in_caps := in_caps;
          rc_out_caps := out_caps; rc_out_dim := out_dim;
          rc_num_routing := num_routing; rc_device := dev;
          rc_W := w |})%M.

End Constructors.

(** ** main.py: the argument namespace *)

(** What [parser.parse_args()] returns: one attribute per declared
    option. *)
Record ParsedArgs : Type := {
  args_dataset : string;
  args_batch_size : Z;
  args_epochs : Z;
  args_learning_rate : R;
  args_num_routing : Z;
  args_routing : string;
  args_lr_decay : R;
  args_device : device;
  args_multi_gpu : bool;
  args_gpu_device : option Z;
  args_data_path : string;
  args_residual : bool;
  args_conflicts : bool;
  args_cb_batch_size : Z;
  args_momentum : bool;
  args_gamma : R;
  args_num_res_blocks : Z;
  args_num_caps : Z;
  args_optimizer : string
}.

(** The namespace as the rest of the program sees it: the parsed options
    and the two attributes [main.py] adds afterwards, each of which may
    still be missing. *)
Record Namespace : Type := {
  parsed :> ParsedArgs;
  args_modelname : option string;
  args_num_classes : option Z
}.

Definition getattr {A} (name : string) (o : option A) : result A :=
  of_option (AttributeError name) o.

Definition set_num_caps (c : Z) (a : Namespace) : Namespace :=
  {| parsed :=
       {| args_dataset := args_dataset a;
          args_batch_size := args_batch_size a;
          args_epochs := args_epochs a;
          args_learning_rate := args_learning_rate a;
          args_num_routing := args_num_routing a;
          args_routing := args_routing a;
          args_lr_decay := args_lr_decay a;
          args_device := args_device a;
          args_multi_gpu := args_multi_gpu a;
          args_gpu_device := args_gpu_device a;
          args_data_path := args_data_path a;
          args_residual := args_residual a;
          args_conflicts := args_conflicts a;
          args_cb_batch_size := args_cb_batch_size a;
          args_momentum := args_momentum a;
          args_gamma := args_gamma a;
          args_num_res_blocks := args_num_res_blocks a;
          args_num_caps := c;
          args_optimizer := args_optimizer a |};
     args_modelname := args_modelname a;
     args_num_classes := args_num_classes a |}.

(** ** model.py *)

Record ResCapsBlock : Type := {
  skip : bool;
  functions : list RoutingCapsules
  (* an [nn.Sequential] of two [nn.Sequential], each around one layer *)
}.

Section Model.

Context {rt : Runtime}.

Definition ResCapsBlock_init
    (in_dim in_caps num_classes out_dim num_routing : Z)
    (skip : bool) (dev : device) : M world ResCapsBlock :=
  (fs <- replicateM 2
           (RoutingCapsules_init in_dim in_caps num_classes out_dim
                                 num_routing dev) ;;
   ret {| skip := skip; functions := fs |})%M.

(** [for f in self.functions: x = x + f(x) if self.skip else f(x)]. *)
Fixpoint ResCapsBlock_loop (skip : bool) (fs : list RoutingCapsules)
    (x : t3) : M world t3 :=
  match fs with
  | [] => ret x
  | f :: fs' =>
      (y <- RoutingCapsules_forward f x ;;
       x' <- (if skip then lift (tadd3 x y) else ret y) ;;
       ResCapsBlock_loop skip fs' x')%M
  end.

Definition ResCapsBlock_forward (blk : ResCapsBlock) (x : t3)
  : M world t3 :=
  ResCapsBlock_loop (skip blk) (functions blk) x.

Record CapsuleNetwork : Type := {
  net_img_shape : list nat;
  net_num_classes : Z;
  net_device : device;
  conv1 : Conv2d;
  primary : PrimaryCapsules;
  caps1 : RoutingCapsules;
  blocks : list ResCapsBlock;
  caps2 : RoutingCapsules;
  decoder : list layer
}.

(** [int(channels / primary_dim * (h - 2*(k-1)) * (w - 2*(k-1)) / 4)],
    a floating-point computation from its first division on, evaluated
    from left to right. *)
Definition primary_caps_of (img_shape : list nat)
    (channels primary_dim kernel_size : Z) : result Z :=
  (q <- py_truediv channels primary_dim ;;
   h <- index img_shape 1 ;;
   fh <- py_float (Z.of_nat h - 2 * (kernel_size - 1)) ;;
   w <- index img_shape 2 ;;
   fw <- py_float (Z.of_nat w - 2 * (kernel_size - 1)) ;;
   four <- py_float 4 ;;
   py_int (py_fdiv (py_fmul (py_fmul q fh) fw) four))%res.

(** [CapsuleNetwork.__init__]; [kernel_size] defaults to 9. *)
Definition CapsuleNetwork_init (args : Namespace) (img_shape : list nat)
    (channels primary_dim num_classes out_dim : Z) (dev : device)
    (kernel_size : Z) : M world CapsuleNetwork :=
  (c0 <- lift (index img_shape 0) ;;
   conv1 <- Conv2d_init (Z.of_nat c0) channels kernel_size 1 ;;
   primary <- PrimaryCapsules_init channels channels primary_dim
                kernel_size ;;
   primary_caps <- lift (primary_caps_of img_shape channels primary_dim
                           kernel_size) ;;
   caps1 <- RoutingCapsules_init primary_dim primary_caps 32 primary_dim
              (args_num_routing args) dev ;;
   blocks <- replicateM (Z.to_nat (args_num_res_blocks args))
               (ResCapsBlock_init primary_dim 32 32 primary_dim
                  (args_num_routing args) (args_residual args) dev) ;;
   caps2 <- RoutingCapsules_init primary_dim 32 num_classes out_dim
              (args_num_routing args) dev ;;
   l1 <- Linear_init (out_dim * num_classes) 512 ;;
   l2 <- Linear_init 512 1024 ;;
   l3 <- Linear_init 1024 (Z.of_nat (numel img_shape)) ;;
   ret {| net_img_shape := img_shape;
          net_num_classes := num_classes;
          net_device := dev;
          conv1 := conv1;
          primary := primary;
          caps1 := caps1;
          blocks := blocks;
          caps2 := caps2;
          decoder := [LLinear l1; LReLU; LLinear l2; LReLU; LLinear l3;
                      LSigmoid] |})%M.

(** The loop over [self.blocks], appending every block's output. *)
Fixpoint run_blocks (bs : list ResCapsBlock) (out : t3) (layers : list t3)
  : M world (t3 * list t3) :=
  match bs with
  | [] => ret (out, layers)
  | b :: bs' =>
      (out' <- ResCapsBlock_forward b out ;;
       run_blocks bs' out' (layers ++ [out']))%M
  end.

(** Lines 78 to 88 of [forward]: the capsule stack. *)
Definition forward_capsules (net : CapsuleNetwork) (x : tensor)
  : M world (t3 * list t3) :=
  (out <- lift (Conv2d_forward (conv1 net) x) ;;
   out <- ret (ReLU_forward out) ;;
   out <- PrimaryCapsules_forward (primary net) out ;;
   out <- RoutingCapsules_forward (caps1 net) out ;;
   ol <- run_blocks (blocks net) out [] ;;
   out <- RoutingCapsules_forward (caps2 net) (fst ol) ;;
   ret (out, snd ol))%M.

(** Lines 92 to 94: the one-hot rows selected by the longest capsule. *)
Definition reconstruction_mask (num_classes : Z) (preds : t2)
  : result t3 :=
  (max_length_idx <- max_dim1 preds ;;
   if (num_classes <? 0)%Z then Raise ValueError
   else
     y <- index_select0 (eye (Z.to_nat num_classes)) max_length_idx ;;
     Ok (unsqueeze2 y))%res.

(** Line 96: the argument of the decoder, [(out*y).view(out.size(0), -1)]. *)
Definition decoder_input (num_classes : Z) (out : t3) : result t2 :=
  (y <- reconstruction_mask num_classes (map (map norm) out) ;;
   masked <- tmul3 out y ;;
   view_rows masked)%res.

Definition CapsuleNetwork_forward (net : CapsuleNetwork) (x : tensor)
  : M world (t2 * tensor * list t3) :=
  (ol <- forward_capsules net x ;;
   inp <- lift (decoder_input (net_num_classes net) (fst ol)) ;;
   reconstructions <- lift (Sequential_forward (decoder net) inp) ;;
   reconstructions <- lift (view_infer reconstructions
                                       (net_img_shape net)) ;;
   ret (map (map norm) (fst ol), reconstructions, snd ol))%M.

End Model.

(** ** loss.py (the file is not among the sources) *)

Record CapsuleLoss : Type := {
  loss_lambda : R;
  recon_loss_scale : R
}.

Module Loss.

Definition m_plus : R := 9 / 10.
Definition m_minus : R := 1 / 10.

(** Modelled from the spec: [loss.CapsuleLoss] is missing from the sources.
    By section 4.6 the margin loss is, per class,
    [T * max(0, m+ - len)^2 + lambda * (1 - T) * max(0, len - m-)^2],
    summed over the classes and averaged over the batch. *)
Definition margin_term (lam T len : R) : R :=
  T * (Rmax 0 (m_plus - len) * Rmax 0 (m_plus - len))
  + lam * (1 - T) * (Rmax 0 (len - m_minus) * Rmax 0 (len - m_minus)).

Definition margin_row (lam : R) (scores targets : t1) : R :=
  Rsum (map (fun p => margin_term lam (snd p) (fst p)) (combine scores targets)).

Definition margin_loss (lam : R) (scores targets : t2) : option R :=
  fdiv (Rsum (map (fun p => margin_row lam (fst p) (snd p))
                  (combine scores targets)))
       (INR (length scores)).

(** Modelled from the spec: the mean squared error between the original
    and the reconstructed images (section 4.6). *)
Definition reconstruction_MSE (original reconstructed : tensor) : option R :=
  fdiv (Rsum (map (fun p => (fst p - snd p) * (fst p - snd p))
                  (combine (data original) (data reconstructed))))
       (INR (length (data original))).

(** Modelled from the spec: [total = margin_loss + recon_loss_scale *
    reconstruction_MSE(original, reconstructed)]. *)
Definition forward (crit : CapsuleLoss) (scores targets : t2)
    (images reconstructions : tensor) : option R :=
  match margin_loss (loss_lambda crit) scores targets with
  | None => None
  | Some m =>
      match reconstruction_MSE images reconstructions with
      | None => None
      | Some e => Some (m + recon_loss_scale crit * e)
      end
  end.

End Loss.

(** ** main.py *)

(** [str(n)] on an integer. *)
Definition str (n : Z) : string := NilZero.string_of_int (Z.to_int n).

(** Lines 80 to 85: the value of [args.modelname] afterwards, if any
    branch assigned it. *)
Definition assign_modelname (a : ParsedArgs) : option string :=
  if negb (args_residual a) && negb (args_momentum a) then
    Some ("CapsNet_" ++ str (args_num_res_blocks a))%string
  else if args_residual a && negb (args_momentum a) then
    Some ("ResCapsNet_" ++ str (args_num_res_blocks a))%string
  else if args_residual a && args_momentum a then
    Some ("MoCapsNet_" ++ str (args_num_res_blocks a))%string
  else None.

(** [str.upper()] on ASCII text, where it changes the letters a to z and
    nothing else.  On other text Python goes by the Unicode tables (it
    maps a dotless i onto I, for one), which this definition does not
    follow: what is proved of a name is proved under [is_ascii]. *)
Definition upper_ascii (c : ascii) : ascii :=
  let n := nat_of_ascii c in
  if ((97 <=? n) && (n <=? 122))%nat then ascii_of_nat (n - 32) else c.

Fixpoint upper (s : string) : string :=
  match s with
  | EmptyString => EmptyString
  | String c s' => String (upper_ascii c) (upper s')
  end.

Fixpoint is_ascii (s : string) : bool :=
  match s with
  | EmptyString => true
  | String c s' => (nat_of_ascii c <? 128)%nat && is_ascii s'
  end.

(** [os.path.join(a, b)] on a POSIX system. *)
Definition ends_with_slash (s : string) : bool :=
  match String.get (String.length s - 1) s with
  | Some c => Ascii.eqb c "/"
  | None => false
  end.

Definition path_join (a b : string) : string :=
  if String.prefix "/" b then b
  else if String.eqb a "" || ends_with_slash a then (a ++ b)%string
  else (a ++ "/" ++ b)%string.

(** Lines 108 to 132: the directory joined onto [args.data_path]. *)
Definition dataset_dir (dataset : string) : result string :=
  let d := upper dataset in
  if String.eqb d "MNIST" then Ok "MNIST"%string
  else if String.eqb d "CIFAR" then Ok "CIFAR"%string
  else if String.eqb d "CIFAR100" then Ok "CIFAR100"%string
  else if String.eqb d "SVHN" then Ok "SVHN"%string
  else if String.eqb d "JAMONES" then Ok "JAMONES_CROPPED"%string
  else Raise ValueError.

(** Lines 108 to 134: [len(classes)] for the chosen dataset. *)
Definition num_classes_of (dataset : string) : result Z :=
  let d := upper dataset in
  if String.eqb d "MNIST" then Ok 10%Z
  else if String.eqb d "CIFAR" then Ok 10%Z
  else if String.eqb d "CIFAR100" then Ok 100%Z
  else if String.eqb d "SVHN" then Ok 10%Z
  else if String.eqb d "JAMONES" then Ok 26%Z
  else Raise ValueError.

(** Lines 78 to 134: the namespace as it stands after line 134, which is
    the one handed to the trainer if the lines in between (the data sets
    and their loaders) raise nothing.  [device_count] is what
    [torch.cuda.device_count()] reports. *)
Definition main_namespace (device_count : Z) (a : ParsedArgs)
  : result Namespace :=
  let modelname := assign_modelname a in
  let batch_size :=
    if args_multi_gpu a then (args_batch_size a * device_count)%Z
    else args_batch_size a in
  (n <- num_classes_of (args_dataset a) ;;
   dir <- dataset_dir (args_dataset a) ;;
   Ok {| parsed :=
           {| args_dataset := args_dataset a;
              args_batch_size := batch_size;
              args_epochs := args_epochs a;
              args_learning_rate := args_learning_rate a;
              args_num_routing := args_num_routing a;
              args_routing := args_routing a;
              args_lr_decay := args_lr_decay a;
              args_device := args_device a;
              args_multi_gpu := args_multi_gpu a;
              args_gpu_device := args_gpu_device a;
              args_data_path := path_join (args_data_path a) dir;
              args_residual := args_residual a;
              args_conflicts := args_conflicts a;
              args_cb_batch_size := args_cb_batch_size a;
              args_momentum := args_momentum a;
              args_gamma := args_gamma a;
              args_num_res_blocks := args_num_res_blocks a;
              args_num_caps := args_num_caps a;
              args_optimizer := args_optimizer a |};
         args_modelname := modelname;
         args_num_classes := Some n |})%res.

(** ** trainer.py *)

Inductive Optimizer : Type :=
| Ranger21 (lr : R) (num_epochs num_batches_per_epoch : Z)
| Adam (lr : R).

Record ExponentialLR : Type := { sched_gamma : R }.

Section Trainer.

Context {rt : Runtime}.

(** The data loaders, and the shape of the first training image
    ([loaders['train'].dataset[0][0].numpy().shape]). *)
Variable Loaders : Type.
Variable first_image_shape : Loaders -> M world (list nat).

(** The network as the trainer holds it: as built, wrapped by
    [transform_to_momentumnet], wrapped by [nn.DataParallel]. *)
Inductive Net : Type :=
| Plain (n : CapsuleNetwork)
| MomentumNet (n : Net) (fcts : list string) (gamma : R)
| DataParallel (n : Net).

Record CapsNetTrainer : Type := {
  tr_device : device;
  tr_multi_gpu : bool;
  tr_batch_size : Z;
  tr_cb_batch_size : Z;
  tr_conflicts : bool;
  tr_modelname : string;
  tr_loaders : Loaders;
  tr_net : Net;
  tr_criterion : CapsuleLoss;
  tr_optimizer : Optimizer;
  tr_scheduler : option ExponentialLR
}.

(** [["blocks." + str(i) + ".functions" for i in range(n)]]. *)
Definition momentum_paths (n : Z) : list string :=
  map (fun i => ("blocks." ++ str (Z.of_nat i) ++ ".functions")%string)
      (seq 0 (Z.to_nat n)).

(** [CapsNetTrainer.__init__].  The attributes read before [modelname]
    are declared options and always present; [modelname] and
    [num_classes] are there only if [main.py] has assigned them. *)
Definition CapsNetTrainer_init (loaders : Loaders) (args : Namespace)
    (dev : device) : M world CapsNetTrainer :=
  (modelname <- lift (getattr "modelname" (args_modelname args)) ;;
   img_shape <- first_image_shape loaders ;;
   num_classes <- lift (getattr "num_classes" (args_num_classes args)) ;;
   net <- CapsuleNetwork_init args img_shape 256 8 num_classes 16 dev 9 ;;
   let net :=
     if args_momentum args then
       MomentumNet (Plain net) (momentum_paths (args_num_res_blocks args))
                   (args_gamma args)
     else Plain net in
   let net := if args_multi_gpu args then DataParallel net else net in
   let ranger := String.eqb (args_optimizer args) "ranger21" in
   ret {| tr_device := dev;
          tr_multi_gpu := args_multi_gpu args;
          tr_batch_size := args_batch_size args;
          tr_cb_batch_size := args_cb_batch_size args;
          tr_conflicts := args_conflicts args;
          tr_modelname := modelname;
          tr_loaders := loaders;
          tr_net := net;
          tr_criterion := {| loss_lambda := 5 / 10;
                             recon_loss_scale := 5 / 10000 |};
          tr_optimizer :=
            if ranger then
              Ranger21 (args_learning_rate args) (args_epochs args)
                       (args_batch_size args)
            else Adam (args_learning_rate args);
          tr_scheduler :=
            if ranger then None
            else Some {| sched_gamma := args_lr_decay args |} |})%M.

End Trainer.

(** *** The bookkeeping of [CapsNetTrainer.run] *)

Inductive phase : Type := train | test.

Record History : Type := {
  train_loss : list R;
  train_acc : list R;
  test_loss : list R;
  test_acc : list R
}.

(** What one pass through the body of the batch loop takes from the
    network and the criterion: [loss.item()], the number of correct
    predictions, [labels.size(0)] and [len(layers)]. *)
Record batch_outcome : Type := {
  bo_loss : R;
  bo_correct : Z;
  bo_size : Z;
  bo_layers : nat
}.

(** The local variables of [run] that outlive a batch. *)
Record RunState : Type := {
  history : History;
  best_test_acc : R;
  best_epoch : nat;
  epochs_no_improve : nat;
  running_loss : R;
  correct : Z;
  total : Z;
  var_i : option nat;
  var_accuracy : option R
}.

Definition patience : nat := 10.

Definition initial_state : RunState :=
  {| history := {| train_loss := []; train_acc := [];
                   test_loss := []; test_acc := [] |};
     best_test_acc := 0; best_epoch := 0; epochs_no_improve := 0;
     running_loss := 0; correct := 0; total := 0;
     var_i := None; var_accuracy := None |}.

(** Lines 101 to 104. *)
Definition phase_start (st : RunState) : RunState :=
  {| history := history st;
     best_test_acc := best_test_acc st;
     best_epoch := best_epoch st;
     epochs_no_improve := epochs_no_improve st;
     running_loss := 0; correct := 0; total := 0;
     var_i := var_i st; var_accuracy := var_accuracy st |}.

(** Lines 105 to 141: one batch.  With conflict measurement on, the
    first batch runs [for i, l in enumerate(layers)], which rebinds [i]
    ([bundle_entropy] is taken to return).  Printing, the optimizer step
    and the memory probe leave these variables alone. *)
Definition batch_step (conflicts : bool) (i : nat) (b : batch_outcome)
    (st : RunState) : result RunState :=
  let running := running_loss st + bo_loss b in
  let tot := (total st + bo_size b)%Z in
  let cor := (correct st + bo_correct b)%Z in
  if (tot =? 0)%Z then Raise ZeroDivisionError
  else
    let i' := if (i =? 0)%nat && conflicts then
                match bo_layers b with
                | O => i
                | S n => n
                end
              else i in
    Ok {| history := history st;
          best_test_acc := best_test_acc st;
          best_epoch := best_epoch st;
          epochs_no_improve := epochs_no_improve st;
          running_loss := running; correct := cor; total := tot;
          var_i := Some i';
          var_accuracy := Some (IZR cor / IZR tot) |}.

Fixpoint batch_loop (conflicts : bool) (i : nat) (bs : list batch_outcome)
    (st : RunState) : result RunState :=
  match bs with
  | [] => Ok st
  | b :: bs' =>
      (st' <- batch_step conflicts i b st ;;
       batch_loop conflicts (S i) bs' st')%res
  end.

(** [running_loss] after the batches [bs], starting from [r0]. *)
Definition loss_sum (bs : list batch_outcome) (r0 : R) : R :=
  fold_left (fun acc b => acc + bo_loss b) bs r0.

(** [running_loss/(i+i)]. *)
Definition recorded_loss (st : RunState) : result R :=
  (i <- of_option (UnboundLocalError "i") (var_i st) ;;
   if (i + i =? 0)%nat then Raise ZeroDivisionError
   else Ok (running_loss st / INR (i + i)))%res.

Definition loss_history (ph : phase) (h : History) : list R :=
  match ph with train => train_loss h | test => test_loss h end.

Definition acc_history (ph : phase) (h : History) : list R :=
  match ph with train => train_acc h | test => test_acc h end.

Definition append_history (ph : phase) (l a : R) (h : History) : History :=
  match ph with
  | train => {| train_loss := train_loss h ++ [l];
                train_acc := train_acc h ++ [a];
                test_loss := test_loss h; test_acc := test_acc h |}
  | test => {| train_loss := train_loss h; train_acc := train_acc h;
               test_loss := test_loss h ++ [l];
               test_acc := test_acc h ++ [a] |}
  end.

(** Lines 143 to 155: the bookkeeping that follows the batch loop.  The
    boolean tells whether the early-stopping branch is entered; what
    that branch does before it returns (lines 156 to 212) is left to
    [class_report] and [CapsNetTrainer_run] below. *)
Definition phase_end (epoch : nat) (ph : phase) (st : RunState)
  : result (bool * RunState) :=
  (l <- recorded_loss st ;;
   a <- of_option (UnboundLocalError "accuracy") (var_accuracy st) ;;
   let h := append_history ph l a (history st) in
   match ph with
   | train =>
       Ok (false,
           {| history := h;
              best_test_acc := best_test_acc st;
              best_epoch := best_epoch st;
              epochs_no_improve := epochs_no_improve st;
              running_loss := running_loss st;
              correct := correct st; total := total st;
              var_i := var_i st; var_accuracy := var_accuracy st |})
   | test =>
       if Rltb (best_test_acc st) a then
         Ok (false,
             {| history := h;
                best_test_acc := a;
                best_epoch := epoch;
                epochs_no_improve := 0;
                running_loss := running_loss st;
                correct := correct st; total := total st;
                var_i := var_i st; var_accuracy := var_accuracy st |})
       else
         let n := S (epochs_no_improve st) in
         Ok ((n =? patience)%nat,
             {| history := h;
                best_test_acc := best_test_acc st;
                best_epoch := best_epoch st;
                epochs_no_improve := n;
                running_loss := running_loss st;
                correct := correct st; total := total st;
                var_i := var_i st; var_accuracy := var_accuracy st |})
   end)%res.

(** One phase of one epoch. *)
Definition run_phase (conflicts : bool) (epoch : nat) (ph : phase)
    (bs : list batch_outcome) (st : RunState) : result (bool * RunState) :=
  (st' <- batch_loop conflicts 0 bs (phase_start st) ;;
   phase_end epoch ph st')%res.

(** [for epoch in range(1, epochs+1): for phase in ['train', 'test']],
    over the batches that each phase of each epoch meets, until the loop
    is left: at its end or by the early-stopping branch. *)
Fixpoint run_epochs (conflicts : bool)
    (batches : nat -> phase -> list batch_outcome)
    (epoch remaining : nat) (st : RunState) : result (bool * RunState) :=
  match remaining with
  | O => Ok (false, st)
  | S remaining' =>
      (r1 <- run_phase conflicts epoch train (batches epoch train) st ;;
       r2 <- run_phase conflicts epoch test (batches epoch test) (snd r1) ;;
       if fst r2 then Ok r2
       else run_epochs conflicts batches (S epoch) remaining' (snd r2))%res
  end.

(** Lines 88 to 155 of [run]: the epoch loop and its bookkeeping, up to
    the point where the loop is left. *)
Definition run (conflicts : bool)
    (batches : nat -> phase -> list batch_outcome) (epochs : Z)
  : result (bool * RunState) :=
  run_epochs conflicts batches 1 (Z.to_nat epochs) initial_state.

(** *** The per-class report that ends [run]

    Lines 164 to 181 in the early-stopping branch and again lines 229 to
    246 after the loop: one more pass over the test loader.  A batch of
    that pass is given by the label of each example and whether the
    prediction for it was right ([c[i]]). *)

Definition report_batch : Type := list (nat * bool).

(** [l[k] += v] on a list. *)
Definition bump (l : list Z) (k : nat) (v : Z) : result (list Z) :=
  match nth_error l k with
  | Some x => Ok (firstn k l ++ (x + v)%Z :: skipn (S k) l)
  | None => Raise IndexError
  end.

(** [for i in range(labels.size(0))]: [class_correct[label] += c[i].item()]
    and [class_total[label] += 1]. *)
Fixpoint tally_examples (b : report_batch) (acc : list Z * list Z)
  : result (list Z * list Z) :=
  match b with
  | [] => Ok acc
  | (label, hit) :: b' =>
      (cc <- bump (fst acc) label (if hit then 1 else 0)%Z ;;
       ct <- bump (snd acc) label 1%Z ;;
       tally_examples b' (cc, ct))%res
  end.

(** One batch.  [c = (predicted == labels).squeeze()] has no axis left
    when the batch holds a single example, and [c[0]] then fails. *)
Definition tally_batch (b : report_batch) (acc : list Z * list Z)
  : result (list Z * list Z) :=
  if (length b =? 1)%nat then Raise IndexError else tally_examples b acc.

Fixpoint tally (bs : list report_batch) (acc : list Z * list Z)
  : result (list Z * list Z) :=
  match bs with
  | [] => Ok acc
  | b :: bs' => (acc' <- tally_batch b acc ;; tally bs' acc')%res
  end.

(** [100 * class_correct[i] / class_total[i]], a division of floats. *)
Definition class_percentage (acc : list Z * list Z) (i : nat) : result R :=
  let total := nth i (snd acc) 0%Z in
  if (total =? 0)%Z then Raise ZeroDivisionError
  else Ok (100 * IZR (nth i (fst acc) 0%Z) / IZR total).

(** The report: the percentages it prints, one per class. *)
Definition class_report (num_classes : nat) (bs : list report_batch)
  : result (list R) :=
  (acc <- tally bs (repeat 0%Z num_classes, repeat 0%Z num_classes) ;;
   mapM (class_percentage acc) (seq 0 num_classes))%res.

(** [run] as a whole: the epoch loop, then, in the early-stopping branch
    (lines 156 to 212) as after the last epoch (lines 224 to 247), the
    error rate computed from [accuracy] and the per-class report over
    the batches [report] of the test loader; [num_classes] is
    [len(classes)].  Saving the checkpoint and plotting are taken to
    return. *)
Definition CapsNetTrainer_run (conflicts : bool)
    (batches : nat -> phase -> list batch_outcome)
    (report : list report_batch) (num_classes : nat) (epochs : Z)
  : result (bool * RunState * list R) :=
  (r <- run conflicts batches epochs ;;
   accuracy <- of_option (UnboundLocalError "accuracy")
                 (var_accuracy (snd r)) ;;
   percentages <- class_report num_classes report ;;
   Ok (r, percentages))%res.

(** ** A runtime to run the model on

    The interpreter state is the position in the random stream; nothing
    else is kept between calls. *)

Module SpecRuntime.

Definition rand_at (n : N) : R := IZR (Z.of_N (n mod 7)) / 100.

Definition draw (dims : list Z) : M N tensor :=
  fun g =>
    if existsb (fun d => (d <? 0)%Z) dims then (Raise ValueError, g)
    else
      let sh := map Z.to_nat dims in
      (Ok {| shape := sh;
             data := map (fun i => rand_at (g + N.of_nat i))
                         (seq 0 (numel sh)) |},
       (g + N.of_nat (numel sh))%N).

(** Modelled from the spec: [capsules.PrimaryCapsules] is missing from the
    sources.  By section 4.2 it is a convolution whose output maps are
    regrouped into capsules of [capsule_dim] entries, which are then
    squashed.  The stride is two, as the capsule count computed in
    [model.py] presumes. *)
Record StridedPrimary : Type := { pc_conv : Conv2d; pc_dim : Z }.

Definition primary_init (cin cout dim k : Z) : M N StridedPrimary :=
  (w <- draw [cout; cin; k; k] ;;
   b <- draw [cout] ;;
   ret {| pc_conv := {| in_channels := cin; out_channels := cout;
                        conv_kernel_size := k; conv_stride := 2;
                        conv_weight := w; conv_bias := b |};
          pc_dim := dim |})%M.

Definition capsules_of (dim : nat) (fm : tensor) : result t3 :=
  match shape fm with
  | [B; C; H; W] =>
      let n := (C * H * W)%nat in
      if (dim =? 0)%nat then Raise ShapeError
      else if negb (n mod dim =? 0)%nat then Raise ShapeError
      else
        Ok (map (fun b =>
              map (fun c =>
                map (fun t => tget fm (b * n + c * dim + t)) (seq 0 dim))
                (seq 0 (n / dim)))
              (seq 0 B))
  | _ => Raise ShapeError
  end.

Definition primary_forward (eps : R) (p : StridedPrimary)
    (x : tensor) : M N t3 :=
  lift (fm <- Conv2d_forward (pc_conv p) x ;;
        u <- capsules_of (Z.to_nat (pc_dim p)) fm ;;
        mapM (mapM (fun s => of_option NonFinite (Capsules.squash eps s))) u)%res.

Definition runtime (eps : R) : Runtime :=
  {| world := N;
     init_param := draw;
     PrimaryCapsules := StridedPrimary;
     PrimaryCapsules_init := primary_init;
     PrimaryCapsules_forward := primary_forward eps;
     RoutingCapsules_forward := fun l x => lift (Capsules.forward eps l x) |}.

Definition eps0 : R := / 100000000.

(** A routing layer with one input capsule, one output capsule, entries
    of one component and the transformation matrix [[1]]. *)
Definition unit_layer : RoutingCapsules :=
  {| rc_in_dim := 1; rc_in_caps := 1; rc_out_caps := 1; rc_out_dim := 1;
     rc_num_routing := 1; rc_device := cpu;
     rc_W := {| shape := [1; 1; 1; 1]%nat; data := [1] |} |}.

Definition default_args : ParsedArgs :=
  {| args_dataset := "MNIST";
     args_batch_size := 128;
     args_epochs := 30;
     args_learning_rate := 1 / 1000;
     args_num_routing := 3;
     args_routing := "RBA";
     args_lr_decay := 96 / 100;
     args_device := cpu;
     args_multi_gpu := false;
     args_gpu_device := None;
     args_data_path := "/content/data";
     args_residual := false;
     args_conflicts := false;
     args_cb_batch_size := 32;
     args_momentum := false;
     args_gamma := 9 / 10;
     args_num_res_blocks := 1;
     args_num_caps := 32;
     args_optimizer := "adam" |}.

End SpecRuntime.

(** Three batches of two images each, as a phase may meet them. *)
Definition sample_batch (x : R) : batch_outcome :=
  {| bo_loss := x; bo_correct := 1; bo_size := 2; bo_layers := 1 |}.

Definition sample_batches : list batch_outcome :=
  [sample_batch 3; sample_batch 2; sample_batch 1].

(** The namespace of a default MNIST run, the shape of its images, and
    the options [--momentum] without [--residual]. *)
Definition mnist_namespace : Namespace :=
  {| parsed := SpecRuntime.default_args;
     args_modelname := Some "CapsNet_1"%string;
     args_num_classes := Some 10%Z |}.

Definition mnist_shape : list nat := [1; 28; 28]%nat.

Definition momentum_only_args : ParsedArgs :=
  {| args_dataset := "MNIST";
     args_batch_size := 128;
     args_epochs := 30;
     args_learning_rate := 1 / 1000;
     args_num_routing := 3;
     args_routing := "RBA";
     args_lr_decay := 96 / 100;
     args_device := cpu;
     args_multi_gpu := false;
     args_gpu_device := None;
     args_data_path := "/content/data";
     args_residual := false;
     args_conflicts := false;
     args_cb_batch_size := 32;
     args_momentum := true;
     args_gamma := 9 / 10;
     args_num_res_blocks := 1;
     args_num_caps := 32;
     args_optimizer := "adam" |}.

(** A small network on the reference runtime, and an image for it. *)
Definition const_tensor (v : R) (sh : list nat) : tensor :=
  {| shape := sh; data := repeat v (numel sh) |}.

Definition small_layer (in_dim in_caps out_caps out_dim : Z) : RoutingCapsules :=
  {| rc_in_dim := in_dim; rc_in_caps := in_caps; rc_out_caps := out_caps;
     rc_out_dim := out_dim; rc_num_routing := 3; rc_device := cpu;
     rc_W := const_tensor (1 / 10)
               [Z.to_nat out_caps; Z.to_nat in_caps; Z.to_nat out_dim;
                Z.to_nat in_dim] |}.

Definition small_linear (fin fout : Z) : Linear :=
  {| in_features := fin; out_features := fout;
     lin_weight := const_tensor (1 / 10) [Z.to_nat fout; Z.to_nat fin];
     lin_bias := const_tensor 0 [Z.to_nat fout] |}.

(** The network that [CapsuleNetwork(args, (1, 4, 4), 2, 2, 2, 2, cpu, 1)]
    builds for the default arguments, with constant weights. *)
Definition small_net : CapsuleNetwork (rt := SpecRuntime.runtime SpecRuntime.eps0) :=
  {| net_img_shape := [1; 4; 4]%nat;
     net_num_classes := 2;
     net_device := cpu;
     conv1 := {| in_channels := 1; out_channels := 2;
                 conv_kernel_size := 1; conv_stride := 1;
                 conv_weight := const_tensor (1 / 10) [2; 1; 1; 1]%nat;
                 conv_bias := const_tensor 0 [2]%nat |};
     primary :=
       ({| SpecRuntime.pc_conv :=
            {| in_channels := 2; out_channels := 2;
               conv_kernel_size := 1; conv_stride := 2;
               conv_weight := const_tensor (1 / 10) [2; 2; 1; 1]%nat;
               conv_bias := const_tensor 0 [2]%nat |};
          SpecRuntime.pc_dim := 2 |}
        : @PrimaryCapsules (SpecRuntime.runtime SpecRuntime.eps0));
     caps1 := small_layer 2 4 32 2;
     blocks := [ {| skip := false;
                    functions := [small_layer 2 32 32 2;
                                  small_layer 2 32 32 2] |} ];
     caps2 := small_layer 2 32 2 2;
     decoder := [LLinear (small_linear 4 512); LReLU;
                 LLinear (small_linear 512 1024); LReLU;
                 LLinear (small_linear 1024 16); LSigmoid] |}.

Definition small_image : tensor := const_tensor (1 / 2) [1; 1; 4; 4]%nat.

(** ** Architecture of a network, and what is asked of [capsules.py] *)

Definition rc_config (l : RoutingCapsules) : Z * Z * Z * Z * Z :=
  (rc_in_dim l, rc_in_caps l, rc_out_caps l, rc_out_dim l, rc_num_routing l).

Definition conv_config (l : Conv2d) : Z * Z * Z * Z :=
  (in_channels l, out_channels l, conv_kernel_size l, conv_stride l).

Definition linear_config (l : Linear) : Z * Z :=
  (in_features l, out_features l).

Section Architecture.

Context {rt : Runtime}.

(** A block as [ResCapsBlock(in_dim, in_caps, num_classes, out_dim,
    num_routing, skip, device)] leaves it, whatever its weights. *)
Definition block_built (in_dim in_caps num_classes out_dim num_routing : Z)
    (sk : bool) (b : ResCapsBlock) : Prop :=
  skip b = sk /\
  exists f1 f2,
    functions b = [f1; f2] /\
    rc_config f1 = (in_dim, in_caps, num_classes, out_dim, num_routing) /\
    rc_config f2 = (in_dim, in_caps, num_classes, out_dim, num_routing).

(** A network as [CapsuleNetwork(args, img_shape, channels, primary_dim,
    num_classes, out_dim, device, kernel_size)] leaves it, whatever its
    weights (which training changes). *)
Definition constructed (args : Namespace) (img_shape : list nat)
    (channels primary_dim num_classes out_dim kernel_size : Z)
    (net : CapsuleNetwork) : Prop :=
  exists c0 primary_caps l1 l2 l3,
    index img_shape 0 = Ok c0 /\
    primary_caps_of img_shape channels primary_dim kernel_size
      = Ok primary_caps /\
    net_img_shape net = img_shape /\
    net_num_classes net = num_classes /\
    conv_config (conv1 net) = (Z.of_nat c0, channels, kernel_size, 1%Z) /\
    rc_config (caps1 net)
      = (primary_dim, primary_caps, 32%Z, primary_dim,
         args_num_routing args) /\
    length (blocks net) = Z.to_nat (args_num_res_blocks args) /\
    Forall (block_built primary_dim 32 32 primary_dim
              (args_num_routing args) (args_residual args))
           (blocks net) /\
    rc_config (caps2 net)
      = (primary_dim, 32%Z, num_classes, out_dim, args_num_routing args) /\
    decoder net = [LLinear l1; LReLU; LLinear l2; LReLU; LLinear l3;
                   LSigmoid] /\
    linear_config l1 = ((out_dim * num_classes)%Z, 512%Z) /\
    linear_config l2 = (512%Z, 1024%Z) /\
    linear_config l3 = (1024%Z, Z.of_nat (numel img_shape)).

(** Section 4.3 and the shape contract of section 8: a routing layer
    with at least one iteration maps [[B, in_caps, in_dim]] to
    [[B, out_caps, out_dim]] and has no failure path of its own. *)
Definition routing_shape_contract : Prop :=
  forall (l : RoutingCapsules) (x : t3) (B : nat) (w : world),
    (1 <= rc_num_routing l)%Z ->
    shaped3 B (Z.to_nat (rc_in_caps l)) (Z.to_nat (rc_in_dim l)) x ->
    exists y w',
      RoutingCapsules_forward l x w = (Ok y, w') /\
      shaped3 B (Z.to_nat (rc_out_caps l)) (Z.to_nat (rc_out_dim l)) y.

(** The shape of the feature map that [conv1] hands on. *)
Definition conv1_output_shape (net : CapsuleNetwork) (B : nat) : list nat :=
  match net_img_shape net with
  | [_; H; W] =>
      let k := Z.to_nat (conv_kernel_size (conv1 net)) in
      [B; Z.to_nat (out_channels (conv1 net)); (H - k + 1)%nat;
       (W - k + 1)%nat]
  | _ => []
  end.

(** Section 4.2: the primary capsules turn that feature map into as
    many capsules as [caps1] was built for. *)
Definition primary_shape_contract (net : CapsuleNetwork) (B : nat) : Prop :=
  forall (fm : tensor) (w : world),
    shape fm = conv1_output_shape net B ->
    exists y w',
      PrimaryCapsules_forward (primary net) fm w = (Ok y, w') /\
      shaped3 B (Z.to_nat (rc_in_caps (caps1 net)))
              (Z.to_nat (rc_in_dim (caps1 net))) y.

(** [block_outputs bs x w ls w']: run one after the other from input
    [x], the blocks [bs] produce the outputs [ls], one per block. *)
Inductive block_outputs
  : list ResCapsBlock -> t3 -> world -> list t3 -> world -> Prop :=
| block_outputs_nil x w : block_outputs [] x w [] w
| block_outputs_cons b bs x w y w1 ls w2 :
    ResCapsBlock_forward b x w = (Ok y, w1) ->
    block_outputs bs y w1 ls w2 ->
    block_outputs (b :: bs) x w (y :: ls) w2.

End Architecture.

(** Computations that cannot fail, and an initialiser that allocates
    every tensor of non-negative dimensions. *)
Definition succeeds {world A} (m : M world A) : Prop :=
  forall w, exists a w', m w = (Ok a, w').

Definition allocates {rt : Runtime} : Prop :=
  forall dims, forallb (fun d => (0 <=? d)%Z) dims = true ->
               succeeds (init_param dims).

(** ** Further parts of main.py and of the bookkeeping *)

(** Lines 105 to 132: the side of the square images ([size]) for the
    chosen dataset. *)
Definition image_size_of (dataset : string) : result nat :=
  let d := upper dataset in
  if String.eqb d "MNIST" then Ok 28%nat
  else if String.eqb d "CIFAR" then Ok 32%nat
  else if String.eqb d "CIFAR100" then Ok 32%nat
  else if String.eqb d "SVHN" then Ok 32%nat
  else if String.eqb d "JAMONES" then Ok 50%nat
  else Raise ValueError.

(** Lines 95 to 100 and 152: [args.dataset.upper() not in datasets], the
    test that sends a dataset to [ImageFolder] and a random split. *)
Definition in_datasets (dataset : string) : bool :=
  let d := upper dataset in
  String.eqb d "MNIST" || String.eqb d "CIFAR" || String.eqb d "CIFAR100"
  || String.eqb d "SVHN".

(** Lines 153 to 157: [num_test = int(0.2 * num_data)] and
    [num_train = num_data - num_test], the fifth taken exactly. *)
Definition split_sizes (num_data : Z) : Z * Z :=
  let num_test := Z.quot num_data 5 in
  ((num_data - num_test)%Z, num_test).

(** [correct] and [total] after the batches [bs]. *)
Definition correct_sum (bs : list batch_outcome) (c0 : Z) : Z :=
  fold_left (fun acc b => (acc + bo_correct b)%Z) bs c0.

Definition size_sum (bs : list batch_outcome) (t0 : Z) : Z :=
  fold_left (fun acc b => (acc + bo_size b)%Z) bs t0.

(** The same three batches in every phase of every epoch. *)
Definition steady_batches (epoch : nat) (ph : phase) : list batch_outcome :=
  sample_batches.

(** A single batch of a network with two residual blocks. *)
Definition deep_batch : batch_outcome :=
  {| bo_loss := 3; bo_correct := 1; bo_size := 2; bo_layers := 2 |}.

(** The state of the bookkeeping after [e] completed epochs. *)
Definition epochs_done (e : nat) (st : RunState) : Prop :=
  length (train_loss (history st)) = e /\
  length (train_acc (history st)) = e /\
  length (test_loss (history st)) = e /\
  length (test_acc (history st)) = e /\
  Forall (fun a => a <= best_test_acc st) (test_acc (history st)) /\
  (best_epoch st <= e)%nat /\
  epochs_no_improve st = (e - best_epoch st)%nat /\
  (best_epoch st = 0%nat -> best_test_acc st = 0) /\
  ((1 <= best_epoch st)%nat ->
   nth (best_epoch st - 1) (test_acc (history st)) 0 = best_test_acc st).

(** Every phase of the epochs [first] to [last] meets at least two
    batches, none of them empty. *)
Definition well_fed (batches : nat -> phase -> list batch_outcome)
    (first last : nat) : Prop :=
  forall e ph, (first <= e <= last)%nat ->
    (2 <= length (batches e ph))%nat /\
    Forall (fun b => (0 < bo_size b)%Z) (batches e ph).

(** An image smaller than the kernel of nine. *)
Definition tiny_shape : list nat := [1; 8; 8]%nat.

(** The network inside the wrappers that the trainer has put around
    it. *)
Fixpoint inner_net {rt : Runtime} (n : Net) : CapsuleNetwork :=
  match n with
  | Plain c => c
  | MomentumNet n' _ _ => inner_net n'
  | DataParallel n' => inner_net n'
  end.

(** The options [--residual --momentum], and the namespace that
    [main.py] makes of them. *)
Definition mocaps_args : ParsedArgs :=
  {| args_dataset := "MNIST";
     args_batch_size := 128;
     args_epochs := 30;
     args_learning_rate := 1 / 1000;
     args_num_routing := 3;
     args_routing := "RBA";
     args_lr_decay := 96 / 100;
     args_device := cpu;
     args_multi_gpu := false;
     args_gpu_device := None;
     args_data_path := "/content/data";
     args_residual := true;
     args_conflicts := false;
     args_cb_batch_size := 32;
     args_momentum := true;
     args_gamma := 9 / 10;
     args_num_res_blocks := 1;
     args_num_caps := 32;
     args_optimizer := "adam" |}.

Definition mocaps_namespace : Namespace :=
  {| parsed := mocaps_args;
     args_modelname := Some "MoCapsNet_1"%string;
     args_num_classes := Some 10%Z |}.

(** Batches in which no prediction is right. *)
Definition barren_batches (epoch : nat) (ph : phase) : list batch_outcome :=
  [ {| bo_loss := 1; bo_correct := 0; bo_size := 2; bo_layers := 1 |};
    {| bo_loss := 1; bo_correct := 0; bo_size := 2; bo_layers := 1 |} ].

(** The sizes of the batches that [DataLoader(dataset, batch_size=bs)]
    yields over [n] examples: full batches, then what is left. *)
Definition loader_batch_sizes (n bs : nat) : list nat :=
  repeat bs (n / bs) ++ (if (n mod bs =? 0)%nat then [] else [n mod bs]%nat).

(** What [x + y] amounts to when the two tensors have the same shape. *)
Definition add_capsule (q : t1 * t1) : t1 :=
  map (fun r => fst r + snd r) (combine (fst q) (snd q)).

Definition add_example (p : t2 * t2) : t2 :=
  map add_capsule (combine (fst p) (snd p)).

(** A residual block of two small layers on two capsules of one
    component, and an input for it. *)
Definition small_block : ResCapsBlock :=
  {| skip := true;
     functions := [small_layer 1 2 2 1; small_layer 1 2 2 1] |}.

Definition small_capsules : t3 := [[[1]; [2]]].

(** What the per-class report needs of the test loader: no batch of a
    single example, no label beyond the classes, and at least one
    example of every class. *)
Definition report_ok (num_classes : nat) (report : list report_batch)
  : Prop :=
  Forall (fun b => length b <> 1%nat /\
                   Forall (fun e => (fst e < num_classes)%nat) b) report /\
  forall k, (k < num_classes)%nat ->
            exists b, In b report /\ In k (map fst b).

(** A test loader of one batch, with an example of each of two classes. *)
Definition sample_report : list report_batch :=
  [[(0%nat, false); (1%nat, true)]].

(** The bookkeeping after ten epochs of which the first was the best
    and the last nine brought no improvement. *)
Definition stalled_state : RunState :=
  {| history := {| train_loss := repeat 1 10; train_acc := repeat 1 10;
                   test_loss := repeat 1 10;
                   test_acc := 1 :: repeat 0 9 |};
     best_test_acc := 1; best_epoch := 1; epochs_no_improve := 9;
     running_loss := 0; correct := 0; total := 0;
     var_i := Some 2%nat; var_accuracy := Some 0 |}.

(** * Properties *)

(** ** Monads and lists *)

Lemma mapM_pure {A B} (f : A -> result B) (g : A -> B) (l : list A) :
  (forall x, In x l -> f x = Ok (g x)) -> mapM f l = Ok (map g l).
Proof.
  induction l as [|x l IH]; intros H; simpl; [reflexivity|].
  rewrite (H x (or_introl eq_refl)); simpl.
  rewrite IH; [reflexivity|].
  intros y Hy; apply H; right; exact Hy.
Qed.

Lemma omapM_pure {A B} (f : A -> option B) (g : A -> B) (l : list A) :
  (forall x, In x l -> f x = Some (g x)) -> omapM f l = Some (map g l).
Proof.
  induction l as [|x l IH]; intros H; simpl; [reflexivity|].
  rewrite (H x (or_introl eq_refl)).
  rewrite IH; [reflexivity|].
  intros y Hy; apply H; right; exact Hy.
Qed.

Lemma bind_ret_r {world A} (m : M world A) (w : world) :
  bind m ret w = m w.
Proof.
  unfold bind, ret; destruct (m w) as [[a|e] w']; reflexivity.
Qed.

Lemma bind_ok {world A B} (m : M world A) (k : A -> M world B) w a w' :
  m w = (Ok a, w') -> bind m k w = k a w'.
Proof. intros H; unfold bind; rewrite H; reflexivity. Qed.

Lemma bind_raise {world A B} (m : M world A) (k : A -> M world B) w e w' :
  m w = (Raise e, w') -> bind m k w = (Raise e, w').
Proof. intros H; unfold bind; rewrite H; reflexivity. Qed.

(** ** Norms *)

Lemma fdiv_some x y : y <> 0 -> fdiv x y = Some (x / y).
Proof.
  intros H; unfold fdiv; destruct (Req_dec_T y 0); [contradiction|reflexivity].
Qed.

Lemma fdiv_zero x : fdiv x 0 = None.
Proof.
  unfold fdiv; destruct (Req_dec_T 0 0); [reflexivity|contradiction].
Qed.

Lemma sum_sq_nonneg v : 0 <= sum_sq v.
Proof.
  unfold sum_sq; induction v as [|x v IH]; simpl; [lra|].
  pose proof (Rle_0_sqr x) as Hx; unfold Rsqr in Hx; lra.
Qed.

Lemma sum_sq_scale c v : sum_sq (map (fun x => c * x) v) = c * c * sum_sq v.
Proof.
  unfold sum_sq; induction v as [|x v IH]; simpl; [ring|].
  rewrite IH; ring.
Qed.

Lemma sum_sq_zeros d : sum_sq (zeros d) = 0.
Proof.
  unfold sum_sq, zeros; induction d as [|d IH]; simpl; [reflexivity|].
  rewrite IH; ring.
Qed.

Lemma norm_nonneg v : 0 <= norm v.
Proof. apply sqrt_pos. Qed.

Lemma norm_scale c v : 0 <= c -> norm (map (fun x => c * x) v) = c * norm v.
Proof.
  intros Hc; unfold norm; rewrite sum_sq_scale.
  rewrite sqrt_mult_alt by nra.
  rewrite sqrt_square by exact Hc; reflexivity.
Qed.

Lemma map_scale_zeros c d : map (fun x => c * x) (zeros d) = zeros d.
Proof.
  unfold zeros; induction d as [|d IH]; simpl; [reflexivity|].
  rewrite IH; f_equal; ring.
Qed.

Lemma norm_zeros d : norm (zeros d) = 0.
Proof. unfold norm; rewrite sum_sq_zeros; apply sqrt_0. Qed.

(** ** Squash *)

Lemma squash_total eps s :
  0 < eps ->
  Capsules.squash eps s
  = Some (map (fun x => Capsules.squash_scale eps s * x) s).
Proof.
  intros Heps; unfold Capsules.squash, Capsules.squash_scale.
  pose proof (norm_nonneg s) as Hn.
  assert (Hm : 0 < Rmax (norm s) eps).
  { pose proof (Rmax_r (norm s) eps); lra. }
  rewrite fdiv_some by nra.
  apply omapM_pure; intros x _.
  rewrite fdiv_some by lra.
  f_equal; field; split; nra.
Qed.

Lemma squash_scale_bounds eps s :
  0 < eps ->
  0 <= Capsules.squash_scale eps s /\
  Capsules.squash_scale eps s * norm s < 1.
Proof.
  intros Heps; unfold Capsules.squash_scale.
  pose proof (norm_nonneg s) as Hn.
  set (n := norm s) in *.
  assert (Hm : 0 < Rmax n eps) by (pose proof (Rmax_r n eps); lra).
  assert (Hnm : n <= Rmax n eps) by apply Rmax_l.
  set (m := Rmax n eps) in *.
  assert (Hd : 0 < 1 + n * n) by nra.
  split.
  - apply Rmult_le_pos.
    + apply Rmult_le_pos; [nra|]. left; apply Rinv_0_lt_compat; exact Hd.
    + left; apply Rinv_0_lt_compat; exact Hm.
  - assert (Hq : n / m <= 1).
    { apply (Rmult_le_reg_r m); [exact Hm|].
      unfold Rdiv; rewrite Rmult_assoc, Rinv_l by lra; lra. }
    assert (Hq0 : 0 <= n / m).
    { apply Rmult_le_pos; [exact Hn|].
      left; apply Rinv_0_lt_compat; exact Hm. }
    assert (Hs : n * n / (1 + n * n) < 1).
    { apply (Rmult_lt_reg_r (1 + n * n)); [exact Hd|].
      unfold Rdiv; rewrite Rmult_assoc, Rinv_l by lra; lra. }
    assert (Hs0 : 0 <= n * n / (1 + n * n)).
    { apply Rmult_le_pos; [nra|].
      left; apply Rinv_0_lt_compat; exact Hd. }
    replace (n * n / (1 + n * n) / m * n)
      with ((n * n / (1 + n * n)) * (n / m)) by (field; split; lra).
    nra.
Qed.

(** C7: for every vector [s], [squash] is defined (no division by zero
    occurs once the norm is clamped by a positive epsilon), its result has
    a Euclidean norm in [0, 1), and the zero vector is mapped to the zero
    vector. *)
Theorem squash_bounded_and_zero_safe (eps : R) (s : t1) (d : nat) :
  0 < eps ->
  (exists v, Capsules.squash eps s = Some v /\ 0 <= norm v < 1) /\
  Capsules.squash eps (zeros d) = Some (zeros d).
Proof.
  intros Heps; split.
  - exists (map (fun x => Capsules.squash_scale eps s * x) s).
    split; [apply squash_total; exact Heps|].
    destruct (squash_scale_bounds s Heps) as [H0 H1].
    rewrite norm_scale by exact H0.
    split; [|exact H1].
    apply Rmult_le_pos; [exact H0|apply norm_nonneg].
  - rewrite squash_total by exact Heps.
    f_equal; apply map_scale_zeros.
Qed.

Lemma eps0_pos : 0 < SpecRuntime.eps0.
Proof. unfold SpecRuntime.eps0; apply Rinv_0_lt_compat; lra. Qed.

Lemma squash_bounded_and_zero_safe_witness :
  0 < SpecRuntime.eps0 /\
  ((exists v, Capsules.squash SpecRuntime.eps0 [3; 4] = Some v
              /\ 0 <= norm v < 1) /\
   Capsules.squash SpecRuntime.eps0 (zeros 2) = Some (zeros 2)).
Proof.
  split; [exact eps0_pos|].
  exact (@squash_bounded_and_zero_safe SpecRuntime.eps0 [3; 4] 2%nat eps0_pos).
Defined.

(** Without the clamp the zero vector divides by zero. *)
Lemma squash_unguarded_zero d : Capsules.squash_unguarded (zeros (S d)) = None.
Proof.
  unfold Capsules.squash_unguarded, Capsules.squash.
  rewrite norm_zeros.
  rewrite fdiv_some by lra.
  simpl.
  replace (Rmax 0 0) with 0 by (symmetry; apply Rmax_left; lra).
  rewrite fdiv_zero; reflexivity.
Qed.

(** ** Routing on the reference runtime *)

Lemma Rsum_exp_pos (row : t1) : row <> [] -> 0 < Rsum (map exp row).
Proof.
  destruct row as [|a row]; [congruence|intros _].
  simpl. assert (H : 0 <= Rsum (map exp row)).
  { induction row as [|b row IH]; simpl; [lra|]. pose proof (exp_pos b); lra. }
  pose proof (exp_pos a); lra.
Qed.

Lemma softmax_total (row : t1) :
  Capsules.softmax row
  = Some (map (fun a => a / Rsum (map exp row)) (map exp row)).
Proof.
  unfold Capsules.softmax. apply omapM_pure. intros a Ha.
  apply fdiv_some.
  assert (row <> []) by (destruct row; [destruct Ha|congruence]).
  pose proof (Rsum_exp_pos H); lra.
Qed.

Lemma squash_singleton (eps x : R) :
  0 < eps -> eps <= x ->
  Capsules.squash eps [x] = Some [x * x / (1 + x * x)].
Proof.
  intros He Hx. rewrite squash_total by exact He. simpl.
  unfold Capsules.squash_scale, norm, sum_sq. simpl.
  replace (x * x + 0) with (x * x) by ring.
  rewrite sqrt_square by lra.
  rewrite Rmax_left by lra.
  do 2 f_equal. field. split; nra.
Qed.

Lemma unit_layer_forward (x : R) :
  SpecRuntime.eps0 <= x ->
  Capsules.forward SpecRuntime.eps0 SpecRuntime.unit_layer [[[x]]]
  = Ok [[[x * x / (1 + x * x)]]].
Proof.
  intros Hx. pose proof eps0_pos as He.
  unfold Capsules.forward. simpl.
  unfold Capsules.route, Capsules.iterate. simpl.
  rewrite softmax_total. simpl.
  change (Pos.to_nat 1) with 1%nat.
  unfold Capsules.weighted_sum, sum_upto, Capsules.u_hat, get2, get3, Capsules.W_at, tget.
  simpl.
  match goal with |- context [Capsules.squash _ [?s]] => replace s with x end.
  2:{ unfold sum_upto; simpl; rewrite exp_0; field. }
  rewrite squash_singleton by assumption. reflexivity.
Qed.

Lemma eps0_small : SpecRuntime.eps0 <= 1 / 5.
Proof. unfold SpecRuntime.eps0; lra. Qed.

Section BlockForward.
Context {rt : Runtime}.

(** C1 (amended): with [skip] the block adds a shortcut around each of
    its two layers in turn, returning [x1 + f2(x1)] for
    [x1 = x + f1(x)]; without [skip] it returns [f2(f1(x))]. *)
Theorem ResCapsBlock_forward_shortcut_per_layer
    (f1 f2 : RoutingCapsules) (x : t3) (w : world) :
  ResCapsBlock_forward {| skip := true; functions := [f1; f2] |} x w
  = (y1 <- RoutingCapsules_forward f1 x ;;
     x1 <- lift (tadd3 x y1) ;;
     y2 <- RoutingCapsules_forward f2 x1 ;;
     lift (tadd3 x1 y2))%M w
  /\
  ResCapsBlock_forward {| skip := false; functions := [f1; f2] |} x w
  = (y1 <- RoutingCapsules_forward f1 x ;;
     RoutingCapsules_forward f2 y1)%M w.
Proof.
  unfold ResCapsBlock_forward; simpl; split.
  - unfold bind.
    destruct (RoutingCapsules_forward f1 x w) as [[y1|e] w1]; [|reflexivity].
    unfold lift at 1 3.
    destruct (tadd3 x y1) as [x1|e]; [|reflexivity].
    destruct (RoutingCapsules_forward f2 x1 w1) as [[y2|e] w2]; [|reflexivity].
    unfold lift.
    destruct (tadd3 x1 y2) as [r|e]; reflexivity.
  - unfold bind.
    destruct (RoutingCapsules_forward f1 x w) as [[y1|e] w1]; [|reflexivity].
    unfold ret.
    destruct (RoutingCapsules_forward f2 y1 w1) as [[y2|e] w2]; reflexivity.
Qed.
End BlockForward.

(** C1 (as stated) fails: for the one-capsule layer with matrix [[1]] and
    the input [1], the block with [skip] returns [57/26], while
    [x + f2(f1(x))] is [6/5]. *)
Lemma ResCapsBlock_forward_not_single_shortcut :
  let rt := SpecRuntime.runtime SpecRuntime.eps0 in
  let f := SpecRuntime.unit_layer in
  ResCapsBlock_forward (rt := rt) {| skip := true; functions := [f; f] |}
                       [[[1]]] 0%N
  = (Ok [[[57 / 26]]], 0%N)
  /\ (y1 <- RoutingCapsules_forward (Runtime := rt) f [[[1]]] ;;
      y2 <- RoutingCapsules_forward f y1 ;;
      lift (tadd3 [[[1]]] y2))%M 0%N
     = (Ok [[[6 / 5]]], 0%N)
  /\ 57 / 26 <> 6 / 5.
Proof.
  pose proof eps0_small as He.
  cbv zeta. unfold ResCapsBlock_forward. simpl. unfold bind, lift. 
  rewrite unit_layer_forward by lra. simpl.
  rewrite unit_layer_forward by lra. simpl.
  rewrite unit_layer_forward by lra. simpl.
  unfold ret; simpl.
  split; [|split].
  - match goal with
    | |- (Ok [[[?a]]], _) = _ => replace a with (57 / 26) by field
    end; reflexivity.
  - unfold tadd3, bcast; simpl.
    match goal with
    | |- (Ok [[[?a]]], _) = _ => replace a with (6 / 5) by field
    end; reflexivity.
  - lra.
Qed.

(** ** Shapes through the routing layers; construction of a block *)

Lemma shaped2b_spec n d m : shaped2b n d m = true <-> shaped2 n d m.
Proof.
  unfold shaped2b, shaped2. rewrite andb_true_iff, Nat.eqb_eq, forallb_forall, Forall_forall.
  split; intros [H1 H2]; split; auto; intros r Hr; apply Nat.eqb_eq; auto.
Qed.

Lemma shaped3b_spec B n d x : length x = B -> (shaped3b n d x = true <-> shaped3 B n d x).
Proof.
  intros HB. unfold shaped3b, shaped3. rewrite forallb_forall, Forall_forall.
  split.
  - intros H; split; [exact HB|]. intros m Hm; apply shaped2b_spec; auto.
  - intros [_ H] m Hm; apply shaped2b_spec; auto.
Qed.

Lemma iterate_total eps nI nO nD u r b :
  0 < eps ->
  exists v, Capsules.iterate eps nI nO nD u r b = Some v /\ shaped2 nO nD v.
Proof.
  intros He. revert b. induction r as [|r IH]; intros b; simpl.
  - rewrite (omapM_pure Capsules.softmax _ b (fun row _ => softmax_total row)).
    rewrite (omapM_pure (Capsules.squash eps) _ _ (fun s _ => squash_total s He)).
    eexists; split; [reflexivity|].
    unfold Capsules.weighted_sum, shaped2. rewrite !length_map, length_seq.
    split; [reflexivity|].
    rewrite Forall_forall. intros s Hs.
    rewrite in_map_iff in Hs. destruct Hs as [s0 [<- Hs0]].
    rewrite length_map.
    rewrite in_map_iff in Hs0. destruct Hs0 as [j [<- _]].
    rewrite length_map, length_seq. reflexivity.
  - rewrite (omapM_pure Capsules.softmax _ b (fun row _ => softmax_total row)).
    rewrite (omapM_pure (Capsules.squash eps) _ _ (fun s _ => squash_total s He)).
    apply IH.
Qed.

Lemma capsules_forward_shape eps l x B :
  0 < eps -> (1 <= rc_num_routing l)%Z ->
  shaped3 B (Z.to_nat (rc_in_caps l)) (Z.to_nat (rc_in_dim l)) x ->
  exists y, Capsules.forward eps l x = Ok y /\
            shaped3 B (Z.to_nat (rc_out_caps l)) (Z.to_nat (rc_out_dim l)) y.
Proof.
  intros He Hr Hx. unfold Capsules.forward.
  pose proof Hx as [HB _].
  rewrite (proj2 (shaped3b_spec _ _ _ HB) Hx). simpl.
  destruct (rc_num_routing l <? 1)%Z eqn:E; [apply Z.ltb_lt in E; lia|].
  clear Hx. revert B HB. induction x as [|ex x IH]; intros B HB; simpl.
  - exists []. split; [reflexivity|]. split; [exact HB|constructor].
  - unfold Capsules.route at 1.
    destruct (iterate_total (Z.to_nat (rc_in_caps l)) (Z.to_nat (rc_out_caps l))
                (Z.to_nat (rc_out_dim l))
                (Capsules.u_hat (Z.to_nat (rc_in_caps l)) (Z.to_nat (rc_out_caps l))
                   (Z.to_nat (rc_out_dim l)) (Z.to_nat (rc_in_dim l)) (rc_W l) ex)
                (Z.to_nat (rc_num_routing l) - 1)
                (repeat (zeros (Z.to_nat (rc_out_caps l))) (Z.to_nat (rc_in_caps l))) He)
      as [v [Hv Hs]].
    rewrite Hv. simpl.
    destruct (IH (length x) eq_refl) as [y [Hy [Hl Hf]]].
    rewrite Hy. simpl. eexists; split; [reflexivity|].
    split; [simpl in *; lia|]. constructor; assumption.
Qed.

Lemma spec_runtime_routing_contract eps :
  0 < eps -> routing_shape_contract (rt := SpecRuntime.runtime eps).
Proof.
  intros He l x B w Hr Hx. simpl. unfold lift.
  destruct (capsules_forward_shape l He Hr Hx) as [y [Hy Hs]].
  exists y, w. rewrite Hy. split; [reflexivity|exact Hs].
Qed.

Section BlockInit.
Context {rt : Runtime}.

Lemma RoutingCapsules_init_ok in_dim in_caps out_caps out_dim nr dev w W w' :
  init_param [out_caps; in_caps; out_dim; in_dim] w = (Ok W, w') ->
  RoutingCapsules_init in_dim in_caps out_caps out_dim nr dev w
  = (Ok {| rc_in_dim := in_dim; rc_in_caps := in_caps;
           rc_out_caps := out_caps; rc_out_dim := out_dim;
           rc_num_routing := nr; rc_device := dev; rc_W := W |}, w').
Proof.
  intros H. unfold RoutingCapsules_init, bind. rewrite H. reflexivity.
Qed.

Lemma ResCapsBlock_init_ok
    (in_dim in_caps num_classes out_dim num_routing : Z)
    (sk : bool) (dev : device) (w : world) :
  (forall w0, exists W w1,
      init_param [num_classes; in_caps; out_dim; in_dim] w0 = (Ok W, w1)) ->
  exists blk w',
    ResCapsBlock_init in_dim in_caps num_classes out_dim num_routing sk dev w
    = (Ok blk, w') /\
    block_built in_dim in_caps num_classes out_dim num_routing sk blk.
Proof.
  intros Halloc.
  destruct (Halloc w) as [W1 [w1 H1]].
  destruct (Halloc w1) as [W2 [w2 H2]].
  unfold ResCapsBlock_init. simpl.
  unfold bind at 1. unfold bind at 1.
  erewrite RoutingCapsules_init_ok by exact H1.
  unfold bind at 1. unfold bind at 1.
  erewrite RoutingCapsules_init_ok by exact H2.
  simpl. unfold ret.
  eexists; eexists; split; [reflexivity|].
  split; [reflexivity|].
  eexists; eexists; split; [reflexivity|]. split; reflexivity.
Qed.
(** C3 (amended): the constructor of a residual block checks no shape.
    Whenever the weights of a layer with the given arguments can be
    allocated, construction succeeds and leaves two layers with exactly
    these arguments, whether or not the input and output capsule shapes
    agree. *)
Theorem ResCapsBlock_init_no_shape_check
    (in_dim in_caps num_classes out_dim num_routing : Z)
    (sk : bool) (dev : device) (w : world) :
  (forall w0, exists W w1,
      init_param [num_classes; in_caps; out_dim; in_dim] w0 = (Ok W, w1)) ->
  exists blk w',
    ResCapsBlock_init in_dim in_caps num_classes out_dim num_routing sk dev w
    = (Ok blk, w') /\
    block_built in_dim in_caps num_classes out_dim num_routing sk blk.
Proof. apply ResCapsBlock_init_ok. Qed.

End BlockInit.

Lemma spec_runtime_alloc dims g :
  forallb (fun d => (0 <=? d)%Z) dims = true ->
  exists W, SpecRuntime.draw dims g
            = (Ok W, (g + N.of_nat (numel (map Z.to_nat dims)))%N)
            /\ shape W = map Z.to_nat dims.
Proof.
  intros H. unfold SpecRuntime.draw.
  assert (E : existsb (fun d => (d <? 0)%Z) dims = false).
  { induction dims as [|d dims IH]; simpl in *; [reflexivity|].
    apply andb_true_iff in H as [Hd H].
    rewrite (IH H). apply Z.leb_le in Hd.
    destruct (d <? 0)%Z eqn:E; [apply Z.ltb_lt in E; lia|reflexivity]. }
  rewrite E. eexists; split; reflexivity.
Qed.

Lemma spec_runtime_alloc_4352 :
  forall w0, exists W w1,
    init_param (Runtime := SpecRuntime.runtime SpecRuntime.eps0)
               [4; 3; 5; 2]%Z w0 = (Ok W, w1).
Proof.
  intros w0.
  destruct (@spec_runtime_alloc [4; 3; 5; 2]%Z w0 eq_refl) as [W [HW _]].
  exists W; eexists; exact HW.
Qed.

Lemma ResCapsBlock_init_no_shape_check_witness :
  let rt := SpecRuntime.runtime SpecRuntime.eps0 in
  (forall w0, exists W w1,
      init_param (Runtime := rt) [4; 3; 5; 2]%Z w0 = (Ok W, w1)) /\
  exists blk w',
    ResCapsBlock_init (rt := rt) 2 3 4 5 1 false cpu 0%N = (Ok blk, w') /\
    block_built 2 3 4 5 1 false blk.
Proof.
  cbv zeta.
  split; [exact spec_runtime_alloc_4352|].
  exact (@ResCapsBlock_init_no_shape_check
           (SpecRuntime.runtime SpecRuntime.eps0) 2 3 4 5 1 false cpu 0%N
           spec_runtime_alloc_4352).
Defined.

(** C3 (as stated) fails: a block taking 3 capsules of 2 components to 4
    capsules of 5 components is constructed without any error. *)
Lemma ResCapsBlock_init_accepts_mismatch :
  let rt := SpecRuntime.runtime SpecRuntime.eps0 in
  (3 <> 4)%Z /\ (2 <> 5)%Z /\
  is_ok (fst (ResCapsBlock_init (rt := rt) 2 3 4 5 1 false cpu 0%N)) = true.
Proof.
  cbv zeta. split; [lia|]. split; [lia|].
  destruct (@ResCapsBlock_init_ok
              (SpecRuntime.runtime SpecRuntime.eps0) 2 3 4 5 1 false cpu 0%N
              spec_runtime_alloc_4352) as [blk [w' [H _]]].
  rewrite H. reflexivity.
Qed.

(** The mismatch is met only when the block runs. *)
Lemma mismatched_block_fails_in_forward (sk : bool) (f1 f2 : RoutingCapsules)
    (x : t3) (w : N) :
  rc_config f1 = (2, 3, 4, 5, 1)%Z -> rc_config f2 = (2, 3, 4, 5, 1)%Z ->
  shaped3 1 3 2 x ->
  ResCapsBlock_forward (rt := SpecRuntime.runtime SpecRuntime.eps0)
    {| skip := sk; functions := [f1; f2] |} x w = (Raise ShapeError, w).
Proof.
  intros H1 H2 Hx. unfold rc_config in H1, H2.
  injection H1 as A1 A2 A3 A4 A5. injection H2 as B1 B2 B3 B4 B5.
  destruct (@capsules_forward_shape SpecRuntime.eps0 f1 x 1 eps0_pos) as [y [Hy Hs]].
  { lia. } { rewrite A1, A2. exact Hx. }
  rewrite A3, A4 in Hs.
  unfold ResCapsBlock_forward. simpl. unfold bind, lift. rewrite Hy.
  destruct Hx as [Lx Fx]. destruct Hs as [Ly Fy].
  destruct x as [|m0 [|? ?]]; try discriminate.
  destruct y as [|m [|? ?]]; try discriminate.
  inversion Fx as [|? ? [L0 _] _]; subst. inversion Fy as [|? ? [L1 _] _]; subst.
  simpl in L1.
  destruct m0 as [|a0 [|a1 [|a2 [|? ?]]]]; try discriminate.
  destruct m as [|b0 [|b1 [|b2 [|b3 [|? ?]]]]]; try discriminate.
  destruct sk.
  - unfold tadd3, bcast; simpl. reflexivity.
  - unfold ret. unfold Capsules.forward.
    rewrite B1, B2. simpl. reflexivity.
Qed.

(** ** The loss recorded by [run] *)


Lemma batch_loop_spec conflicts bs :
  forall j st,
    (0 <= total st)%Z ->
    Forall (fun b => (0 < bo_size b)%Z) bs ->
    bs <> [] ->
    (1 <= j + length bs - 1)%nat ->
    exists st',
      batch_loop conflicts j bs st = Ok st' /\
      var_i st' = Some (j + length bs - 1)%nat /\
      running_loss st' = loss_sum bs (running_loss st) /\
      history st' = history st /\
      best_test_acc st' = best_test_acc st /\
      best_epoch st' = best_epoch st /\
      epochs_no_improve st' = epochs_no_improve st /\
      exists a, var_accuracy st' = Some a.
Proof.
  induction bs as [|b bs IH]; intros j st Ht Hpos Hne Hlast; [congruence|].
  inversion Hpos as [|? ? Hb Hrest]; subst.
  simpl. unfold batch_step.
  destruct (total st + bo_size b =? 0)%Z eqn:E; [apply Z.eqb_eq in E; lia|].
  simpl.
  destruct bs as [|b' bs'].
  - simpl in *. 
    assert (Hj : (j =? 0)%nat = false) by (apply Nat.eqb_neq; lia).
    rewrite Hj. simpl.
    eexists; split; [reflexivity|]. simpl.
    repeat split; try reflexivity.
    + f_equal; lia.
    + eexists; reflexivity.
  - match goal with
    | |- context [batch_loop conflicts (S j) (b' :: bs') ?s] =>
        destruct (IH (S j) s) as [st' [H1 [H2 [H3 [H4 [H5 [H6 [H7 H8]]]]]]]]
    end.
    + simpl. lia.
    + exact Hrest.
    + congruence.
    + simpl. lia.
    + exists st'. split; [exact H1|].
      simpl in *. repeat split; try assumption.
      rewrite H2. f_equal. lia.
Qed.

Lemma loss_history_append ph l a h :
  loss_history ph (append_history ph l a h) = loss_history ph h ++ [l].
Proof. destruct ph; reflexivity. Qed.

(** C2: in both phases, with at least two (non-empty) batches, the value
    appended to the loss history is the accumulated running loss divided
    by [i + i], where [i] is the index of the last batch; from three
    batches on this differs from the division by [i + 1], the number of
    batches, whenever the running loss is not zero. *)
Theorem recorded_loss_divides_by_i_plus_i
    (conflicts : bool) (epoch : nat) (ph : phase)
    (bs : list batch_outcome) (st : RunState) :
  (2 <= length bs)%nat ->
  Forall (fun b => (0 < bo_size b)%Z) bs ->
  let i := (length bs - 1)%nat in
  let total_loss := loss_sum bs 0 in
  exists stopped st',
    run_phase conflicts epoch ph bs st = Ok (stopped, st') /\
    var_i st' = Some i /\
    running_loss st' = total_loss /\
    loss_history ph (history st')
    = loss_history ph (history st) ++ [total_loss / INR (i + i)] /\
    ((3 <= length bs)%nat -> total_loss <> 0 ->
     total_loss / INR (i + i) <> total_loss / INR (i + 1)).
Proof.
  intros Hlen Hpos i total_loss.
  destruct (@batch_loop_spec conflicts bs 0%nat (phase_start st))
    as [st1 [H1 [H2 [H3 [H4 [H5 [H6 [H7 [a H8]]]]]]]]].
  { simpl; lia. } { exact Hpos. } { destruct bs; simpl in *; [lia|congruence]. }
  { simpl; lia. }
  simpl in H2, H3, H4.
  unfold run_phase. rewrite H1. simpl.
  unfold phase_end, recorded_loss. rewrite H2, H8. simpl.
  fold i. fold i in H2.
  assert (Hi : (1 <= i)%nat) by (unfold i; lia).
  destruct (i + i =? 0)%nat eqn:E; [apply Nat.eqb_eq in E; lia|].
  simpl.
  assert (Hneq : (3 <= length bs)%nat -> total_loss <> 0 ->
                 total_loss / INR (i + i) <> total_loss / INR (i + 1)).
  { intros H3' Hne Heq.
    assert (Hii : 0 < INR (i + i)) by (apply lt_0_INR; lia).
    assert (Hi1 : 0 < INR (i + 1)) by (apply lt_0_INR; lia).
    assert (Hlt : INR (i + 1) < INR (i + i)) by (apply lt_INR; unfold i; lia).
    apply (f_equal (fun x => x * INR (i + i) * INR (i + 1))) in Heq.
    field_simplify in Heq; try lra.
    assert (total_loss * (INR (i + i) - INR (i + 1)) = 0) by lra.
    apply Rmult_integral in H. destruct H; lra. }
  destruct ph.
  - eexists; eexists; split; [reflexivity|]. simpl.
    rewrite H4, H3. fold total_loss.
    repeat split; try assumption; reflexivity.
  - destruct (Rltb (best_test_acc st1) a).
    + eexists; eexists; split; [reflexivity|]. simpl.
      rewrite H4, H3. fold total_loss.
      repeat split; try assumption; reflexivity.
    + eexists; eexists; split; [reflexivity|]. simpl.
      rewrite H4, H3. fold total_loss.
      repeat split; try assumption; reflexivity.
Qed.

Lemma recorded_loss_divides_by_i_plus_i_witness :
  (2 <= length sample_batches)%nat /\
  Forall (fun b => (0 < bo_size b)%Z) sample_batches /\
  exists stopped st',
    run_phase true 1 train sample_batches initial_state = Ok (stopped, st') /\
    var_i st' = Some 2%nat /\
    running_loss st' = loss_sum sample_batches 0 /\
    loss_history train (history st')
    = loss_history train (history initial_state)
      ++ [loss_sum sample_batches 0 / INR (2 + 2)] /\
    ((3 <= length sample_batches)%nat -> loss_sum sample_batches 0 <> 0 ->
     loss_sum sample_batches 0 / INR (2 + 2)
     <> loss_sum sample_batches 0 / INR (2 + 1)).
Proof.
  assert (H1 : (2 <= length sample_batches)%nat) by (simpl; lia).
  assert (H2 : Forall (fun b => (0 < bo_size b)%Z) sample_batches).
  { repeat constructor. }
  split; [exact H1|]. split; [exact H2|].
  exact (@recorded_loss_divides_by_i_plus_i true 1%nat train sample_batches
           initial_state H1 H2).
Defined.

(** With a single batch the divisor is zero, unless conflict measurement
    has rebound [i] to the index of the last layer. *)
Lemma single_batch_divides_by_zero (epoch : nat) (ph : phase)
    (b : batch_outcome) (st : RunState) :
  (0 < bo_size b)%Z ->
  run_phase false epoch ph [b] st = Raise ZeroDivisionError.
Proof.
  intros Hb. unfold run_phase. simpl. unfold batch_step. simpl.
  destruct (bo_size b =? 0)%Z eqn:E; [apply Z.eqb_eq in E; lia|].
  simpl. reflexivity.
Qed.

Lemma single_batch_conflicts_rebinds_i :
  exists st',
    run_phase true 1 train
      [ {| bo_loss := 3; bo_correct := 1; bo_size := 2; bo_layers := 2 |} ]
      initial_state = Ok (false, st') /\
    var_i st' = Some 1%nat /\
    train_loss (history st') = [(0 + 3) / INR (1 + 1)].
Proof.
  eexists. unfold run_phase. simpl. unfold phase_end, recorded_loss. simpl.
  split; [reflexivity|]. simpl. split; reflexivity.
Qed.

(** ** Construction of the network and of the trainer *)

Lemma bind_inv {world A B} (m : M world A) (k : A -> M world B) w r w' :
  bind m k w = (Ok r, w') ->
  exists a w1, m w = (Ok a, w1) /\ k a w1 = (Ok r, w').
Proof.
  unfold bind. destruct (m w) as [[a|e] w1]; intros H; [|discriminate].
  exists a, w1; split; [reflexivity|exact H].
Qed.

Lemma lift_inv {world A} (r : result A) (w : world) a w' :
  lift r w = (Ok a, w') -> r = Ok a /\ w' = w.
Proof. unfold lift; intros H; injection H as H1 H2; split; congruence. Qed.

Lemma ret_inv {world A} (x : A) (w : world) a w' :
  ret x w = (Ok a, w') -> a = x /\ w' = w.
Proof. unfold ret; intros H; injection H as H1 H2; split; congruence. Qed.

Tactic Notation "step_bind" hyp(H) "as" ident(a) ident(w) ident(E) :=
  apply bind_inv in H; destruct H as [a [w [E H]]].

Section InitLemmas.
Context {rt : Runtime}.

Lemma replicateM_Forall {A} (P : A -> Prop) (m : M world A) :
  (forall w a w', m w = (Ok a, w') -> P a) ->
  forall n w l w', replicateM n m w = (Ok l, w') ->
                   Forall P l /\ length l = n.
Proof.
  intros HP. induction n as [|n IH]; intros w l w' H; simpl in H.
  - apply ret_inv in H as [-> _]. split; [constructor|reflexivity].
  - step_bind H as x w1 E. step_bind H as xs w2 E0.
    apply ret_inv in H as [-> _].
    destruct (IH _ _ _ E0) as [HF HL].
    split; [constructor; [eapply HP; exact E|exact HF]|simpl; congruence].
Qed.

Lemma RoutingCapsules_init_config in_dim in_caps out_caps out_dim nr dev w l w' :
  RoutingCapsules_init in_dim in_caps out_caps out_dim nr dev w = (Ok l, w') ->
  rc_config l = (in_dim, in_caps, out_caps, out_dim, nr).
Proof.
  intros H. unfold RoutingCapsules_init in H. step_bind H as W w1 E.
  apply ret_inv in H as [-> _]. reflexivity.
Qed.

Lemma Conv2d_init_config cin cout k s w l w' :
  Conv2d_init cin cout k s w = (Ok l, w') -> conv_config l = (cin, cout, k, s).
Proof.
  intros H. unfold Conv2d_init in H. step_bind H as W w1 E.
  step_bind H as b w2 E0.
  apply ret_inv in H as [-> _]. reflexivity.
Qed.

Lemma Linear_init_config fin fout w l w' :
  Linear_init fin fout w = (Ok l, w') -> linear_config l = (fin, fout).
Proof.
  intros H. unfold Linear_init in H. step_bind H as W w1 E.
  step_bind H as b w2 E0.
  apply ret_inv in H as [-> _]. reflexivity.
Qed.

Lemma ResCapsBlock_init_built in_dim in_caps nc out_dim nr sk dev w b w' :
  ResCapsBlock_init in_dim in_caps nc out_dim nr sk dev w = (Ok b, w') ->
  block_built in_dim in_caps nc out_dim nr sk b.
Proof.
  intros H. unfold ResCapsBlock_init in H. step_bind H as fs0 w0 E.
  apply ret_inv in H as [-> _]. simpl in E.
  step_bind E as f1 w1 E1. step_bind E as fs w2 E2.
  apply ret_inv in E as [-> _].
  step_bind E2 as f2 w3 E3. step_bind E2 as nil w4 E4.
  apply ret_inv in E4 as [-> _]. apply ret_inv in E2 as [-> _].
  split; [reflexivity|]. exists f1, f2. split; [reflexivity|].
  split; eapply RoutingCapsules_init_config; eassumption.
Qed.

Lemma CapsuleNetwork_init_constructed args img channels primary_dim nc out_dim
    dev k w net w' :
  CapsuleNetwork_init args img channels primary_dim nc out_dim dev k w
  = (Ok net, w') ->
  constructed args img channels primary_dim nc out_dim k net.
Proof.
  intros H. unfold CapsuleNetwork_init in H.
  step_bind H as c0 w0 Ec0. apply lift_inv in Ec0 as [Hc0 ->].
  step_bind H as cv w1 Ecv. step_bind H as pr w2 Epr.
  step_bind H as pc w3 Epc. apply lift_inv in Epc as [Hpc ->].
  step_bind H as c1 w4 Ec1. step_bind H as bl w5 Ebl.
  step_bind H as c2 w6 Ec2. step_bind H as l1 w7 El1.
  step_bind H as l2 w8 El2. step_bind H as l3 w9 El3.
  apply ret_inv in H as [-> _].
  exists c0, pc, l1, l2, l3. simpl.
  destruct (replicateM_Forall
              (block_built primary_dim 32 32 primary_dim
                 (args_num_routing args) (args_residual args))
              (ResCapsBlock_init (rt := rt) primary_dim 32 32 primary_dim
                 (args_num_routing args) (args_residual args) dev)
              (fun w0 b w1 Hb => ResCapsBlock_init_built _ _ _ _ _ _ _ _ Hb)
              _ _ Ebl) as [HF HL].
  repeat split; try assumption; try reflexivity.
  - eapply Conv2d_init_config; eassumption.
  - eapply RoutingCapsules_init_config; eassumption.
  - eapply RoutingCapsules_init_config; eassumption.
  - eapply Linear_init_config; eassumption.
  - eapply Linear_init_config; eassumption.
  - eapply Linear_init_config; eassumption.
Qed.

End InitLemmas.

Lemma succeeds_bind {world A B} (m : M world A) (k : A -> M world B) :
  succeeds m -> (forall a, succeeds (k a)) -> succeeds (bind m k).
Proof.
  intros Hm Hk w. destruct (Hm w) as [a [w1 E]].
  destruct (Hk a w1) as [b [w2 E2]].
  exists b, w2. unfold bind. rewrite E. exact E2.
Qed.

Lemma succeeds_ret {world A} (a : A) : succeeds (ret (world := world) a).
Proof. intros w; exists a, w; reflexivity. Qed.

Lemma succeeds_lift {world A} (r : result A) a :
  r = Ok a -> succeeds (lift (world := world) r).
Proof. intros -> w; exists a, w; reflexivity. Qed.

Lemma succeeds_bind_lift {world A B} (r : result A) (k : A -> M world B) a :
  r = Ok a -> succeeds (k a) -> succeeds (bind (lift r) k).
Proof.
  intros -> Hk w. destruct (Hk w) as [b [w' E]]. exists b, w'. exact E.
Qed.

Lemma succeeds_replicateM {world A} (m : M world A) n :
  succeeds m -> succeeds (replicateM n m).
Proof.
  intros Hm. induction n as [|n IH]; simpl.
  - apply succeeds_ret.
  - apply succeeds_bind; [exact Hm|intros a].
    apply succeeds_bind; [exact IH|intros l]. apply succeeds_ret.
Qed.

Ltac nonneg_dims :=
  simpl; repeat (apply andb_true_iff; split); try reflexivity;
  apply Z.leb_le; lia.

Section InitSucceeds.
Context {rt : Runtime}.
Hypothesis Halloc : allocates.

Lemma RoutingCapsules_init_succeeds in_dim in_caps out_caps out_dim nr dev :
  (0 <= in_dim)%Z -> (0 <= in_caps)%Z -> (0 <= out_caps)%Z -> (0 <= out_dim)%Z ->
  succeeds (RoutingCapsules_init in_dim in_caps out_caps out_dim nr dev).
Proof.
  intros. unfold RoutingCapsules_init.
  apply succeeds_bind; [apply Halloc; nonneg_dims|intros; apply succeeds_ret].
Qed.

Lemma Conv2d_init_succeeds cin cout k s :
  (0 <= cin)%Z -> (0 <= cout)%Z -> (0 <= k)%Z ->
  succeeds (Conv2d_init cin cout k s).
Proof.
  intros. unfold Conv2d_init.
  apply succeeds_bind; [apply Halloc; nonneg_dims|intros].
  apply succeeds_bind; [apply Halloc; nonneg_dims|intros; apply succeeds_ret].
Qed.

Lemma Linear_init_succeeds fin fout :
  (0 <= fin)%Z -> (0 <= fout)%Z -> succeeds (Linear_init fin fout).
Proof.
  intros. unfold Linear_init.
  apply succeeds_bind; [apply Halloc; nonneg_dims|intros].
  apply succeeds_bind; [apply Halloc; nonneg_dims|intros; apply succeeds_ret].
Qed.

Lemma ResCapsBlock_init_succeeds in_dim in_caps nc out_dim nr sk dev :
  (0 <= in_dim)%Z -> (0 <= in_caps)%Z -> (0 <= nc)%Z -> (0 <= out_dim)%Z ->
  succeeds (ResCapsBlock_init in_dim in_caps nc out_dim nr sk dev).
Proof.
  intros. unfold ResCapsBlock_init.
  apply succeeds_bind; [|intros; apply succeeds_ret].
  apply succeeds_replicateM. apply RoutingCapsules_init_succeeds; assumption.
Qed.

Lemma CapsuleNetwork_init_succeeds args img channels primary_dim nc out_dim
    dev k c0 pc :
  succeeds (PrimaryCapsules_init channels channels primary_dim k) ->
  index img 0 = Ok c0 ->
  primary_caps_of img channels primary_dim k = Ok pc ->
  (0 <= channels)%Z -> (0 <= k)%Z -> (0 <= primary_dim)%Z -> (0 <= pc)%Z ->
  (0 <= nc)%Z -> (0 <= out_dim)%Z ->
  succeeds (CapsuleNetwork_init args img channels primary_dim nc out_dim dev k).
Proof.
  intros Hp Hc0 Hpc; intros. unfold CapsuleNetwork_init.
  eapply succeeds_bind_lift; [exact Hc0|].
  apply succeeds_bind; [apply Conv2d_init_succeeds; lia|intros].
  apply succeeds_bind; [exact Hp|intros].
  eapply succeeds_bind_lift; [exact Hpc|].
  apply succeeds_bind; [apply RoutingCapsules_init_succeeds; lia|intros].
  apply succeeds_bind;
    [apply succeeds_replicateM, ResCapsBlock_init_succeeds; lia|intros].
  apply succeeds_bind; [apply RoutingCapsules_init_succeeds; lia|intros].
  apply succeeds_bind; [apply Linear_init_succeeds; lia|intros].
  apply succeeds_bind; [apply Linear_init_succeeds; lia|intros].
  apply succeeds_bind; [apply Linear_init_succeeds; lia|intros].
  apply succeeds_ret.
Qed.

End InitSucceeds.

Lemma spec_runtime_allocates eps : allocates (rt := SpecRuntime.runtime eps).
Proof.
  intros dims Hd w. destruct (spec_runtime_alloc dims w Hd) as [W [HW _]].
  exists W; eexists; exact HW.
Qed.

Lemma spec_runtime_primary_init eps cin cout dim k :
  (0 <= cin)%Z -> (0 <= cout)%Z -> (0 <= k)%Z ->
  succeeds (PrimaryCapsules_init (Runtime := SpecRuntime.runtime eps) cin cout dim k).
Proof.
  intros. simpl. unfold SpecRuntime.primary_init.
  apply succeeds_bind;
    [apply (@spec_runtime_allocates eps); nonneg_dims|intros].
  apply succeeds_bind;
    [apply (@spec_runtime_allocates eps); nonneg_dims|intros].
  apply succeeds_ret.
Qed.

Section NumCaps.
Context {rt : Runtime}.

(** C9: two namespaces that differ at most in [num_caps] construct the
    same network, and in every constructed network the capsule count
    between the first routing layer, the blocks and the second routing
    layer is the constant 32. *)
Theorem num_caps_is_ignored (a1 a2 : Namespace) (img_shape : list nat)
    (channels primary_dim num_classes out_dim : Z) (dev : device)
    (kernel_size : Z) (w : world) :
  set_num_caps 0 a1 = set_num_caps 0 a2 ->
  CapsuleNetwork_init a1 img_shape channels primary_dim num_classes out_dim
                      dev kernel_size w
  = CapsuleNetwork_init a2 img_shape channels primary_dim num_classes out_dim
                        dev kernel_size w
  /\
  forall net w',
    CapsuleNetwork_init a1 img_shape channels primary_dim num_classes out_dim
                        dev kernel_size w = (Ok net, w') ->
    rc_out_caps (caps1 net) = 32%Z /\
    Forall (fun b =>
              Forall (fun f => rc_in_caps f = 32%Z /\ rc_out_caps f = 32%Z)
                     (functions b))
           (blocks net) /\
    rc_in_caps (caps2 net) = 32%Z.
Proof.
  intros Heq. split.
  - assert (H1 : args_num_routing a1 = args_num_routing a2)
      by (apply (f_equal (fun a : Namespace => args_num_routing a)) in Heq; exact Heq).
    assert (H2 : args_num_res_blocks a1 = args_num_res_blocks a2)
      by (apply (f_equal (fun a : Namespace => args_num_res_blocks a)) in Heq; exact Heq).
    assert (H3 : args_residual a1 = args_residual a2)
      by (apply (f_equal (fun a : Namespace => args_residual a)) in Heq; exact Heq).
    unfold CapsuleNetwork_init. rewrite H1, H2, H3. reflexivity.
  - intros net w' H. apply CapsuleNetwork_init_constructed in H.
    destruct H as [c0 [pc [l1 [l2 [l3 H]]]]].
    destruct H as [_ [_ [_ [_ [_ [Hc1 [_ [Hb [Hc2 _]]]]]]]]].
    unfold rc_config in Hc1, Hc2.
    injection Hc1 as _ _ Hc1 _ _. injection Hc2 as _ Hc2 _ _ _.
    split; [exact Hc1|]. split; [|exact Hc2].
    eapply Forall_impl; [|exact Hb].
    intros b [_ [f1 [f2 [Hf [Hf1 Hf2]]]]]. rewrite Hf.
    unfold rc_config in Hf1, Hf2.
    injection Hf1 as _ A1 A2 _ _. injection Hf2 as _ B1 B2 _ _.
    repeat constructor; assumption.
Qed.

End NumCaps.

Lemma mnist_init_succeeds (a : Namespace) :
  succeeds (CapsuleNetwork_init (rt := SpecRuntime.runtime SpecRuntime.eps0)
              a mnist_shape 256 8 10 16 cpu 9).
Proof.
  eapply (@CapsuleNetwork_init_succeeds (SpecRuntime.runtime SpecRuntime.eps0)
            (@spec_runtime_allocates SpecRuntime.eps0)).
  - apply spec_runtime_primary_init; lia.
  - reflexivity.
  - reflexivity.
  - lia.
  - lia.
  - lia.
  - vm_compute; congruence.
  - lia.
  - lia.
Qed.

Lemma num_caps_is_ignored_witness :
  let rt := SpecRuntime.runtime SpecRuntime.eps0 in
  let a1 := mnist_namespace in
  let a2 := set_num_caps 64 mnist_namespace in
  set_num_caps 0 a1 = set_num_caps 0 a2 /\
  CapsuleNetwork_init (rt := rt) a1 mnist_shape 256 8 10 16 cpu 9 0%N
  = CapsuleNetwork_init a2 mnist_shape 256 8 10 16 cpu 9 0%N /\
  exists net w',
    CapsuleNetwork_init (rt := rt) a1 mnist_shape 256 8 10 16 cpu 9 0%N
    = (Ok net, w') /\
    rc_out_caps (caps1 net) = 32%Z /\
    Forall (fun b =>
              Forall (fun f => rc_in_caps f = 32%Z /\ rc_out_caps f = 32%Z)
                     (functions b))
           (blocks net) /\
    rc_in_caps (caps2 net) = 32%Z.
Proof.
  cbv zeta.
  assert (He : set_num_caps 0 mnist_namespace
               = set_num_caps 0 (set_num_caps 64 mnist_namespace))
    by reflexivity.
  destruct (@num_caps_is_ignored (SpecRuntime.runtime SpecRuntime.eps0)
              mnist_namespace (set_num_caps 64 mnist_namespace)
              mnist_shape 256 8 10 16 cpu 9 0%N He) as [H1 H2].
  split; [exact He|]. split; [exact H1|].
  destruct (mnist_init_succeeds mnist_namespace 0%N) as [net [w' Hn]].
  exists net, w'. split; [exact Hn|]. exact (H2 net w' Hn).
Defined.

Lemma main_namespace_modelname dc a ns :
  main_namespace dc a = Ok ns ->
  args_modelname ns = assign_modelname a.
Proof.
  unfold main_namespace. destruct (num_classes_of (args_dataset a)); simpl;
    intros H; [|discriminate].
  destruct (dataset_dir (args_dataset a)); simpl in H; [|discriminate].
  injection H as <-. reflexivity.
Qed.

(** C10: with [--momentum] and without [--residual] no branch assigns
    [args.modelname], and constructing the trainer raises the
    missing-attribute error at once, with nothing built and the
    interpreter state untouched; every other combination of the two flags
    assigns a name. *)
Theorem modelname_missing_for_momentum_without_residual
    (a : ParsedArgs) (device_count : Z) (ns : Namespace) :
  args_momentum a = true ->
  args_residual a = false ->
  main_namespace device_count a = Ok ns ->
  (assign_modelname a = None /\
   forall (rt : Runtime) (Loaders : Type)
          (first_image_shape : Loaders -> M world (list nat))
          (loaders : Loaders) (dev : device) (w : world),
     CapsNetTrainer_init first_image_shape loaders ns dev w
     = (Raise (AttributeError "modelname"), w)) /\
  (forall a' : ParsedArgs,
     (args_momentum a' = true /\ args_residual a' = false) \/
     exists name, assign_modelname a' = Some name).
Proof.
  intros Hm Hr Hns. split; [split|].
  - unfold assign_modelname. rewrite Hm, Hr. reflexivity.
  - intros rt Loaders fis loaders dev w.
    unfold CapsNetTrainer_init.
    rewrite (main_namespace_modelname _ _ Hns).
    unfold assign_modelname. rewrite Hm, Hr. reflexivity.
  - intros a'. unfold assign_modelname.
    destruct (args_residual a'), (args_momentum a'); simpl;
      try (right; eexists; reflexivity).
    left; split; reflexivity.
Qed.

Lemma modelname_missing_for_momentum_without_residual_witness :
  exists ns,
    args_momentum momentum_only_args = true /\
    args_residual momentum_only_args = false /\
    main_namespace 1 momentum_only_args = Ok ns /\
    (assign_modelname momentum_only_args = None /\
     forall (rt : Runtime) (Loaders : Type)
            (first_image_shape : Loaders -> M world (list nat))
            (loaders : Loaders) (dev : device) (w : world),
       CapsNetTrainer_init first_image_shape loaders ns dev w
       = (Raise (AttributeError "modelname"), w)) /\
    (forall a' : ParsedArgs,
       (args_momentum a' = true /\ args_residual a' = false) \/
       exists name, assign_modelname a' = Some name).
Proof.
  assert (H : exists ns, main_namespace 1 momentum_only_args = Ok ns)
    by (eexists; reflexivity).
  destruct H as [ns H]. exists ns.
  split; [reflexivity|]. split; [reflexivity|].
  split; [exact H|].
  exact (@modelname_missing_for_momentum_without_residual
           momentum_only_args 1 ns eq_refl eq_refl H).
Defined.

Example modelname_values :
  assign_modelname SpecRuntime.default_args = Some "CapsNet_1"%string.
Proof. reflexivity. Qed.

Section Criterion.
Context {rt : Runtime}.
Variable Loaders : Type.
Variable first_image_shape : Loaders -> M world (list nat).

Lemma CapsNetTrainer_init_criterion loaders args dev w tr w' :
  CapsNetTrainer_init first_image_shape loaders args dev w = (Ok tr, w') ->
  tr_criterion tr = {| loss_lambda := 5 / 10; recon_loss_scale := 5 / 10000 |}.
Proof.
  intros H. unfold CapsNetTrainer_init in H.
  step_bind H as mn w0 E0. step_bind H as sh w1 E1.
  step_bind H as nc w2 E2. step_bind H as net w3 E3.
  apply ret_inv in H as [-> _]. reflexivity.
Qed.

(** C8: every trainer is constructed with the criterion
    [CapsuleLoss(loss_lambda=0.5, recon_loss_scale=5e-4)], whose total loss
    is the margin loss with [lambda = 0.5] plus [5e-4] times the
    reconstruction error. *)
Theorem trainer_loss_is_margin_plus_scaled_reconstruction
    (loaders : Loaders) (args : Namespace) (dev : device) (w : world)
    (tr : CapsNetTrainer Loaders) (w' : world) :
  CapsNetTrainer_init first_image_shape loaders args dev w = (Ok tr, w') ->
  tr_criterion tr = {| loss_lambda := 5 / 10; recon_loss_scale := 5 / 10000 |}
  /\
  forall (scores targets : t2) (images reconstructions : tensor),
    Loss.forward (tr_criterion tr) scores targets images reconstructions
    = match Loss.margin_loss (5 / 10) scores targets,
            Loss.reconstruction_MSE images reconstructions with
      | Some margin, Some mse => Some (margin + 5 / 10000 * mse)
      | _, _ => None
      end.
Proof.
  intros H. pose proof (CapsNetTrainer_init_criterion _ _ _ _ H) as Hc.
  split; [exact Hc|].
  intros scores targets images reconstructions.
  rewrite Hc. unfold Loss.forward. simpl.
  destruct (Loss.margin_loss (5 / 10) scores targets); [|reflexivity].
  destruct (Loss.reconstruction_MSE images reconstructions); reflexivity.
Qed.

End Criterion.

Lemma succeeds_bind_ret {world A B} (a : A) (k : A -> M world B) :
  succeeds (k a) -> succeeds (bind (ret a) k).
Proof. intros Hk w. exact (Hk w). Qed.

Lemma mnist_trainer_init_succeeds :
  succeeds (CapsNetTrainer_init (rt := SpecRuntime.runtime SpecRuntime.eps0)
              (fun _ : unit => ret mnist_shape) tt mnist_namespace cpu).
Proof.
  unfold CapsNetTrainer_init.
  eapply succeeds_bind_lift; [reflexivity|].
  apply succeeds_bind_ret.
  eapply succeeds_bind_lift; [reflexivity|].
  apply succeeds_bind; [apply mnist_init_succeeds|intros net].
  apply succeeds_ret.
Qed.

Lemma trainer_loss_is_margin_plus_scaled_reconstruction_witness :
  let rt := SpecRuntime.runtime SpecRuntime.eps0 in
  exists tr w',
    CapsNetTrainer_init (rt := rt) (fun _ : unit => ret mnist_shape) tt
                        mnist_namespace cpu 0%N = (Ok tr, w') /\
    tr_criterion tr
    = {| loss_lambda := 5 / 10; recon_loss_scale := 5 / 10000 |} /\
    forall (scores targets : t2) (images reconstructions : tensor),
      Loss.forward (tr_criterion tr) scores targets images reconstructions
      = match Loss.margin_loss (5 / 10) scores targets,
              Loss.reconstruction_MSE images reconstructions with
        | Some margin, Some mse => Some (margin + 5 / 10000 * mse)
        | _, _ => None
        end.
Proof.
  cbv zeta.
  destruct (mnist_trainer_init_succeeds 0%N) as [tr [w' H]].
  exists tr, w'. split; [exact H|].
  exact (@trainer_loss_is_margin_plus_scaled_reconstruction
           (SpecRuntime.runtime SpecRuntime.eps0) unit
           (fun _ : unit => ret mnist_shape) tt mnist_namespace cpu 0%N
           tr w' H).
Defined.

(** ** The reconstruction mask *)

Lemma argmax_from_spec (l : t1) :
  forall (pre : t1) (bi : nat),
    (bi < length pre)%nat ->
    (forall k, (k < length pre)%nat -> nth k pre 0 <= nth bi pre 0) ->
    (forall k, (k < bi)%nat -> nth k pre 0 < nth bi pre 0) ->
    is_first_max (pre ++ l) (argmax_from bi (nth bi pre 0) (length pre) l).
Proof.
  induction l as [|x l IH]; intros pre bi Hbi Hmax Hfirst; simpl.
  - rewrite app_nil_r. split; [exact Hbi|]. split; assumption.
  - replace (pre ++ x :: l) with ((pre ++ [x]) ++ l)
      by (rewrite <- app_assoc; reflexivity).
    assert (Hlen : length (pre ++ [x]) = S (length pre))
      by (rewrite length_app; simpl; lia).
    assert (Hx : nth (length pre) (pre ++ [x]) 0 = x)
      by (rewrite app_nth2, Nat.sub_diag by lia; reflexivity).
    assert (Hb : nth bi (pre ++ [x]) 0 = nth bi pre 0)
      by (rewrite app_nth1 by lia; reflexivity).
    unfold Rltb. destruct (Rlt_dec (nth bi pre 0) x) as [Hlt|Hge].
    + specialize (IH (pre ++ [x]) (length pre)).
      rewrite Hlen, Hx in IH. apply IH.
      * lia.
      * intros k Hk.
        destruct (Nat.eq_dec k (length pre)) as [->|Hne].
        -- rewrite Hx. lra.
        -- rewrite app_nth1 by lia. specialize (Hmax k ltac:(lia)). lra.
      * intros k Hk.
        rewrite app_nth1 by lia. specialize (Hmax k ltac:(lia)). lra.
    + specialize (IH (pre ++ [x]) bi).
      rewrite Hlen, Hb in IH. apply IH.
      * lia.
      * intros k Hk.
        destruct (Nat.eq_dec k (length pre)) as [->|Hne].
        -- rewrite Hx. lra.
        -- rewrite app_nth1 by lia. apply Hmax; lia.
      * intros k Hk. rewrite app_nth1 by lia. apply Hfirst; exact Hk.
Qed.

Lemma argmax_is_first_max (row : t1) : row <> [] -> is_first_max row (argmax row).
Proof.
  destruct row as [|x l]; [congruence|intros _]. simpl.
  apply (argmax_from_spec l [x] (bi := 0)); simpl.
  - lia.
  - intros k Hk. assert (k = 0)%nat by lia. subst. lra.
  - intros k Hk. lia.
Qed.

Lemma zipWithM_pure {A B C} (f : A -> B -> result C) (h : A * B -> C) :
  forall (a : list A) (b : list B),
    length a = length b ->
    (forall x y, In (x, y) (combine a b) -> f x y = Ok (h (x, y))) ->
    zipWithM f a b = Ok (map h (combine a b)).
Proof.
  induction a as [|x a IH]; intros [|y b] Hl Hf; simpl in *; try discriminate.
  - reflexivity.
  - rewrite (Hf x y (or_introl eq_refl)). simpl.
    rewrite IH; [reflexivity|lia|].
    intros x' y' Hin. apply Hf. right. exact Hin.
Qed.

Lemma bcast_same {A B C} (f : A -> B -> result C) a b :
  length a = length b -> bcast f a b = zipWithM f a b.
Proof. intros H. unfold bcast. rewrite H, Nat.eqb_refl. reflexivity. Qed.

Lemma bcast_scalar {A B C} (f : A -> B -> result C) a y :
  bcast f a [y] = mapM (fun x => f x y) a.
Proof.
  unfold bcast. destruct a as [|x [|x' a]]; simpl; reflexivity.
Qed.

Lemma nth_map_combine {A B C} (h : A * B -> C) (a : list A) (b : list B)
    k da db dc :
  length a = length b -> (k < length a)%nat ->
  nth k (map h (combine a b)) dc = h (nth k a da, nth k b db).
Proof.
  intros Hl Hk.
  rewrite (nth_indep _ dc (h (da, db)))
    by (rewrite length_map, length_combine; lia).
  rewrite map_nth. rewrite combine_nth by exact Hl. reflexivity.
Qed.

Lemma tmul3_unsqueeze (out : t3) (Y : t2) :
  length out = length Y ->
  (forall b, (b < length out)%nat ->
             length (nth b out []) = length (nth b Y [])) ->
  tmul3 out (unsqueeze2 Y)
  = Ok (map scale_example (combine out (unsqueeze2 Y))).
Proof.
  intros HB HK. unfold tmul3.
  assert (HL : length out = length (unsqueeze2 Y))
    by (unfold unsqueeze2; rewrite length_map; exact HB).
  rewrite bcast_same by exact HL.
  apply zipWithM_pure; [exact HL|].
  intros ex yb Hin.
  destruct (In_nth _ _ ([], []) Hin) as [b [Hb Hnth]].
  rewrite length_combine, <- HL, Nat.min_id in Hb.
  rewrite combine_nth in Hnth by exact HL.
  injection Hnth as Hex Hyb.
  unfold unsqueeze2 in Hyb.
  rewrite (nth_indep _ [] (map (fun v => [v]) [])) in Hyb
    by (rewrite length_map; lia).
  rewrite map_nth in Hyb.
  assert (HLb : length ex = length yb).
  { rewrite <- Hex, <- Hyb, length_map. apply HK; exact Hb. }
  rewrite bcast_same by exact HLb.
  unfold scale_example. simpl.
  apply zipWithM_pure; [exact HLb|].
  intros cap dv Hin2.
  apply in_combine_r in Hin2. rewrite <- Hyb in Hin2.
  apply in_map_iff in Hin2. destruct Hin2 as [v [<- _]].
  rewrite bcast_scalar. unfold scale_capsule. simpl.
  apply mapM_pure. intros; reflexivity.
Qed.

Lemma nth_map' {A B} (f : A -> B) (l : list A) k d d' :
  (k < length l)%nat -> nth k (map f l) d = f (nth k l d').
Proof.
  intros Hk. transitivity (nth k (map f l) (f d')).
  - apply nth_indep. rewrite length_map. exact Hk.
  - apply map_nth.
Qed.

Lemma length_one_hot n i : length (one_hot n i) = n.
Proof. unfold one_hot. rewrite length_map, length_seq. reflexivity. Qed.

Lemma nth_one_hot n i k :
  (k < n)%nat -> nth k (one_hot n i) 0 = if (i =? k)%nat then 1 else 0.
Proof.
  intros Hk. unfold one_hot.
  set (f := fun j => if (i =? j)%nat then 1 else 0).
  transitivity (nth k (map f (seq 0 n)) (f 0%nat)).
  - apply nth_indep. rewrite length_map, length_seq. exact Hk.
  - rewrite map_nth, seq_nth by exact Hk. reflexivity.
Qed.

Lemma nth_error_eye n i : (i < n)%nat -> nth_error (eye n) i = Some (one_hot n i).
Proof.
  intros Hi. unfold eye.
  rewrite (nth_error_nth' _ (one_hot n 0)) by (rewrite length_map, length_seq; exact Hi).
  rewrite map_nth, seq_nth by exact Hi. reflexivity.
Qed.

Lemma shaped3_nth B K D (out : t3) b :
  shaped3 B K D out -> (b < B)%nat -> shaped2 K D (nth b out []).
Proof.
  intros [HB HF] Hb. rewrite Forall_forall in HF. apply HF.
  apply nth_In. lia.
Qed.

Lemma map_mul_one (v : t1) : map (fun x => x * 1) v = v.
Proof.
  induction v as [|x v IH]; simpl; [reflexivity|]. rewrite IH. f_equal. ring.
Qed.

Lemma map_mul_zero (v : t1) : map (fun x => x * 0) v = zeros (length v).
Proof.
  unfold zeros. induction v as [|x v IH]; simpl; [reflexivity|].
  rewrite IH. f_equal. ring.
Qed.

Lemma decoder_input_spec (num_classes : Z) (out : t3) (B D : nat) :
  (1 <= num_classes)%Z -> (1 <= B)%nat ->
  shaped3 B (Z.to_nat num_classes) D out ->
  let preds := map (map norm) out in
  let idx := map argmax preds in
  exists y masked,
    max_dim1 preds = Ok idx /\
    reconstruction_mask num_classes preds = Ok y /\
    tmul3 out y = Ok masked /\
    decoder_input num_classes out = Ok (map (@concat R) masked) /\
    shaped3 B (Z.to_nat num_classes) D masked /\
    forall b, (b < B)%nat ->
      let i := nth b idx 0%nat in
      is_first_max (nth b preds []) i /\
      forall k, (k < Z.to_nat num_classes)%nat ->
        nth k (nth b y []) [] = [if (k =? i)%nat then 1 else 0] /\
        nth k (nth b masked []) []
        = if (k =? i)%nat then nth k (nth b out []) [] else zeros D.
Proof.
  intros Hnc HB Hout preds idx.
  set (K := Z.to_nat num_classes) in *.
  assert (HK : (1 <= K)%nat) by (unfold K; lia).
  pose proof Hout as [HlenB HF].
  assert (Hrow : forall b, (b < B)%nat -> length (nth b preds []) = K).
  { intros b Hb. unfold preds.
    change (@nil R) with (map norm []). rewrite map_nth, length_map.
    apply (shaped3_nth Hout Hb). }
  assert (Hfm : forall b, (b < B)%nat ->
                          is_first_max (nth b preds []) (nth b idx 0%nat)).
  { intros b Hb. unfold idx.
    change 0%nat with (argmax []). rewrite map_nth.
    apply argmax_is_first_max. intros E.
    specialize (Hrow b Hb). rewrite E in Hrow. simpl in Hrow. lia. }
  assert (Hlp : length preds = B) by (unfold preds; rewrite length_map; exact HlenB).
  assert (Hli : length idx = B) by (unfold idx; rewrite length_map; exact Hlp).
  assert (Hmax : max_dim1 preds = Ok idx).
  { unfold max_dim1, idx. apply mapM_pure. intros row Hin.
    destruct (In_nth _ _ [] Hin) as [b [Hb <-]].
    rewrite Hlp in Hb. specialize (Hrow b Hb).
    destruct (nth b preds []); [simpl in Hrow; lia|reflexivity]. }
  set (Y := map (one_hot K) idx).
  assert (Hsel : index_select0 (eye K) idx = Ok Y).
  { unfold index_select0, Y. apply mapM_pure. intros i Hin.
    destruct (In_nth _ _ 0%nat Hin) as [b [Hb <-]].
    rewrite Hli in Hb. destruct (Hfm b Hb) as [Hi _].
    rewrite (Hrow b Hb) in Hi.
    rewrite nth_error_eye by exact Hi. reflexivity. }
  assert (HY : forall b, (b < B)%nat -> nth b Y [] = one_hot K (nth b idx 0%nat)).
  { intros b Hb. unfold Y.
    rewrite (nth_indep _ [] (one_hot K 0)) by (rewrite length_map; lia).
    apply map_nth. }
  assert (Hmask : reconstruction_mask num_classes preds = Ok (unsqueeze2 Y)).
  { unfold reconstruction_mask. rewrite Hmax. simpl.
    destruct (num_classes <? 0)%Z eqn:E; [apply Z.ltb_lt in E; lia|].
    fold K. rewrite Hsel. reflexivity. }
  assert (Hmul : tmul3 out (unsqueeze2 Y)
                 = Ok (map scale_example (combine out (unsqueeze2 Y)))).
  { apply tmul3_unsqueeze.
    - unfold Y. rewrite length_map. lia.
    - intros b Hb. rewrite HlenB in Hb. rewrite (HY b Hb), length_one_hot.
      apply (shaped3_nth Hout Hb). }
  exists (unsqueeze2 Y), (map scale_example (combine out (unsqueeze2 Y))).
  split; [exact Hmax|]. split; [exact Hmask|]. split; [exact Hmul|].
  assert (HlU : length out = length (unsqueeze2 Y))
    by (unfold unsqueeze2, Y; rewrite !length_map; lia).
  split; [|split].
  - unfold decoder_input. fold preds. rewrite Hmask. simpl. rewrite Hmul. simpl.
    unfold view_rows.
    destruct (map scale_example (combine out (unsqueeze2 Y))) eqn:E;
      [|reflexivity].
    apply (f_equal (@length _)) in E.
    rewrite length_map, length_combine, <- HlU, Nat.min_id in E.
    simpl in E. lia.
  - split; [rewrite length_map, length_combine, <- HlU, Nat.min_id; exact HlenB|].
    rewrite Forall_forall. intros m Hm.
    apply in_map_iff in Hm. destruct Hm as [[ex yb] [<- Hin]].
    destruct (In_nth _ _ ([], []) Hin) as [b [Hb Hnth]].
    rewrite length_combine, <- HlU, Nat.min_id, HlenB in Hb.
    rewrite combine_nth in Hnth by exact HlU.
    injection Hnth as Hex Hyb.
    destruct (shaped3_nth Hout Hb) as [HlK HFD]. rewrite Hex in HlK, HFD.
    assert (Hlyb : length yb = K).
    { rewrite <- Hyb. unfold unsqueeze2.
      rewrite (nth_map' (map (fun v : R => [v])) Y [] [])
        by (unfold Y; rewrite length_map; lia).
      rewrite length_map, (HY b Hb), length_one_hot. reflexivity. }
    unfold scale_example. simpl. split.
    + rewrite length_map, length_combine, HlK, Hlyb, Nat.min_id. reflexivity.
    + rewrite Forall_forall. intros c Hc.
      apply in_map_iff in Hc. destruct Hc as [[cap dv] [<- Hin2]].
      unfold scale_capsule. simpl. rewrite length_map.
      apply in_combine_l in Hin2.
      rewrite Forall_forall in HFD. apply HFD. exact Hin2.
  - intros b Hb i. split; [apply Hfm; exact Hb|].
    intros k Hk.
    assert (HyU : nth b (unsqueeze2 Y) [] = map (fun v => [v]) (one_hot K i)).
    { unfold unsqueeze2.
      change (@nil (list R)) with (map (fun v : R => [v]) []).
      rewrite map_nth, (HY b Hb). reflexivity. }
    assert (Hyk : nth k (nth b (unsqueeze2 Y) []) []
                  = [if (k =? i)%nat then 1 else 0]).
    { rewrite HyU.
      rewrite (nth_map' (fun v : R => [v]) _ [] 0)
        by (rewrite length_one_hot; exact Hk).
      rewrite nth_one_hot by exact Hk.
      rewrite Nat.eqb_sym. reflexivity. }
    split; [exact Hyk|].
    rewrite (nth_map_combine scale_example out (unsqueeze2 Y) [] [] [] HlU)
      by lia.
    unfold scale_example. simpl.
    destruct (shaped3_nth Hout Hb) as [HlK HFD].
    rewrite (nth_map_combine scale_capsule _ _ [] [] []).
    + unfold scale_capsule. simpl. rewrite Hyk. simpl.
      destruct (k =? i)%nat.
      * apply map_mul_one.
      * rewrite map_mul_zero. f_equal.
        rewrite Forall_forall in HFD. apply HFD. apply nth_In. lia.
    + rewrite HyU, length_map, length_one_hot. exact HlK.
    + lia.
Qed.

Example argmax_tie : argmax [2; 7; 7; 1] = 1%nat.
Proof.
  unfold argmax, argmax_from, Rltb.
  destruct (Rlt_dec 2 7) as [_|H]; [|exfalso; apply H; lra].
  destruct (Rlt_dec 7 7) as [H|_]; [exfalso; lra|].
  destruct (Rlt_dec 7 1) as [H|_]; [exfalso; lra|].
  reflexivity.
Qed.

(** ** The forward pass *)

Lemma zipWithM_shape {A B C} (f : A -> B -> result C) (P : C -> Prop) :
  forall (a : list A) (b : list B),
    length a = length b ->
    (forall x y, In (x, y) (combine a b) -> exists z, f x y = Ok z /\ P z) ->
    exists c, zipWithM f a b = Ok c /\ length c = length a /\ Forall P c.
Proof.
  induction a as [|x a IH]; intros [|y b] Hl Hf; simpl in *; try discriminate.
  - exists []. repeat split; constructor.
  - destruct (Hf x y (or_introl eq_refl)) as [z [Hz HP]].
    destruct (IH b) as [c [Hc [Hlc HFc]]]; [lia| |].
    { intros x' y' Hin. apply Hf. right. exact Hin. }
    exists (z :: c). rewrite Hz, Hc. simpl.
    repeat split; [lia|constructor; assumption].
Qed.

Lemma tadd3_shape (B K D : nat) (x y : t3) :
  shaped3 B K D x -> shaped3 B K D y ->
  exists z, tadd3 x y = Ok z /\ shaped3 B K D z.
Proof.
  intros [HxB HxF] [HyB HyF]. unfold tadd3.
  rewrite bcast_same by lia.
  destruct (zipWithM_shape
              (bcast (bcast (fun a b : R => Ok (a + b)))) (shaped2 K D) x y)
    as [z [Hz [Hlz HFz]]]; [lia| |].
  - intros ex ey Hin.
    rewrite Forall_forall in HxF, HyF.
    destruct (HxF ex (in_combine_l _ _ _ _ Hin)) as [HexK HexF].
    destruct (HyF ey (in_combine_r _ _ _ _ Hin)) as [HeyK HeyF].
    rewrite bcast_same by lia.
    destruct (zipWithM_shape
                (bcast (fun a b : R => Ok (a + b)))
                (fun c : t1 => length c = D) ex ey)
      as [m [Hm [Hlm HFm]]]; [lia| |].
    + intros cx cy Hin2.
      rewrite Forall_forall in HexF, HeyF.
      pose proof (HexF cx (in_combine_l _ _ _ _ Hin2)) as Hcx.
      pose proof (HeyF cy (in_combine_r _ _ _ _ Hin2)) as Hcy.
      rewrite bcast_same by lia.
      rewrite (zipWithM_pure (fun a b : R => Ok (a + b))
                 (fun p => fst p + snd p)) by (try lia; intros; reflexivity).
      eexists; split; [reflexivity|].
      rewrite length_map, length_combine. lia.
    + exists m. split; [exact Hm|]. split; [lia|exact HFm].
  - exists z. split; [exact Hz|]. split; [lia|exact HFz].
Qed.

Section ForwardShapes.
Context {rt : Runtime}.
Hypothesis Hrouting : routing_shape_contract.

Lemma ResCapsBlock_loop_shape (sk : bool) (caps dim nr : Z) (B : nat) :
  (1 <= nr)%Z ->
  forall (fs : list RoutingCapsules) (x : t3) (w : world),
    Forall (fun f => rc_config f = (dim, caps, caps, dim, nr)) fs ->
    shaped3 B (Z.to_nat caps) (Z.to_nat dim) x ->
    exists y w',
      ResCapsBlock_loop sk fs x w = (Ok y, w') /\
      shaped3 B (Z.to_nat caps) (Z.to_nat dim) y.
Proof.
  intros Hnr. induction fs as [|f fs IH]; intros x w HF Hx; simpl.
  - exists x, w. split; [reflexivity|exact Hx].
  - inversion HF as [|? ? Hf HF']; subst.
    unfold rc_config in Hf. injection Hf as E1 E2 E3 E4 E5.
    destruct (@Hrouting f x B w) as [y [w1 [Hy Hs]]].
    { rewrite E5; exact Hnr. } { rewrite E1, E2; exact Hx. }
    rewrite E3, E4 in Hs.
    unfold bind at 1. rewrite Hy.
    destruct sk.
    + destruct (tadd3_shape Hx Hs) as [z [Hz Hzs]].
      unfold bind at 1, lift at 1. rewrite Hz.
      apply IH; assumption.
    + unfold bind at 1, ret at 1. apply IH; assumption.
Qed.

Lemma ResCapsBlock_forward_shape (sk : bool) (caps dim nr : Z) (B : nat)
    (b : ResCapsBlock) (x : t3) (w : world) :
  (1 <= nr)%Z ->
  block_built dim caps caps dim nr sk b ->
  shaped3 B (Z.to_nat caps) (Z.to_nat dim) x ->
  exists y w',
    ResCapsBlock_forward b x w = (Ok y, w') /\
    shaped3 B (Z.to_nat caps) (Z.to_nat dim) y.
Proof.
  intros Hnr [_ [f1 [f2 [Hf [H1 H2]]]]] Hx.
  unfold ResCapsBlock_forward. rewrite Hf.
  apply (@ResCapsBlock_loop_shape (skip b) caps dim nr B Hnr); [|exact Hx].
  repeat constructor; assumption.
Qed.

Lemma run_blocks_spec (sk : bool) (caps dim nr : Z) (B : nat) :
  (1 <= nr)%Z ->
  forall (bs : list ResCapsBlock) (x : t3) (acc : list t3) (w : world),
    Forall (block_built dim caps caps dim nr sk) bs ->
    shaped3 B (Z.to_nat caps) (Z.to_nat dim) x ->
    exists out ls w',
      run_blocks bs x acc w = (Ok (out, acc ++ ls), w') /\
      block_outputs bs x w ls w' /\
      length ls = length bs /\
      Forall (shaped3 B (Z.to_nat caps) (Z.to_nat dim)) ls /\
      shaped3 B (Z.to_nat caps) (Z.to_nat dim) out.
Proof.
  intros Hnr. induction bs as [|b bs IH]; intros x acc w HF Hx; simpl.
  - exists x, [], w. rewrite app_nil_r.
    repeat split; try constructor; try apply Hx.
  - inversion HF as [|? ? Hb HF']; subst.
    destruct (@ResCapsBlock_forward_shape sk caps dim nr B b x w Hnr Hb Hx)
      as [y [w1 [Hy Hs]]].
    destruct (IH y (acc ++ [y]) w1 HF' Hs) as [out [ls [w' [H1 [H2 [H3 [H4 H5]]]]]]].
    exists out, (y :: ls), w'.
    unfold bind. rewrite Hy, H1. rewrite <- app_assoc. simpl.
    repeat split; try assumption.
    + econstructor; eassumption.
    + simpl; lia.
    + constructor; assumption.
    + apply H5.
    + apply H5.
Qed.

End ForwardShapes.

Lemma Conv2d_forward_shape_strided (l : Conv2d) (x : tensor)
    (B C H W : nat) (cout k s : Z) :
  conv_config l = (Z.of_nat C, cout, k, s) ->
  shape x = [B; C; H; W] ->
  (1 <= k)%Z -> (1 <= s)%Z ->
  (Z.to_nat k <= H)%nat -> (Z.to_nat k <= W)%nat ->
  exists fm,
    Conv2d_forward l x = Ok fm /\
    shape fm = [B; Z.to_nat cout;
                ((H - Z.to_nat k) / Z.to_nat s + 1)%nat;
                ((W - Z.to_nat k) / Z.to_nat s + 1)%nat].
Proof.
  intros Hc Hx Hk Hs HH HW. unfold conv_config in Hc.
  injection Hc as E1 E2 E3 E4.
  unfold Conv2d_forward. rewrite Hx, E1, E2, E3, E4, Nat2Z.id, Nat.eqb_refl.
  simpl negb. cbv iota.
  assert (Hs0 : (Z.to_nat s =? 0)%nat = false) by (apply Nat.eqb_neq; lia).
  assert (Hk0 : (Z.to_nat k =? 0)%nat = false) by (apply Nat.eqb_neq; lia).
  rewrite Hs0, Hk0. simpl orb. cbv iota.
  assert (HHk : (H <? Z.to_nat k)%nat = false) by (apply Nat.ltb_ge; lia).
  assert (HWk : (W <? Z.to_nat k)%nat = false) by (apply Nat.ltb_ge; lia).
  rewrite HHk, HWk. simpl orb. cbv iota.
  eexists; split; reflexivity.
Qed.

Lemma Conv2d_forward_shape (l : Conv2d) (x : tensor) (B C H W : nat) (cout k : Z) :
  conv_config l = (Z.of_nat C, cout, k, 1%Z) ->
  shape x = [B; C; H; W] ->
  (1 <= k)%Z -> (Z.to_nat k <= H)%nat -> (Z.to_nat k <= W)%nat ->
  exists fm,
    Conv2d_forward l x = Ok fm /\
    shape fm = [B; Z.to_nat cout; (H - Z.to_nat k + 1)%nat;
                (W - Z.to_nat k + 1)%nat].
Proof.
  intros Hc Hx Hk HH HW.
  destruct (@Conv2d_forward_shape_strided l x B C H W cout k 1 Hc Hx Hk
              ltac:(lia) HH HW) as [fm [H1 H2]].
  exists fm. split; [exact H1|].
  change (Z.to_nat 1) with 1%nat in H2. rewrite !Nat.div_1_r in H2. exact H2.
Qed.

Lemma Linear_forward_shape (l : Linear) (x : t2) (B : nat) (fin fout : Z) :
  linear_config l = (fin, fout) ->
  shaped2 B (Z.to_nat fin) x ->
  exists y, Linear_forward l x = Ok y /\ shaped2 B (Z.to_nat fout) y.
Proof.
  intros Hc [HB HF]. unfold linear_config in Hc. injection Hc as E1 E2.
  unfold Linear_forward. rewrite E1, E2.
  eexists. split.
  - apply mapM_pure. intros row Hin.
    rewrite Forall_forall in HF. rewrite (HF row Hin), Nat.eqb_refl.
    reflexivity.
  - split; [rewrite length_map; exact HB|].
    rewrite Forall_forall. intros r Hr.
    apply in_map_iff in Hr. destruct Hr as [row [<- _]].
    rewrite length_map, length_seq. reflexivity.
Qed.

Lemma map_map_shape (f : R -> R) (B n : nat) (x : t2) :
  shaped2 B n x -> shaped2 B n (map (map f) x).
Proof.
  intros [HB HF]. split; [rewrite length_map; exact HB|].
  rewrite Forall_forall in *. intros r Hr.
  apply in_map_iff in Hr. destruct Hr as [row [<- Hin]].
  rewrite length_map. apply HF; exact Hin.
Qed.

Lemma decoder_shape (l1 l2 l3 : Linear) (x : t2) (B : nat) (fin fout : Z) :
  linear_config l1 = (fin, 512%Z) ->
  linear_config l2 = (512%Z, 1024%Z) ->
  linear_config l3 = (1024%Z, fout) ->
  shaped2 B (Z.to_nat fin) x ->
  exists y,
    Sequential_forward
      [LLinear l1; LReLU; LLinear l2; LReLU; LLinear l3; LSigmoid] x = Ok y /\
    shaped2 B (Z.to_nat fout) y.
Proof.
  intros H1 H2 H3 Hx. simpl.
  destruct (Linear_forward_shape H1 Hx) as [y1 [E1 S1]]. rewrite E1. simpl.
  pose proof (map_map_shape relu S1) as S1'.
  destruct (Linear_forward_shape H2 S1') as [y2 [E2 S2]]. rewrite E2. simpl.
  pose proof (map_map_shape relu S2) as S2'.
  destruct (Linear_forward_shape H3 S2') as [y3 [E3 S3]]. rewrite E3. simpl.
  eexists; split; [reflexivity|]. apply map_map_shape; exact S3.
Qed.

Lemma length_concat_shaped (n d : nat) (m : t2) :
  shaped2 n d m -> length (concat m) = (n * d)%nat.
Proof.
  intros [Hn HF]. subst n. induction m as [|r m IH]; simpl; [reflexivity|].
  inversion HF; subst. rewrite length_app, IH by assumption. reflexivity.
Qed.

Lemma view_rows_shape (B K D : nat) (x : t3) :
  (1 <= B)%nat -> shaped3 B K D x ->
  view_rows x = Ok (map (@concat R) x) /\
  shaped2 B (K * D) (map (@concat R) x).
Proof.
  intros HB [Hl HF]. split.
  - destruct x; [simpl in Hl; lia|reflexivity].
  - split; [rewrite length_map; exact Hl|].
    rewrite Forall_forall in *. intros r Hr.
    apply in_map_iff in Hr. destruct Hr as [m [<- Hin]].
    apply length_concat_shaped. apply HF; exact Hin.
Qed.

Lemma view_infer_shape (B : nat) (img : list nat) (rows : t2) :
  (numel img <> 0)%nat -> shaped2 B (numel img) rows ->
  exists t, view_infer rows img = Ok t /\ shape t = B :: img.
Proof.
  intros Hp Hs. unfold view_infer.
  rewrite (length_concat_shaped Hs).
  destruct (numel img =? 0)%nat eqn:E; [apply Nat.eqb_eq in E; contradiction|].
  rewrite Nat.Div0.mod_mul, Nat.eqb_refl. simpl.
  eexists; split; [reflexivity|]. simpl.
  rewrite Nat.div_mul by exact Hp. reflexivity.
Qed.

Lemma norm_rows_shape (B K D : nat) (out : t3) :
  shaped3 B K D out -> shaped2 B K (map (map norm) out).
Proof.
  intros [HB HF]. split; [rewrite length_map; exact HB|].
  rewrite Forall_forall in *. intros r Hr.
  apply in_map_iff in Hr. destruct Hr as [m [<- Hin]].
  rewrite length_map. apply (HF m Hin).
Qed.

Section ForwardSpec.
Context {rt : Runtime}.

Lemma forward_spec
    (args : Namespace) (C H W : nat)
    (channels primary_dim num_classes out_dim kernel_size : Z)
    (net : CapsuleNetwork) (B : nat) (x : tensor) (w : world) :
  routing_shape_contract ->
  primary_shape_contract net B ->
  constructed args [C; H; W] channels primary_dim num_classes out_dim
              kernel_size net ->
  (1 <= args_num_routing args)%Z ->
  (1 <= num_classes)%Z -> (0 <= out_dim)%Z ->
  (1 <= kernel_size)%Z ->
  (Z.to_nat kernel_size <= H)%nat -> (Z.to_nat kernel_size <= W)%nat ->
  (1 <= C)%nat -> (1 <= B)%nat ->
  shape x = [B; C; H; W] ->
  exists out layers preds reconstructions w',
    forward_capsules net x w = (Ok (out, layers), w') /\
    CapsuleNetwork_forward net x w
    = (Ok (preds, reconstructions, layers), w') /\
    preds = map (map norm) out /\
    shaped3 B (Z.to_nat num_classes) (Z.to_nat out_dim) out /\
    shaped2 B (Z.to_nat num_classes) preds /\
    shape reconstructions = [B; C; H; W] /\
    length layers = length (blocks net) /\
    Forall (shaped3 B 32 (Z.to_nat primary_dim)) layers /\
    exists out1 w1 w2, block_outputs (blocks net) out1 w1 layers w2.
Proof.
  intros Hrouting Hprimary Hnet Hnr Hnc Hod Hk HH HW HC HB Hx.
  destruct Hnet as [c0 [pc [l1 [l2 [l3 Hnet]]]]].
  destruct Hnet as [Hc0 [Hpc [Himg [Hncl [Hconv [Hcaps1 [Hlen [Hblocks
                   [Hcaps2 [Hdec [Hl1 [Hl2 Hl3]]]]]]]]]]]].
  unfold index in Hc0. simpl in Hc0. injection Hc0 as <-.
  (* conv1 and relu *)
  destruct (@Conv2d_forward_shape (conv1 net) x B C H W channels kernel_size
              Hconv Hx Hk HH HW)
    as [fm [Hfm Hfms]].
  assert (Hfm' : shape (ReLU_forward fm) = conv1_output_shape net B).
  { unfold conv1_output_shape. rewrite Himg. simpl.
    unfold conv_config in Hconv. injection Hconv as _ E2 E3 _.
    rewrite E2, E3. exact Hfms. }
  (* primary capsules and the first routing layer *)
  destruct (Hprimary (ReLU_forward fm) w Hfm') as [y0 [w0 [Hy0 Hs0]]].
  unfold rc_config in Hcaps1, Hcaps2.
  injection Hcaps1 as A1 A2 A3 A4 A5.
  injection Hcaps2 as B1 B2 B3 B4 B5.
  destruct (@Hrouting (caps1 net) y0 B w0) as [out1 [w1 [Hout1 Hs1]]].
  { rewrite A5; exact Hnr. } { exact Hs0. }
  rewrite A3, A4 in Hs1.
  (* the blocks *)
  destruct (@run_blocks_spec rt Hrouting (args_residual args) 32 primary_dim
              (args_num_routing args) B Hnr (blocks net) out1 [] w1
              Hblocks Hs1)
    as [out2 [layers [w2 [Hrun [Hbo [Hll [Hls Hs2]]]]]]].
  simpl in Hrun.
  (* the second routing layer *)
  destruct (@Hrouting (caps2 net) out2 B w2) as [out [w3 [Hout Hs3]]].
  { rewrite B5; exact Hnr. } { rewrite B1, B2; exact Hs2. }
  rewrite B3, B4 in Hs3.
  assert (Hcaps : forward_capsules net x w = (Ok (out, layers), w3)).
  { unfold forward_capsules.
    unfold bind at 1, lift at 1. rewrite Hfm.
    unfold bind at 1, ret at 1.
    unfold bind at 1. rewrite Hy0.
    unfold bind at 1. rewrite Hout1.
    unfold bind at 1. rewrite Hrun. simpl fst. simpl snd.
    unfold bind at 1. rewrite Hout. reflexivity. }
  (* the mask and the decoder *)
  destruct (decoder_input_spec Hnc HB Hs3)
    as [y [masked [_ [_ [_ [Hinp [Hms _]]]]]]].
  destruct (view_rows_shape HB Hms) as [_ Hrows].
  assert (Hfin : (Z.to_nat num_classes * Z.to_nat out_dim)%nat
                 = Z.to_nat (out_dim * num_classes)).
  { rewrite Z2Nat.inj_mul by lia. lia. }
  rewrite Hfin in Hrows.
  destruct (decoder_shape Hl1 Hl2 Hl3 Hrows) as [rec [Hrec Hrs]].
  rewrite Nat2Z.id in Hrs.
  assert (Hnum : numel [C; H; W] <> 0%nat).
  { simpl. rewrite Nat.mul_1_r.
    assert (1 <= H)%nat by lia. assert (1 <= W)%nat by lia. nia. }
  destruct (@view_infer_shape B [C; H; W] rec Hnum Hrs) as [t [Ht Hts]].
  exists out, layers, (map (map norm) out), t, w3.
  split; [exact Hcaps|]. split.
  { unfold CapsuleNetwork_forward.
    unfold bind at 1. rewrite Hcaps. simpl fst. simpl snd.
    rewrite Hncl, Hdec, Himg.
    unfold bind at 1, lift at 1. rewrite Hinp.
    unfold bind at 1, lift at 1. rewrite Hrec.
    unfold bind at 1, lift at 1. rewrite Ht. reflexivity. }
  split; [reflexivity|]. split; [exact Hs3|].
  split; [apply (norm_rows_shape Hs3)|].
  split; [exact Hts|]. split; [exact Hll|]. split; [exact Hls|].
  exists out1, w1, w2. exact Hbo.
Qed.

End ForwardSpec.

Lemma small_net_constructed :
  constructed mnist_namespace [1; 4; 4]%nat 2 2 2 2 1 small_net.
Proof.
  exists 1%nat, 4%Z, (small_linear 4 512), (small_linear 512 1024),
         (small_linear 1024 16).
  repeat split; try reflexivity.
  repeat constructor. exists (small_layer 2 32 32 2), (small_layer 2 32 32 2).
  repeat split; reflexivity.
Qed.

Lemma mapM_shape {A B} (f : A -> result B) (P : B -> Prop) (l : list A) :
  (forall x, In x l -> exists y, f x = Ok y /\ P y) ->
  exists l', mapM f l = Ok l' /\ length l' = length l /\ Forall P l'.
Proof.
  induction l as [|x l IH]; intros H; simpl.
  - exists []. repeat split; constructor.
  - destruct (H x (or_introl eq_refl)) as [y [Hy HP]]. rewrite Hy. simpl.
    destruct IH as [l' [Hl' [Hlen HF]]].
    { intros x' Hin. apply H. right. exact Hin. }
    rewrite Hl'. simpl. exists (y :: l').
    repeat split; [simpl; lia|constructor; assumption].
Qed.

Lemma spec_primary_forward_shape (eps : R) (p : SpecRuntime.StridedPrimary)
    (fm : tensor) (B C H W : nat) (cout k : Z) (w : N) :
  0 < eps ->
  conv_config (SpecRuntime.pc_conv p) = (Z.of_nat C, cout, k, 2%Z) ->
  shape fm = [B; C; H; W] ->
  (1 <= k)%Z -> (Z.to_nat k <= H)%nat -> (Z.to_nat k <= W)%nat ->
  let n := (Z.to_nat cout * ((H - Z.to_nat k) / 2 + 1)
            * ((W - Z.to_nat k) / 2 + 1))%nat in
  let d := Z.to_nat (SpecRuntime.pc_dim p) in
  d <> 0%nat -> (n mod d = 0)%nat ->
  exists y,
    SpecRuntime.primary_forward eps p fm w = (Ok y, w) /\
    shaped3 B (n / d) d y.
Proof.
  intros He Hc Hfm Hk HH HW n d Hd Hmod.
  destruct (@Conv2d_forward_shape_strided (SpecRuntime.pc_conv p) fm B C H W
              cout k 2 Hc Hfm Hk ltac:(lia) HH HW) as [fm2 [H1 H2]].
  change (Z.to_nat 2) with 2%nat in H2.
  unfold SpecRuntime.primary_forward, lift. rewrite H1. simpl rbind.
  unfold SpecRuntime.capsules_of. rewrite H2. fold d. fold n.
  assert (Hd0 : (d =? 0)%nat = false) by (apply Nat.eqb_neq; exact Hd).
  rewrite Hd0, Hmod, Nat.eqb_refl. simpl negb. cbv iota. simpl rbind.
  match goal with
  | |- context [mapM ?f ?u] =>
      destruct (@mapM_shape _ _ f (shaped2 (n / d) d) u) as [y [Hy [Hl HF]]]
  end.
  - intros ex Hex. apply in_map_iff in Hex. destruct Hex as [b [<- _]].
    match goal with
    | |- context [mapM ?f ?u] =>
        destruct (@mapM_shape _ _ f (fun c : t1 => length c = d) u)
          as [m [Hm [Hlm HFm]]]
    end.
    + intros s Hs. apply in_map_iff in Hs. destruct Hs as [c [<- _]].
      rewrite squash_total by exact He. simpl.
      eexists; split; [reflexivity|]. rewrite !length_map, length_seq.
      reflexivity.
    + exists m. split; [exact Hm|]. split; [|exact HFm].
      rewrite Hlm, length_map, length_seq. reflexivity.
  - exists y. rewrite Hy. split; [reflexivity|]. split; [|exact HF].
    rewrite Hl, length_map, length_seq. reflexivity.
Qed.

Lemma small_net_primary_contract : primary_shape_contract small_net 1.
Proof.
  intros fm w Hfm. unfold conv1_output_shape in Hfm. simpl in Hfm.
  destruct (@spec_primary_forward_shape SpecRuntime.eps0 (primary small_net)
              fm 1 2 4 4 2 1 w eps0_pos eq_refl Hfm)
    as [y [Hy Hs]]; simpl; try lia.
  exists y, w. split; [exact Hy|exact Hs].
Qed.

Section ForwardClaim.
Context {rt : Runtime}.


End ForwardClaim.


Section MaskInForward.
Context {rt : Runtime}.

Lemma forward_after_capsules (net : CapsuleNetwork) (x : tensor) (w : world)
    (out : t3) (layers : list t3) (w' : world) :
  forward_capsules net x w = (Ok (out, layers), w') ->
  CapsuleNetwork_forward net x w
  = ((inp <- decoder_input (net_num_classes net) out ;;
      rows <- Sequential_forward (decoder net) inp ;;
      reconstructions <- view_infer rows (net_img_shape net) ;;
      Ok (map (map norm) out, reconstructions, layers))%res, w').
Proof.
  intros H. unfold CapsuleNetwork_forward, bind, lift, ret. rewrite H.
  cbn [fst snd].
  destruct (decoder_input (net_num_classes net) out) as [inp|e];
    [|reflexivity].
  cbn [rbind].
  destruct (Sequential_forward (decoder net) inp) as [rows|e];
    [|reflexivity].
  cbn [rbind].
  destruct (view_infer rows (net_img_shape net)) as [r|e]; reflexivity.
Qed.

(** C4: in a forward pass whose capsule stack has produced the class
    capsules [out], one per class and example, the scores returned are
    the capsule lengths, the mask is the one-hot row at the lowest index
    of maximal length, the product [out * y] keeps that capsule and is
    zero elsewhere, and the reconstructions returned are the decoder's
    output on the flattening of that product and on nothing else. *)
Theorem reconstruction_mask_selects_first_longest
    (net : CapsuleNetwork) (x : tensor) (w : world)
    (out : t3) (layers : list t3) (w' : world) (B D : nat) :
  forward_capsules net x w = (Ok (out, layers), w') ->
  (1 <= net_num_classes net)%Z -> (1 <= B)%nat ->
  shaped3 B (Z.to_nat (net_num_classes net)) D out ->
  let preds := map (map norm) out in
  let idx := map argmax preds in
  exists y masked,
    max_dim1 preds = Ok idx /\
    reconstruction_mask (net_num_classes net) preds = Ok y /\
    tmul3 out y = Ok masked /\
    shaped3 B (Z.to_nat (net_num_classes net)) D masked /\
    (forall b, (b < B)%nat ->
       let i := nth b idx 0%nat in
       is_first_max (nth b preds []) i /\
       forall k, (k < Z.to_nat (net_num_classes net))%nat ->
         nth k (nth b y []) [] = [if (k =? i)%nat then 1 else 0] /\
         nth k (nth b masked []) []
         = if (k =? i)%nat then nth k (nth b out []) [] else zeros D) /\
    CapsuleNetwork_forward net x w
    = ((rows <- Sequential_forward (decoder net) (map (@concat R) masked) ;;
        reconstructions <- view_infer rows (net_img_shape net) ;;
        Ok (preds, reconstructions, layers))%res, w').
Proof.
  intros Hcaps Hnc HB Hs preds idx.
  destruct (decoder_input_spec Hnc HB Hs)
    as [y [masked [H1 [H2 [H3 [H4 [H5 H6]]]]]]].
  exists y, masked.
  repeat match goal with |- _ /\ _ => split end; try assumption.
  rewrite (forward_after_capsules _ _ _ Hcaps), H4. reflexivity.
Qed.

End MaskInForward.

Lemma small_net_capsules :
  exists out layers w',
    forward_capsules small_net small_image 0%N = (Ok (out, layers), w') /\
    shaped3 1 (Z.to_nat (net_num_classes small_net)) 2 out.
Proof.
  destruct (@forward_spec
              (SpecRuntime.runtime SpecRuntime.eps0) mnist_namespace 1 4 4
              2 2 2 2 1 small_net 1 small_image 0%N
              (spec_runtime_routing_contract eps0_pos)
              small_net_primary_contract small_net_constructed)
    as [out [layers [preds [rec [w' [H [_ [_ [Hs _]]]]]]]]];
    try reflexivity; try (simpl; lia).
  exists out, layers, w'. split; [exact H|exact Hs].
Qed.

Lemma reconstruction_mask_selects_first_longest_witness :
  exists out layers w',
    forward_capsules small_net small_image 0%N = (Ok (out, layers), w') /\
    (1 <= net_num_classes small_net)%Z /\ (1 <= 1)%nat /\
    shaped3 1 (Z.to_nat (net_num_classes small_net)) 2 out /\
    let preds := map (map norm) out in
    let idx := map argmax preds in
    exists y masked,
      max_dim1 preds = Ok idx /\
      reconstruction_mask (net_num_classes small_net) preds = Ok y /\
      tmul3 out y = Ok masked /\
      shaped3 1 (Z.to_nat (net_num_classes small_net)) 2 masked /\
      (forall b, (b < 1)%nat ->
         let i := nth b idx 0%nat in
         is_first_max (nth b preds []) i /\
         forall k, (k < Z.to_nat (net_num_classes small_net))%nat ->
           nth k (nth b y []) [] = [if (k =? i)%nat then 1 else 0] /\
           nth k (nth b masked []) []
           = if (k =? i)%nat then nth k (nth b out []) [] else zeros 2) /\
      CapsuleNetwork_forward small_net small_image 0%N
      = ((rows <- Sequential_forward (decoder small_net)
                    (map (@concat R) masked) ;;
          reconstructions <- view_infer rows (net_img_shape small_net) ;;
          Ok (preds, reconstructions, layers))%res, w').
Proof.
  destruct small_net_capsules as [out [layers [w' [H Hs]]]].
  assert (H1 : (1 <= net_num_classes small_net)%Z) by (simpl; lia).
  exists out, layers, w'.
  split; [exact H|]. split; [exact H1|]. split; [exact (le_n 1)|].
  split; [exact Hs|].
  exact (@reconstruction_mask_selects_first_longest
           (SpecRuntime.runtime SpecRuntime.eps0) small_net small_image 0%N
           out layers w' 1 2 H H1 (le_n 1) Hs).
Defined.

(** ** The definitions on concrete inputs *)

Example primary_caps_mnist :
  primary_caps_of mnist_shape 256 8 9 = Ok 1152%Z.
Proof. reflexivity. Qed.

Example primary_caps_zero_dim :
  primary_caps_of mnist_shape 256 0 9 = Raise ZeroDivisionError.
Proof. reflexivity. Qed.

Example modelname_residual_momentum :
  assign_modelname
    {| args_dataset := "MNIST"; args_batch_size := 128; args_epochs := 30;
       args_learning_rate := 1 / 1000; args_num_routing := 3;
       args_routing := "RBA"; args_lr_decay := 96 / 100;
       args_device := cpu; args_multi_gpu := false; args_gpu_device := None;
       args_data_path := "/content/data"; args_residual := true;
       args_conflicts := false; args_cb_batch_size := 32;
       args_momentum := true; args_gamma := 9 / 10;
       args_num_res_blocks := 12; args_num_caps := 32;
       args_optimizer := "adam" |}
  = Some "MoCapsNet_12"%string.
Proof. reflexivity. Qed.

Example num_classes_lower_case : num_classes_of "cifar100" = Ok 100%Z.
Proof. reflexivity. Qed.

Example num_classes_unknown : num_classes_of "imagenet" = Raise ValueError.
Proof. reflexivity. Qed.

Example momentum_paths_two :
  momentum_paths 2
  = ["blocks.0.functions"%string; "blocks.1.functions"%string].
Proof. reflexivity. Qed.

Example view_infer_two_images :
  exists t,
    view_infer [[1; 2; 3; 4]; [5; 6; 7; 8]] [1; 2; 2]%nat = Ok t /\
    shape t = [2; 1; 2; 2]%nat.
Proof. eexists; split; reflexivity. Qed.

Example broadcast_needs_matching_capsules :
  tadd3 [[[1; 2]; [3; 4]; [5; 6]]] [[[1; 2]; [3; 4]]] = Raise ShapeError.
Proof. reflexivity. Qed.

Example empty_batch_cannot_be_flattened : view_rows [] = Raise ShapeError.
Proof. reflexivity. Qed.

(** ** The per-class report *)

Lemma bump_spec (l : list Z) (k : nat) (v : Z) :
  (k < length l)%nat ->
  exists l',
    bump l k v = Ok l' /\ length l' = length l /\
    forall j, nth j l' 0%Z
              = if (j =? k)%nat then (nth j l 0 + v)%Z else nth j l 0%Z.
Proof.
  intros Hk. unfold bump.
  destruct (nth_error l k) as [x|] eqn:E;
    [|apply nth_error_None in E; lia].
  eexists. split; [reflexivity|].
  assert (Hf : length (firstn k l) = k) by (rewrite length_firstn; lia).
  split.
  - rewrite length_app, Hf. cbn [length]. rewrite length_skipn. lia.
  - intros j. destruct (Nat.eqb_spec j k) as [->|Hne].
    + rewrite app_nth2 by lia. rewrite Hf, Nat.sub_diag. cbn [nth].
      rewrite (nth_error_nth _ _ 0%Z E). reflexivity.
    + destruct (Nat.lt_ge_cases j k) as [Hlt|Hge].
      * rewrite app_nth1 by lia. rewrite nth_firstn.
        destruct (j <? k)%nat eqn:Ej; [reflexivity|].
        apply Nat.ltb_ge in Ej. lia.
      * rewrite app_nth2 by lia. rewrite Hf.
        destruct (j - k)%nat as [|m] eqn:Em; [lia|]. cbn [nth].
        rewrite nth_skipn. f_equal. lia.
Qed.

Lemma tally_examples_ok (n : nat) (b : report_batch) :
  forall acc,
    Forall (fun e => (fst e < n)%nat) b ->
    length (fst acc) = n -> length (snd acc) = n ->
    exists acc',
      tally_examples b acc = Ok acc' /\
      length (fst acc') = n /\ length (snd acc') = n /\
      (forall k, (nth k (snd acc) 0 <= nth k (snd acc') 0)%Z) /\
      (forall k, In k (map fst b) ->
                 (nth k (snd acc) 0 < nth k (snd acc') 0)%Z).
Proof.
  induction b as [|[label hit] b IH]; intros acc HF H1 H2; simpl.
  - exists acc. repeat match goal with |- _ /\ _ => split end;
      try assumption; try reflexivity; intros; try lia; try contradiction.
  - apply Forall_cons_iff in HF. destruct HF as [Hl HF']. simpl in Hl.
    destruct (@bump_spec (fst acc) label (if hit then 1 else 0)%Z
                ltac:(lia)) as [cc [Ec [Lc _]]].
    destruct (@bump_spec (snd acc) label 1%Z ltac:(lia))
      as [ct [Et [Lt Ht]]].
    rewrite Ec, Et. simpl.
    destruct (IH (cc, ct) HF' ltac:(simpl; lia) ltac:(simpl; lia))
      as [acc' [E [L1 [L2 [Hmono Hin]]]]].
    simpl in Hmono, Hin.
    exists acc'. split; [exact E|]. split; [exact L1|]. split; [exact L2|].
    assert (Hstep : forall k, (nth k (snd acc) 0 <= nth k ct 0)%Z).
    { intros k. rewrite Ht. destruct (k =? label)%nat; lia. }
    split.
    + intros k. specialize (Hmono k). specialize (Hstep k). lia.
    + intros k [Hk|Hk].
      * subst k. specialize (Hmono label). rewrite Ht, Nat.eqb_refl in Hmono.
        lia.
      * specialize (Hin k Hk). specialize (Hstep k). lia.
Qed.

Lemma tally_ok (n : nat) (bs : list report_batch) :
  forall acc,
    Forall (fun b => length b <> 1%nat /\
                     Forall (fun e => (fst e < n)%nat) b) bs ->
    length (fst acc) = n -> length (snd acc) = n ->
    exists acc',
      tally bs acc = Ok acc' /\
      length (fst acc') = n /\ length (snd acc') = n /\
      (forall k, (nth k (snd acc) 0 <= nth k (snd acc') 0)%Z) /\
      (forall k b, In b bs -> In k (map fst b) ->
                   (nth k (snd acc) 0 < nth k (snd acc') 0)%Z).
Proof.
  induction bs as [|b bs IH]; intros acc HF H1 H2; simpl.
  - exists acc. repeat match goal with |- _ /\ _ => split end;
      try assumption; try reflexivity; intros; try lia; try contradiction.
  - apply Forall_cons_iff in HF. destruct HF as [[Hlen Hb] HF'].
    unfold tally_batch.
    destruct (length b =? 1)%nat eqn:E1; [apply Nat.eqb_eq in E1; lia|].
    destruct (@tally_examples_ok n b acc Hb H1 H2)
      as [acc1 [E [L1 [L2 [Hmono1 Hin1]]]]].
    rewrite E. simpl.
    destruct (IH acc1 HF' L1 L2) as [acc' [E' [L1' [L2' [Hmono Hin]]]]].
    exists acc'. split; [exact E'|]. split; [exact L1'|]. split; [exact L2'|].
    split.
    + intros k. specialize (Hmono k). specialize (Hmono1 k). lia.
    + intros k b0 [Hb0|Hb0] Hk.
      * subst b0. specialize (Hin1 k Hk). specialize (Hmono k). lia.
      * specialize (Hin k b0 Hb0 Hk). specialize (Hmono1 k). lia.
Qed.

Lemma class_report_succeeds (n : nat) (report : list report_batch) :
  report_ok n report ->
  exists p, class_report n report = Ok p /\ length p = n.
Proof.
  intros [HF Hall]. unfold class_report.
  destruct (@tally_ok n report (repeat 0%Z n, repeat 0%Z n) HF)
    as [acc [E [_ [_ [_ Hin]]]]]; try (simpl; apply repeat_length).
  rewrite E. simpl.
  destruct (@mapM_shape _ _ (class_percentage acc) (fun _ => True)
              (seq 0 n)) as [p [Hp [Hl _]]].
  - intros k Hk. apply in_seq in Hk.
    destruct (Hall k ltac:(lia)) as [b [Hb Hkb]].
    specialize (Hin k b Hb Hkb). simpl in Hin.
    rewrite nth_repeat in Hin.
    unfold class_percentage.
    destruct (nth k (snd acc) 0 =? 0)%Z eqn:E0;
      [apply Z.eqb_eq in E0; lia|].
    eexists. split; [reflexivity|exact I].
  - exists p. split; [exact Hp|]. rewrite Hl. apply length_seq.
Qed.

Lemma class_report_empty (n : nat) :
  class_report (S n) [] = Raise ZeroDivisionError.
Proof. reflexivity. Qed.

Lemma sample_report_ok : report_ok 2 sample_report.
Proof.
  split.
  - repeat constructor; simpl; lia.
  - intros k Hk. exists [(0%nat, false); (1%nat, true)].
    split; [left; reflexivity|].
    destruct k as [|[|k]]; simpl; [tauto|tauto|lia].
Qed.

(** ** The epoch loop of [CapsNetTrainer.run] *)

Lemma batch_loop_full conflicts bs :
  forall j st,
    (0 <= total st)%Z ->
    Forall (fun b => (0 < bo_size b)%Z) bs ->
    bs <> [] ->
    exists st',
      batch_loop conflicts j bs st = Ok st' /\
      running_loss st' = loss_sum bs (running_loss st) /\
      correct st' = correct_sum bs (correct st) /\
      total st' = size_sum bs (total st) /\
      (0 < total st')%Z /\
      var_accuracy st' = Some (IZR (correct st') / IZR (total st')) /\
      history st' = history st /\
      best_test_acc st' = best_test_acc st /\
      best_epoch st' = best_epoch st /\
      epochs_no_improve st' = epochs_no_improve st /\
      ((1 <= j + length bs - 1)%nat ->
       var_i st' = Some (j + length bs - 1)%nat).
Proof.
  induction bs as [|b bs IH]; intros j st Ht Hpos Hne; [congruence|].
  inversion Hpos as [|? ? Hb Hrest]; subst.
  simpl. unfold batch_step.
  destruct (total st + bo_size b =? 0)%Z eqn:E; [apply Z.eqb_eq in E; lia|].
  simpl.
  destruct bs as [|b' bs'].
  - simpl. eexists; split; [reflexivity|]. simpl.
    repeat split; try reflexivity; try lia.
    intros Hj. assert (Hj0 : (j =? 0)%nat = false) by (apply Nat.eqb_neq; lia).
    rewrite Hj0. simpl. f_equal; lia.
  - match goal with
    | |- context [batch_loop conflicts (S j) (b' :: bs') ?s] =>
        destruct (IH (S j) s) as [st' [H1 [H2 [H3 [H4 [H5 [H6 [H7 [H8 [H9 [H10 H11]]]]]]]]]]]
    end.
    + simpl. lia.
    + exact Hrest.
    + congruence.
    + exists st'. split; [exact H1|].
      simpl in *. repeat split; try assumption.
      intros Hj. rewrite H11 by lia. f_equal. lia.
Qed.

Lemma batch_loop_frame conflicts bs :
  forall j st st',
    batch_loop conflicts j bs st = Ok st' ->
    history st' = history st /\
    best_test_acc st' = best_test_acc st /\
    best_epoch st' = best_epoch st /\
    epochs_no_improve st' = epochs_no_improve st.
Proof.
  induction bs as [|b bs IH]; intros j st st' H; simpl in H.
  - injection H as <-. repeat split.
  - unfold batch_step in H.
    destruct (total st + bo_size b =? 0)%Z; [discriminate|].
    simpl in H. apply IH in H. simpl in H. exact H.
Qed.

Lemma phase_end_inv epoch ph st stopped st' :
  phase_end epoch ph st = Ok (stopped, st') ->
  exists l a,
    var_accuracy st = Some a /\
    history st' = append_history ph l a (history st) /\
    match ph with
    | train =>
        stopped = false /\ best_test_acc st' = best_test_acc st /\
        best_epoch st' = best_epoch st /\
        epochs_no_improve st' = epochs_no_improve st
    | test =>
        if Rltb (best_test_acc st) a then
          stopped = false /\ best_test_acc st' = a /\
          best_epoch st' = epoch /\ epochs_no_improve st' = 0%nat
        else
          stopped = (S (epochs_no_improve st) =? patience)%nat /\
          best_test_acc st' = best_test_acc st /\
          best_epoch st' = best_epoch st /\
          epochs_no_improve st' = S (epochs_no_improve st)
    end.
Proof.
  unfold phase_end. destruct (recorded_loss st) as [l|e]; [|discriminate].
  simpl. destruct (var_accuracy st) as [a|]; [|discriminate].
  simpl. intros H. exists l, a. split; [reflexivity|].
  destruct ph.
  - injection H as <- <-. simpl. repeat split.
  - destruct (Rltb (best_test_acc st) a); injection H as <- <-; simpl;
      repeat split.
Qed.

Lemma run_phase_inv conflicts epoch ph bs st stopped st' :
  run_phase conflicts epoch ph bs st = Ok (stopped, st') ->
  exists l a,
    history st' = append_history ph l a (history st) /\
    match ph with
    | train =>
        stopped = false /\ best_test_acc st' = best_test_acc st /\
        best_epoch st' = best_epoch st /\
        epochs_no_improve st' = epochs_no_improve st
    | test =>
        if Rltb (best_test_acc st) a then
          stopped = false /\ best_test_acc st' = a /\
          best_epoch st' = epoch /\ epochs_no_improve st' = 0%nat
        else
          stopped = (S (epochs_no_improve st) =? patience)%nat /\
          best_test_acc st' = best_test_acc st /\
          best_epoch st' = best_epoch st /\
          epochs_no_improve st' = S (epochs_no_improve st)
    end.
Proof.
  unfold run_phase.
  destruct (batch_loop conflicts 0 bs (phase_start st)) as [st1|e] eqn:E;
    [|discriminate].
  simpl. intros H. apply batch_loop_frame in E. simpl in E.
  destruct E as [E1 [E2 [E3 E4]]].
  apply phase_end_inv in H. destruct H as [l [a [_ [Hh Hrest]]]].
  exists l, a. rewrite E1, E2, E3, E4 in *. split; [exact Hh|exact Hrest].
Qed.

Lemma epoch_step conflicts epoch e trb teb st r1 r2 :
  epochs_done e st -> epoch = S e ->
  run_phase conflicts epoch train trb st = Ok r1 ->
  run_phase conflicts epoch test teb (snd r1) = Ok r2 ->
  epochs_done (S e) (snd r2) /\
  (fst r2 = true <-> (S e - best_epoch (snd r2))%nat = patience).
Proof.
  intros Hd He H1 H2. destruct r1 as [s1 st1], r2 as [s2 st2].
  cbn [fst snd] in *.
  destruct Hd as [L1 [L2 [L3 [L4 [HF [Hbe [Hni [Hz Hnth]]]]]]]].
  apply run_phase_inv in H1. destruct H1 as [l1 [a1 [Hh1 [_ [B1 [B2 B3]]]]]].
  apply run_phase_inv in H2. destruct H2 as [l2 [a2 [Hh2 Hrest]]].
  rewrite Hh1 in Hh2. simpl in Hh2.
  rewrite B1, B2, B3 in Hrest.
  assert (Hlen : length (test_acc (history st) ++ [a2]) = S e)
    by (rewrite length_app; simpl; lia).
  unfold Rltb in Hrest.
  destruct (Rlt_dec (best_test_acc st) a2) as [Hlt|Hge].
  - destruct Hrest as [-> [C1 [C2 C3]]].
    split.
    + unfold epochs_done. rewrite Hh2, C1, C2, C3. simpl.
      rewrite !length_app. simpl.
      subst epoch.
      repeat match goal with |- _ /\ _ => split end; try lia.
      * apply Forall_app. split.
        -- eapply Forall_impl; [|exact HF]. simpl. intros; lra.
        -- constructor; [lra|constructor].
      * intros _. simpl. rewrite Nat.sub_0_r.
        rewrite app_nth2 by lia. rewrite L4, Nat.sub_diag. reflexivity.
    + rewrite C2. subst epoch. rewrite Nat.sub_diag. unfold patience.
      split; [discriminate|lia].
  - destruct Hrest as [-> [C1 [C2 C3]]].
    split.
    + unfold epochs_done. rewrite Hh2, C1, C2, C3. simpl.
      rewrite !length_app. simpl.
      repeat match goal with |- _ /\ _ => split end; try lia.
      * apply Forall_app. split; [exact HF|].
        constructor; [lra|constructor].
      * rewrite Hni. destruct (best_epoch st); lia.
      * exact Hz.
      * intros Hb. rewrite app_nth1 by lia. apply Hnth; exact Hb.
    + rewrite C2. rewrite Hni. rewrite Nat.eqb_eq. unfold patience.
      split; intros; lia.
Qed.

Lemma run_epochs_spec conflicts batches :
  forall remaining epoch e st stopped st',
    epochs_done e st -> epoch = S e ->
    run_epochs conflicts batches epoch remaining st = Ok (stopped, st') ->
    exists e',
      epochs_done e' st' /\ (e <= e' <= e + remaining)%nat /\
      (stopped = false -> e' = (e + remaining)%nat) /\
      (stopped = true -> (e' - best_epoch st')%nat = patience) /\
      (e' = e -> st' = st) /\
      (stopped = false -> (e < e')%nat ->
       (e' - best_epoch st')%nat <> patience).
Proof.
  induction remaining as [|remaining IH]; intros epoch e st stopped st' Hd He H;
    simpl in H.
  - injection H as <- <-. exists e.
    split; [exact Hd|]. split; [lia|]. split; [intros _; lia|].
    split; [discriminate|]. split; [reflexivity|]. intros _ Hlt. lia.
  - destruct (run_phase conflicts epoch train (batches epoch train) st)
      as [r1|] eqn:E1; [|discriminate].
    simpl in H.
    destruct (run_phase conflicts epoch test (batches epoch test) (snd r1))
      as [r2|] eqn:E2; [|discriminate].
    simpl in H.
    destruct (@epoch_step conflicts epoch e _ _ st r1 r2 Hd He E1 E2)
      as [Hd' Hstop].
    destruct r2 as [s2 st2]. cbn [fst snd] in *.
    destruct s2.
    + injection H as <- <-. exists (S e).
      split; [exact Hd'|]. split; [lia|]. split; [discriminate|].
      split; [intros _; apply Hstop; reflexivity|].
      split; [intros Hc; lia|discriminate].
    + destruct (IH (S epoch) (S e) st2 stopped st' Hd' ltac:(lia) H)
        as [e' [Hd2 [Hr [Hns [Hs [Hsame Hn]]]]]].
      exists e'.
      split; [exact Hd2|]. split; [lia|].
      split; [intros Hf; specialize (Hns Hf); lia|].
      split; [exact Hs|]. split; [intros Hc; lia|].
      intros Hf _. destruct (Nat.eq_dec e' (S e)) as [Heq|Hne].
      * rewrite (Hsame Heq), Heq. intros Hp. apply Hstop in Hp. discriminate.
      * apply Hn; [exact Hf|lia].
Qed.

Lemma run_phase_succeeds conflicts epoch ph bs st :
  (2 <= length bs)%nat ->
  Forall (fun b => (0 < bo_size b)%Z) bs ->
  exists stopped st', run_phase conflicts epoch ph bs st = Ok (stopped, st').
Proof.
  intros Hlen Hpos.
  destruct (@batch_loop_full conflicts bs 0%nat (phase_start st))
    as [st1 [H1 [_ [_ [_ [_ [Ha [_ [_ [_ [_ Hi]]]]]]]]]]].
  { simpl; lia. } { exact Hpos. } { destruct bs; simpl in *; [lia|congruence]. }
  specialize (Hi ltac:(simpl; lia)).
  unfold run_phase. rewrite H1. simpl.
  unfold phase_end, recorded_loss. rewrite Hi, Ha. simpl.
  destruct (length bs - 1 + (length bs - 1) =? 0)%nat eqn:E;
    [apply Nat.eqb_eq in E; lia|].
  simpl. destruct ph; [eexists; eexists; reflexivity|].
  destruct (Rltb _ _); eexists; eexists; reflexivity.
Qed.

Lemma run_epochs_succeeds conflicts batches :
  forall remaining epoch st,
    well_fed batches epoch (epoch + remaining - 1) ->
    exists stopped st',
      run_epochs conflicts batches epoch remaining st = Ok (stopped, st').
Proof.
  induction remaining as [|remaining IH]; intros epoch st Hfed; simpl.
  - eexists; eexists; reflexivity.
  - destruct (Hfed epoch train ltac:(lia)) as [Ht1 Ht2].
    destruct (Hfed epoch test ltac:(lia)) as [Hs1 Hs2].
    destruct (@run_phase_succeeds conflicts epoch train _ st Ht1 Ht2)
      as [s1 [st1 E1]].
    rewrite E1. simpl.
    destruct (@run_phase_succeeds conflicts epoch test _ st1 Hs1 Hs2)
      as [s2 [st2 E2]].
    rewrite E2. simpl.
    destruct s2; [eexists; eexists; reflexivity|].
    apply IH. intros e ph He. apply Hfed. lia.
Qed.

Lemma initial_epochs_done : epochs_done 0 initial_state.
Proof.
  unfold epochs_done, initial_state. simpl.
  repeat match goal with |- _ /\ _ => split end; try reflexivity; try lia.
  constructor.
Qed.

Lemma phase_end_accuracy epoch ph st stopped st' :
  phase_end epoch ph st = Ok (stopped, st') ->
  exists a, var_accuracy st' = Some a.
Proof.
  unfold phase_end. destruct (recorded_loss st) as [l|e]; [|discriminate].
  simpl. destruct (var_accuracy st) as [a|] eqn:Ea; [|discriminate].
  simpl. intros H. exists a. destruct ph.
  - injection H as <- <-. reflexivity.
  - destruct (Rltb (best_test_acc st) a); injection H as <- <-; reflexivity.
Qed.

Lemma run_phase_bound_accuracy conflicts epoch ph bs st stopped st' :
  run_phase conflicts epoch ph bs st = Ok (stopped, st') ->
  exists a, var_accuracy st' = Some a.
Proof.
  unfold run_phase.
  destruct (batch_loop conflicts 0 bs (phase_start st)) as [st1|e];
    [|discriminate].
  simpl. apply phase_end_accuracy.
Qed.

Lemma run_epochs_accuracy conflicts batches :
  forall remaining epoch st stopped st',
    run_epochs conflicts batches epoch remaining st = Ok (stopped, st') ->
    (1 <= remaining)%nat ->
    exists a, var_accuracy st' = Some a.
Proof.
  induction remaining as [|remaining IH]; intros epoch st stopped st' H Hr;
    [lia|].
  simpl in H.
  destruct (run_phase conflicts epoch train (batches epoch train) st)
    as [r1|] eqn:E1; [|discriminate].
  simpl in H.
  destruct (run_phase conflicts epoch test (batches epoch test) (snd r1))
    as [[s2 st2]|] eqn:E2; [|discriminate].
  simpl in H.
  destruct s2.
  - injection H as <- <-. exact (@run_phase_bound_accuracy _ _ _ _ _ _ _ E2).
  - destruct remaining as [|remaining'].
    + simpl in H. injection H as <- <-.
      exact (@run_phase_bound_accuracy _ _ _ _ _ _ _ E2).
    + apply (@IH (S epoch) st2 stopped st' H). lia.
Qed.

Lemma CapsNetTrainer_run_after_loop conflicts batches report nc epochs
    stopped st :
  run conflicts batches epochs = Ok (stopped, st) ->
  (1 <= epochs)%Z ->
  CapsNetTrainer_run conflicts batches report nc epochs
  = (p <- class_report nc report ;; Ok (stopped, st, p))%res.
Proof.
  intros H He. unfold CapsNetTrainer_run. rewrite H. cbn [rbind snd].
  unfold run in H.
  destruct (@run_epochs_accuracy conflicts batches (Z.to_nat epochs) 1%nat
              initial_state stopped st H ltac:(lia)) as [a Ha].
  rewrite Ha. reflexivity.
Qed.

(** X1: [run] returns, with one percentage per class, when it is asked
    for at least one epoch, every phase of every epoch meets at least
    two batches, no batch is empty, and the test loader of the final
    report has no batch of a single example, no label beyond the
    classes and an example of every class. *)
Theorem run_completes_when_well_fed
    (conflicts : bool) (batches : nat -> phase -> list batch_outcome)
    (report : list report_batch) (num_classes : nat) (epochs : Z) :
  (1 <= epochs)%Z ->
  well_fed batches 1 (Z.to_nat epochs) ->
  report_ok num_classes report ->
  exists stopped st percentages,
    CapsNetTrainer_run conflicts batches report num_classes epochs
    = Ok (stopped, st, percentages) /\
    length percentages = num_classes.
Proof.
  intros He Hfed Hrep.
  destruct (@run_epochs_succeeds conflicts batches (Z.to_nat epochs) 1%nat
              initial_state) as [stopped [st H]].
  { intros e ph Hr. apply Hfed. lia. }
  destruct (class_report_succeeds Hrep) as [p [Hp Hl]].
  exists stopped, st, p. split; [|exact Hl].
  rewrite (@CapsNetTrainer_run_after_loop conflicts batches report
             num_classes epochs stopped st H He), Hp.
  reflexivity.
Qed.

(** X2: when the epoch loop of [run] ends, the four lists of [history]
    have the same length, the number of epochs that were run.  It is
    [epochs] unless the loop stopped early, and at least the patience of
    ten when it did. *)
Theorem run_history_lengths
    (conflicts : bool) (batches : nat -> phase -> list batch_outcome)
    (epochs : Z) (stopped : bool) (st : RunState) :
  run conflicts batches epochs = Ok (stopped, st) ->
  exists n,
    length (train_loss (history st)) = n /\
    length (train_acc (history st)) = n /\
    length (test_loss (history st)) = n /\
    length (test_acc (history st)) = n /\
    (n <= Z.to_nat epochs)%nat /\
    (stopped = false -> n = Z.to_nat epochs) /\
    (stopped = true -> (patience <= n)%nat).
Proof.
  intros H. unfold run in H.
  destruct (run_epochs_spec _ _ _ initial_epochs_done eq_refl H)
    as [n [Hd [Hr [Hns [Hs _]]]]].
  destruct Hd as [L1 [L2 [L3 [L4 _]]]].
  exists n. repeat match goal with |- _ /\ _ => split end; try assumption.
  - lia.
  - intros Ht. specialize (Hs Ht). lia.
Qed.

(** X3: [epochs_no_improve] counts the epochs since [best_epoch].  The
    loop stops early exactly ten epochs after the best one, and a loop
    that ran to the end did not finish on such an epoch. *)
Theorem run_stops_ten_epochs_after_the_best
    (conflicts : bool) (batches : nat -> phase -> list batch_outcome)
    (epochs : Z) (stopped : bool) (st : RunState) :
  run conflicts batches epochs = Ok (stopped, st) ->
  let n := length (test_acc (history st)) in
  (best_epoch st <= n)%nat /\
  epochs_no_improve st = (n - best_epoch st)%nat /\
  (stopped = true -> (n - best_epoch st)%nat = 10%nat) /\
  (stopped = false -> (1 <= n)%nat -> (n - best_epoch st)%nat <> 10%nat).
Proof.
  intros H n. unfold run in H.
  destruct (run_epochs_spec _ _ _ initial_epochs_done eq_refl H)
    as [e' [Hd [Hr [Hns [Hs [_ Hn]]]]]].
  destruct Hd as [_ [_ [_ [L4 [_ [Hbe [Hni _]]]]]]].
  unfold n. rewrite L4.
  repeat match goal with |- _ /\ _ => split end; assumption.
Qed.

(** X4: [best_test_acc] bounds every recorded test accuracy, and it is
    the one recorded in epoch [best_epoch]; if no epoch improved on the
    initial value, both are still [0]. *)
Theorem run_best_accuracy_is_recorded_maximum
    (conflicts : bool) (batches : nat -> phase -> list batch_outcome)
    (epochs : Z) (stopped : bool) (st : RunState) :
  run conflicts batches epochs = Ok (stopped, st) ->
  Forall (fun a => a <= best_test_acc st) (test_acc (history st)) /\
  (best_epoch st = 0%nat -> best_test_acc st = 0) /\
  ((1 <= best_epoch st)%nat ->
   nth (best_epoch st - 1) (test_acc (history st)) 0 = best_test_acc st).
Proof.
  intros H. unfold run in H.
  destruct (run_epochs_spec _ _ _ initial_epochs_done eq_refl H)
    as [e' [Hd _]].
  destruct Hd as [_ [_ [_ [_ [HF [_ [_ [Hz Hnth]]]]]]]].
  repeat split; assumption.
Qed.

Lemma single_train_batch_fails
    (conflicts : bool) (batches : nat -> phase -> list batch_outcome)
    (epochs : Z) (b : batch_outcome) :
  (1 <= epochs)%Z ->
  batches 1%nat train = [b] ->
  conflicts = false \/ (bo_layers b <= 1)%nat ->
  run conflicts batches epochs = Raise ZeroDivisionError.
Proof.
  intros He Hb Hc. unfold run.
  destruct (Z.to_nat epochs) as [|n] eqn:En; [lia|].
  simpl. rewrite Hb. unfold run_phase. simpl. unfold batch_step. simpl.
  destruct (bo_size b =? 0)%Z; [reflexivity|]. simpl.
  unfold phase_end, recorded_loss. simpl.
  assert (Hi : (if conflicts
                then match bo_layers b with O => 0%nat | S n0 => n0 end
                else 0%nat) = 0%nat).
  { destruct Hc as [->|Hl]; [reflexivity|].
    destruct conflicts; [|reflexivity].
    destruct (bo_layers b) as [|[|k]]; [reflexivity|reflexivity|lia]. }
  rewrite Hi. reflexivity.
Qed.

(** X5: a training loader of a single batch makes [run] fail in its
    first epoch with a division by zero, since [i] is then [0] in
    [running_loss/(i+i)], unless the conflict measurement rebinds [i]
    over two or more layers. *)
Theorem run_single_train_batch_raises
    (conflicts : bool) (batches : nat -> phase -> list batch_outcome)
    (epochs : Z) (b : batch_outcome) :
  (1 <= epochs)%Z ->
  batches 1%nat train = [b] ->
  conflicts = false \/ (bo_layers b <= 1)%nat ->
  run conflicts batches epochs = Raise ZeroDivisionError.
Proof.
  intros He Hb Hc. eapply single_train_batch_fails; eassumption.
Qed.

Lemma empty_train_loader_fails
    (conflicts : bool) (batches : nat -> phase -> list batch_outcome)
    (epochs : Z) :
  (1 <= epochs)%Z ->
  batches 1%nat train = [] ->
  run conflicts batches epochs = Raise (UnboundLocalError "i").
Proof.
  intros He Hb. unfold run.
  destruct (Z.to_nat epochs) as [|n] eqn:En; [lia|].
  simpl. rewrite Hb. reflexivity.
Qed.

(** X6: an empty training loader makes [run] fail in its first epoch:
    [i] was never bound when [running_loss/(i+i)] is evaluated. *)
Theorem run_empty_train_loader_raises
    (conflicts : bool) (batches : nat -> phase -> list batch_outcome)
    (epochs : Z) :
  (1 <= epochs)%Z ->
  batches 1%nat train = [] ->
  run conflicts batches epochs = Raise (UnboundLocalError "i").
Proof.
  intros He Hb. eapply empty_train_loader_fails; eassumption.
Qed.

(** X7: with the conflict measurement on, a phase of a single batch
    leaves [i] at the index of the last layer, and the recorded loss is
    the batch loss divided by twice that index, a number of layers and
    not of batches. *)
Theorem single_batch_with_conflicts_divides_by_layers
    (epoch : nat) (ph : phase) (b : batch_outcome) (st : RunState) :
  (0 < bo_size b)%Z ->
  (2 <= bo_layers b)%nat ->
  exists stopped st',
    run_phase true epoch ph [b] st = Ok (stopped, st') /\
    var_i st' = Some (bo_layers b - 1)%nat /\
    loss_history ph (history st')
    = loss_history ph (history st)
      ++ [(0 + bo_loss b) / INR ((bo_layers b - 1) + (bo_layers b - 1))].
Proof.
  intros Hs Hl. unfold run_phase. simpl. unfold batch_step. simpl.
  destruct (bo_size b =? 0)%Z eqn:E; [apply Z.eqb_eq in E; lia|].
  simpl. destruct (bo_layers b) as [|L] eqn:EL; [lia|].
  unfold phase_end, recorded_loss. simpl.
  rewrite Nat.sub_0_r.
  destruct (L + L =? 0)%nat eqn:E2; [apply Nat.eqb_eq in E2; lia|].
  simpl. destruct ph.
  - eexists; eexists; split; [reflexivity|]. simpl. split; reflexivity.
  - destruct (Rltb _ _); eexists; eexists; (split; [reflexivity|]); simpl;
      split; reflexivity.
Qed.

Lemma sums_bounds (bs : list batch_outcome) :
  forall c0 t0,
    Forall (fun b => (0 <= bo_correct b <= bo_size b)%Z) bs ->
    (0 <= c0 <= t0)%Z ->
    (0 <= correct_sum bs c0 <= size_sum bs t0)%Z.
Proof.
  induction bs as [|b bs IH]; intros c0 t0 HF H0; simpl; [exact H0|].
  inversion HF; subst. apply IH; [assumption|lia].
Qed.

Lemma acc_history_append ph l a h :
  acc_history ph (append_history ph l a h) = acc_history ph h ++ [a].
Proof. destruct ph; reflexivity. Qed.

Lemma run_phase_accuracy conflicts epoch ph bs st :
  (2 <= length bs)%nat ->
  Forall (fun b => (0 < bo_size b)%Z) bs ->
  exists stopped st',
    run_phase conflicts epoch ph bs st = Ok (stopped, st') /\
    (ph = train -> stopped = false) /\
    (0 < size_sum bs 0)%Z /\
    var_i st' = Some (length bs - 1)%nat /\
    var_accuracy st'
    = Some (IZR (correct_sum bs 0) / IZR (size_sum bs 0)) /\
    history st'
    = append_history ph (loss_sum bs 0 / INR (length bs - 1 + (length bs - 1)))
        (IZR (correct_sum bs 0) / IZR (size_sum bs 0)) (history st).
Proof.
  intros Hlen Hpos.
  destruct (@batch_loop_full conflicts bs 0%nat (phase_start st))
    as [st1 [H1 [Hl [Hc [Ht [Htp [Ha [Hh [_ [_ [_ Hi]]]]]]]]]]].
  { simpl; lia. } { exact Hpos. } { destruct bs; simpl in *; [lia|congruence]. }
  specialize (Hi ltac:(simpl; lia)). simpl in Hi, Hl, Hc, Ht, Hh.
  rewrite Hc, Ht in Ha. rewrite Ht in Htp.
  unfold run_phase. rewrite H1. simpl.
  unfold phase_end, recorded_loss. rewrite Hi, Ha. simpl.
  destruct (length bs - 1 + (length bs - 1) =? 0)%nat eqn:E;
    [apply Nat.eqb_eq in E; lia|].
  simpl. rewrite Hl, Hh.
  destruct ph.
  - eexists; eexists; split; [reflexivity|]. simpl.
    repeat match goal with |- _ /\ _ => split end; try assumption; reflexivity.
  - destruct (Rltb _ _); eexists; eexists; (split; [reflexivity|]); simpl;
      repeat match goal with |- _ /\ _ => split end;
      try assumption; try reflexivity; discriminate.
Qed.

(** X8: the accuracy a phase records is the number of correct
    predictions of the whole phase over the number of its examples, and
    it lies between 0 and 1 when no batch counts more correct
    predictions than it has examples. *)
Theorem recorded_accuracy_is_phase_accuracy
    (conflicts : bool) (epoch : nat) (ph : phase)
    (bs : list batch_outcome) (st : RunState) :
  (2 <= length bs)%nat ->
  Forall (fun b => (0 < bo_size b)%Z) bs ->
  Forall (fun b => (0 <= bo_correct b <= bo_size b)%Z) bs ->
  let accuracy := IZR (correct_sum bs 0) / IZR (size_sum bs 0) in
  exists stopped st',
    run_phase conflicts epoch ph bs st = Ok (stopped, st') /\
    acc_history ph (history st') = acc_history ph (history st) ++ [accuracy] /\
    0 <= accuracy <= 1.
Proof.
  intros Hlen Hpos Hcor accuracy.
  destruct (@run_phase_accuracy conflicts epoch ph bs st Hlen Hpos)
    as [stopped [st' [H1 [_ [Hs [_ [_ Hh]]]]]]].
  exists stopped, st'. split; [exact H1|].
  split; [rewrite Hh; apply acc_history_append|].
  pose proof (@sums_bounds bs 0%Z 0%Z Hcor ltac:(lia)) as [Hc0 Hc1].
  apply IZR_le in Hc0, Hc1. apply IZR_lt in Hs.
  unfold accuracy. split.
  - apply Rmult_le_pos; [exact Hc0|]. left. apply Rinv_0_lt_compat. exact Hs.
  - apply (Rmult_le_reg_r (IZR (size_sum bs 0))); [exact Hs|].
    unfold Rdiv. rewrite Rmult_assoc, Rinv_l by lra. lra.
Qed.

(** X9: after a training phase, the bookkeeping of a test phase over an
    empty loader raises nothing: [i] and [accuracy] still hold what the
    training phase left, so the test accuracy recorded is the training
    accuracy and the test loss recorded is [0].  If that phase is the
    tenth without improvement, the report that follows meets no example
    of any class and divides by zero. *)
Theorem empty_test_loader_records_stale_values
    (conflicts : bool) (epoch : nat)
    (bs : list batch_outcome) (st : RunState) :
  (2 <= length bs)%nat ->
  Forall (fun b => (0 < bo_size b)%Z) bs ->
  let accuracy := IZR (correct_sum bs 0) / IZR (size_sum bs 0) in
  exists st1 stopped st2,
    run_phase conflicts epoch train bs st = Ok (false, st1) /\
    run_phase conflicts epoch test [] st1 = Ok (stopped, st2) /\
    train_acc (history st1) = train_acc (history st) ++ [accuracy] /\
    test_acc (history st2) = test_acc (history st) ++ [accuracy] /\
    test_loss (history st2) = test_loss (history st) ++ [0] /\
    (stopped = true <-> S (epochs_no_improve st) = patience /\
                        accuracy <= best_test_acc st) /\
    (stopped = true ->
     forall num_classes, (1 <= num_classes)%nat ->
       class_report num_classes [] = Raise ZeroDivisionError).
Proof.
  intros Hlen Hpos accuracy.
  destruct (@run_phase_accuracy conflicts epoch train bs st Hlen Hpos)
    as [s1 [st1 [H1 [Hf [_ [Hi [Ha Hh]]]]]]].
  rewrite (Hf eq_refl) in H1.
  pose proof (run_phase_inv _ _ _ _ _ H1) as [l1 [a1 [_ [_ [B1 [_ B3]]]]]].
  exists st1.
  unfold run_phase at 2. simpl.
  unfold phase_end, recorded_loss. simpl. rewrite Hi, Ha. simpl.
  destruct (length bs - 1 + (length bs - 1) =? 0)%nat eqn:E;
    [apply Nat.eqb_eq in E; lia|].
  simpl.
  assert (Hz : 0 / INR (length bs - 1 + (length bs - 1)) = 0)
    by (unfold Rdiv; ring).
  rewrite Hz. fold accuracy. fold accuracy in Hh.
  assert (Hrep : forall num_classes, (1 <= num_classes)%nat ->
                   class_report num_classes [] = Raise ZeroDivisionError).
  { intros [|n] Hn; [lia|]. apply class_report_empty. }
  rewrite B1, B3. unfold Rltb.
  destruct (Rlt_dec (best_test_acc st) accuracy) as [Hlt|Hge].
  - eexists; eexists. split; [exact H1|]. split; [reflexivity|]. simpl.
    rewrite Hh. simpl.
    repeat match goal with |- _ /\ _ => split end; try reflexivity.
    + split; [discriminate|].
      intros [_ Hle]. exfalso. apply (Rlt_not_le _ _ Hlt). exact Hle.
    + discriminate.
  - eexists; eexists. split; [exact H1|]. split; [reflexivity|]. simpl.
    rewrite Hh. simpl.
    repeat match goal with |- _ /\ _ => split end; try reflexivity.
    + split.
      * intros Hs. apply Nat.eqb_eq in Hs.
        split; [unfold patience; lia|apply Rnot_lt_le; exact Hge].
      * intros [Hs _]. apply Nat.eqb_eq. unfold patience in Hs. lia.
    + intros _. exact Hrep.
Qed.

Lemma append_history_test_inj l a l' a' h :
  append_history test l a h = append_history test l' a' h -> a = a'.
Proof.
  unfold append_history. intros H. injection H as _ H.
  apply app_inj_tail in H. destruct H as [_ H]. exact H.
Qed.

Lemma Rltb_irrefl x : Rltb x x = false.
Proof. unfold Rltb. destruct (Rlt_dec x x); [lra|reflexivity]. Qed.

Lemma barren_epochs conflicts batches :
  forall remaining e st,
    epochs_done e st -> best_epoch st = 0%nat ->
    (e < patience)%nat -> (patience - e <= remaining)%nat ->
    well_fed batches (S e) patience ->
    (forall k, (S e <= k <= patience)%nat ->
               correct_sum (batches k test) 0 = 0%Z) ->
    exists st',
      run_epochs conflicts batches (S e) remaining st = Ok (true, st') /\
      epochs_done patience st' /\ best_epoch st' = 0%nat.
Proof.
  induction remaining as [|remaining IH];
    intros e st Hd Hb He Hrem Hfed Hzero; [lia|].
  cbn [run_epochs].
  destruct (Hfed (S e) train ltac:(lia)) as [Ht1 Ht2].
  destruct (Hfed (S e) test ltac:(lia)) as [Hs1 Hs2].
  destruct (@run_phase_accuracy conflicts (S e) train _ st Ht1 Ht2)
    as [s1 [st1 [E1 _]]].
  rewrite E1. cbn [rbind snd].
  destruct (@run_phase_accuracy conflicts (S e) test _ st1 Hs1 Hs2)
    as [s2 [st2 [E2 [_ [_ [_ [_ Hh2]]]]]]].
  rewrite E2. cbn [rbind fst snd].
  destruct (@epoch_step conflicts (S e) e _ _ st (s1, st1) (s2, st2)
              Hd eq_refl E1 E2) as [Hd' Hstop].
  cbn [fst snd] in Hd', Hstop.
  pose proof (run_phase_inv _ _ _ _ _ E1) as [l1 [a1 [_ [_ [B1 [B2 B3]]]]]].
  pose proof (run_phase_inv _ _ _ _ _ E2) as [l2 [a2 [Hh2' Hrest]]].
  rewrite Hh2 in Hh2'. apply append_history_test_inj in Hh2'.
  rewrite (Hzero (S e) ltac:(lia)) in Hh2'.
  assert (Ha2 : a2 = 0) by (rewrite <- Hh2'; unfold Rdiv; ring).
  assert (Hbest : best_test_acc st = 0) by (apply Hd; exact Hb).
  rewrite B1, Hbest, Ha2, Rltb_irrefl in Hrest.
  destruct Hrest as [Hs2' [_ [C2 _]]].
  rewrite B2, Hb in C2.
  destruct s2.
  - exists st2. split; [reflexivity|].
    apply proj1 in Hstop. specialize (Hstop eq_refl).
    rewrite C2, Nat.sub_0_r in Hstop.
    rewrite <- Hstop. split; [exact Hd'|exact C2].
  - assert (Hlt : (S e < patience)%nat).
    { destruct (Nat.eq_dec (S e) patience) as [Heq|Hne]; [|lia].
      apply proj2 in Hstop. rewrite C2, Nat.sub_0_r in Hstop.
      specialize (Hstop Heq). discriminate. }
    apply (IH (S e) st2 Hd' C2 Hlt); [lia| |].
    + intros k ph Hk. apply Hfed. lia.
    + intros k Hk. apply Hzero. lia.
Qed.

(** X17: [best_test_acc] starts at [0] and only a strictly higher
    accuracy counts as an improvement.  If no test phase of the first
    ten epochs predicts anything right, no epoch improves, and a run of
    ten epochs or more enters the early-stopping branch after the tenth
    with [best_epoch] still [0]; whether [run] then returns or raises is
    for the per-class report of that branch to decide. *)
Theorem run_without_a_correct_prediction_stops_after_ten_epochs
    (conflicts : bool) (batches : nat -> phase -> list batch_outcome)
    (epochs : Z) :
  (10 <= epochs)%Z ->
  well_fed batches 1 10 ->
  (forall k, (1 <= k <= 10)%nat -> correct_sum (batches k test) 0 = 0%Z) ->
  exists st,
    run conflicts batches epochs = Ok (true, st) /\
    length (test_acc (history st)) = 10%nat /\
    best_epoch st = 0%nat /\ best_test_acc st = 0 /\
    epochs_no_improve st = 10%nat /\
    forall (report : list report_batch) (num_classes : nat),
      CapsNetTrainer_run conflicts batches report num_classes epochs
      = (p <- class_report num_classes report ;; Ok (true, st, p))%res.
Proof.
  intros He Hfed Hzero.
  destruct (@barren_epochs conflicts batches (Z.to_nat epochs) 0%nat
              initial_state initial_epochs_done eq_refl)
    as [st [H [Hd Hb]]]; try assumption; try (unfold patience; lia).
  fold (run conflicts batches epochs) in H.
  exists st. split; [exact H|].
  destruct Hd as [_ [_ [_ [L4 [_ [_ [Hni [Hz _]]]]]]]].
  split; [exact L4|]. split; [exact Hb|]. split; [exact (Hz Hb)|].
  split; [rewrite Hni, Hb; reflexivity|].
  intros report nc.
  apply CapsNetTrainer_run_after_loop; [exact H|lia].
Qed.

Lemma barren_well_fed first last : well_fed barren_batches first last.
Proof.
  intros e ph _. split; [simpl; lia|repeat constructor].
Qed.

Lemma barren_run_stops :
  exists st, run false barren_batches 30 = Ok (true, st).
Proof.
  destruct (@barren_epochs false barren_batches (Z.to_nat 30) 0%nat
              initial_state initial_epochs_done eq_refl
              ltac:(unfold patience; lia) ltac:(unfold patience; lia)
              (@barren_well_fed 1%nat patience) (fun k _ => eq_refl))
    as [st [H _]].
  exists st. exact H.
Qed.

Lemma steady_well_fed first last : well_fed steady_batches first last.
Proof.
  intros e ph _. split; [simpl; lia|repeat constructor].
Qed.

Lemma steady_run_succeeds :
  exists stopped st, run false steady_batches 2 = Ok (stopped, st).
Proof.
  unfold run. apply run_epochs_succeeds. apply steady_well_fed.
Qed.

Lemma run_completes_when_well_fed_witness :
  (1 <= 2)%Z /\ well_fed steady_batches 1 (Z.to_nat 2) /\
  report_ok 2 sample_report /\
  exists stopped st percentages,
    CapsNetTrainer_run false steady_batches sample_report 2 2
    = Ok (stopped, st, percentages) /\
    length percentages = 2%nat.
Proof.
  assert (H1 : (1 <= 2)%Z) by lia.
  split; [exact H1|]. split; [apply steady_well_fed|].
  split; [exact sample_report_ok|].
  exact (@run_completes_when_well_fed false steady_batches sample_report
           2%nat 2 H1 (@steady_well_fed 1%nat (Z.to_nat 2))
           sample_report_ok).
Defined.

Lemma run_history_lengths_witness :
  exists stopped st,
    run false steady_batches 2 = Ok (stopped, st) /\
    exists n,
      length (train_loss (history st)) = n /\
      length (train_acc (history st)) = n /\
      length (test_loss (history st)) = n /\
      length (test_acc (history st)) = n /\
      (n <= Z.to_nat 2)%nat /\
      (stopped = false -> n = Z.to_nat 2) /\
      (stopped = true -> (patience <= n)%nat).
Proof.
  destruct steady_run_succeeds as [stopped [st H]].
  exists stopped, st. split; [exact H|].
  exact (@run_history_lengths false steady_batches 2 stopped st H).
Defined.

Lemma run_stops_ten_epochs_after_the_best_witness :
  exists st,
    run false barren_batches 30 = Ok (true, st) /\
    let n := length (test_acc (history st)) in
    (best_epoch st <= n)%nat /\
    epochs_no_improve st = (n - best_epoch st)%nat /\
    (true = true -> (n - best_epoch st)%nat = 10%nat) /\
    (true = false -> (1 <= n)%nat -> (n - best_epoch st)%nat <> 10%nat).
Proof.
  destruct barren_run_stops as [st H].
  exists st. split; [exact H|].
  exact (@run_stops_ten_epochs_after_the_best false barren_batches 30
           true st H).
Defined.

Lemma run_best_accuracy_is_recorded_maximum_witness :
  exists stopped st,
    run false steady_batches 2 = Ok (stopped, st) /\
    Forall (fun a => a <= best_test_acc st) (test_acc (history st)) /\
    (best_epoch st = 0%nat -> best_test_acc st = 0) /\
    ((1 <= best_epoch st)%nat ->
     nth (best_epoch st - 1) (test_acc (history st)) 0 = best_test_acc st).
Proof.
  destruct steady_run_succeeds as [stopped [st H]].
  exists stopped, st. split; [exact H|].
  exact (@run_best_accuracy_is_recorded_maximum false steady_batches 2
           stopped st H).
Defined.

Lemma run_single_train_batch_raises_witness :
  (1 <= 30)%Z /\
  (fun (_ : nat) (_ : phase) => [sample_batch 3]) 1%nat train
  = [sample_batch 3] /\
  (false = false \/ (bo_layers (sample_batch 3) <= 1)%nat) /\
  run false (fun _ _ => [sample_batch 3]) 30 = Raise ZeroDivisionError.
Proof.
  assert (H1 : (1 <= 30)%Z) by lia.
  split; [exact H1|]. split; [reflexivity|]. split; [left; reflexivity|].
  exact (@run_single_train_batch_raises false
           (fun _ _ => [sample_batch 3]) 30 (sample_batch 3) H1 eq_refl
           (or_introl eq_refl)).
Defined.

Lemma run_empty_train_loader_raises_witness :
  (1 <= 30)%Z /\
  run true (fun _ _ => []) 30 = Raise (UnboundLocalError "i").
Proof.
  assert (H1 : (1 <= 30)%Z) by lia.
  split; [exact H1|].
  exact (@run_empty_train_loader_raises true (fun _ _ => []) 30 H1 eq_refl).
Defined.

Lemma single_batch_with_conflicts_divides_by_layers_witness :
  (0 < bo_size deep_batch)%Z /\ (2 <= bo_layers deep_batch)%nat /\
  exists stopped st',
    run_phase true 1 train [deep_batch] initial_state = Ok (stopped, st') /\
    var_i st' = Some (bo_layers deep_batch - 1)%nat /\
    loss_history train (history st')
    = loss_history train (history initial_state)
      ++ [(0 + bo_loss deep_batch)
          / INR ((bo_layers deep_batch - 1) + (bo_layers deep_batch - 1))].
Proof.
  assert (H1 : (0 < bo_size deep_batch)%Z) by (simpl; lia).
  assert (H2 : (2 <= bo_layers deep_batch)%nat) by (simpl; lia).
  split; [exact H1|]. split; [exact H2|].
  exact (@single_batch_with_conflicts_divides_by_layers 1%nat train deep_batch
           initial_state H1 H2).
Defined.

Lemma sample_batches_positive :
  Forall (fun b => (0 < bo_size b)%Z) sample_batches.
Proof. repeat constructor. Qed.

Lemma sample_batches_correct :
  Forall (fun b => (0 <= bo_correct b <= bo_size b)%Z) sample_batches.
Proof. repeat constructor; simpl; lia. Qed.

Lemma sample_batches_two : (2 <= length sample_batches)%nat.
Proof. simpl; lia. Qed.

Lemma recorded_accuracy_is_phase_accuracy_witness :
  let accuracy :=
    IZR (correct_sum sample_batches 0) / IZR (size_sum sample_batches 0) in
  exists stopped st',
    run_phase false 1 test sample_batches initial_state = Ok (stopped, st') /\
    acc_history test (history st')
    = acc_history test (history initial_state) ++ [accuracy] /\
    0 <= accuracy <= 1.
Proof.
  exact (@recorded_accuracy_is_phase_accuracy false 1%nat test sample_batches
           initial_state sample_batches_two sample_batches_positive
           sample_batches_correct).
Defined.

Lemma empty_test_loader_records_stale_values_witness :
  let accuracy :=
    IZR (correct_sum sample_batches 0) / IZR (size_sum sample_batches 0) in
  (2 <= length sample_batches)%nat /\
  Forall (fun b => (0 < bo_size b)%Z) sample_batches /\
  exists st1 st2,
    run_phase false 11 train sample_batches stalled_state = Ok (false, st1) /\
    run_phase false 11 test [] st1 = Ok (true, st2) /\
    train_acc (history st1)
    = train_acc (history stalled_state) ++ [accuracy] /\
    test_acc (history st2) = test_acc (history stalled_state) ++ [accuracy] /\
    test_loss (history st2) = test_loss (history stalled_state) ++ [0] /\
    forall num_classes, (1 <= num_classes)%nat ->
      class_report num_classes [] = Raise ZeroDivisionError.
Proof.
  intro accuracy.
  split; [exact sample_batches_two|]. split; [exact sample_batches_positive|].
  destruct (@empty_test_loader_records_stale_values false 11%nat
              sample_batches stalled_state sample_batches_two
              sample_batches_positive)
    as [st1 [stopped [st2 [H1 [H2 [H3 [H4 [H5 [H6 H7]]]]]]]]].
  assert (Hs : stopped = true).
  { apply H6. split; [reflexivity|]. simpl. lra. }
  subst stopped.
  exists st1, st2.
  repeat match goal with |- _ /\ _ => split end; try assumption.
  exact (H7 eq_refl).
Defined.

Lemma run_without_a_correct_prediction_stops_after_ten_epochs_witness :
  (10 <= 30)%Z /\ well_fed barren_batches 1 10 /\
  (forall k, (1 <= k <= 10)%nat ->
             correct_sum (barren_batches k test) 0 = 0%Z) /\
  exists st,
    run false barren_batches 30 = Ok (true, st) /\
    length (test_acc (history st)) = 10%nat /\
    best_epoch st = 0%nat /\ best_test_acc st = 0 /\
    epochs_no_improve st = 10%nat /\
    forall (report : list report_batch) (num_classes : nat),
      CapsNetTrainer_run false barren_batches report num_classes 30
      = (p <- class_report num_classes report ;; Ok (true, st, p))%res.
Proof.
  assert (H1 : (10 <= 30)%Z) by lia.
  assert (H2 : forall k, (1 <= k <= 10)%nat ->
                         correct_sum (barren_batches k test) 0 = 0%Z)
    by (intros k _; reflexivity).
  split; [exact H1|]. split; [apply barren_well_fed|]. split; [exact H2|].
  exact (@run_without_a_correct_prediction_stops_after_ten_epochs false
           barren_batches 30 H1 (@barren_well_fed 1%nat 10%nat) H2).
Defined.

(** ** Further properties of [model.py], [main.py] and the trainer *)

Lemma sigmoid_range (x : R) : 0 < sigmoid x < 1.
Proof.
  unfold sigmoid. pose proof (exp_pos (- x)) as He.
  split.
  - apply Rdiv_lt_0_compat; lra.
  - apply (Rmult_lt_reg_r (1 + exp (- x))); [lra|].
    unfold Rdiv. rewrite Rmult_assoc, Rinv_l by lra. lra.
Qed.

Lemma Sequential_forward_app (ms1 ms2 : list layer) :
  forall x y,
    Sequential_forward (ms1 ++ ms2) x = Ok y ->
    exists z, Sequential_forward ms1 x = Ok z /\
              Sequential_forward ms2 z = Ok y.
Proof.
  induction ms1 as [|m ms1 IH]; intros x y H; simpl in *.
  - exists x. split; [reflexivity|exact H].
  - destruct (layer_forward m x) as [x'|e]; simpl in *; [|discriminate].
    apply IH. exact H.
Qed.

Lemma Sequential_forward_sigmoid (ms : list layer) (x y : t2) :
  Sequential_forward (ms ++ [LSigmoid]) x = Ok y ->
  Forall (Forall (fun v => 0 < v < 1)) y.
Proof.
  intros H. apply Sequential_forward_app in H. destruct H as [z [_ H]].
  simpl in H. injection H as <-.
  apply Forall_forall. intros r Hr. apply in_map_iff in Hr.
  destruct Hr as [r0 [<- _]].
  apply Forall_forall. intros v Hv. apply in_map_iff in Hv.
  destruct Hv as [v0 [<- _]]. apply sigmoid_range.
Qed.

Lemma Forall_concat {A} (P : A -> Prop) (ll : list (list A)) :
  Forall (Forall P) ll -> Forall P (concat ll).
Proof.
  induction 1 as [|l ll Hl _ IH]; simpl; [constructor|].
  apply Forall_app. split; assumption.
Qed.

Lemma view_infer_data rows img t :
  view_infer rows img = Ok t -> data t = concat rows.
Proof.
  unfold view_infer. destruct (numel img =? 0)%nat; [discriminate|].
  destruct (negb _); [discriminate|]. intros H. injection H as <-. reflexivity.
Qed.

Section ForwardRange.
Context {rt : Runtime}.

Lemma forward_inv (net : CapsuleNetwork) (x : tensor) (w : world)
    preds recon layers w' :
  CapsuleNetwork_forward net x w = (Ok (preds, recon, layers), w') ->
  exists out inp rows,
    forward_capsules net x w = (Ok (out, layers), w') /\
    preds = map (map norm) out /\
    decoder_input (net_num_classes net) out = Ok inp /\
    Sequential_forward (decoder net) inp = Ok rows /\
    view_infer rows (net_img_shape net) = Ok recon.
Proof.
  intros H. unfold CapsuleNetwork_forward in H.
  step_bind H as ol w1 E1.
  step_bind H as inp w2 E2. apply lift_inv in E2. destruct E2 as [E2 ->].
  step_bind H as rows w3 E3. apply lift_inv in E3. destruct E3 as [E3 ->].
  step_bind H as rec w4 E4. apply lift_inv in E4. destruct E4 as [E4 ->].
  apply ret_inv in H. destruct H as [H ->].
  injection H as -> -> ->.
  exists (fst ol), inp, rows. destruct ol as [out ls]. simpl in *.
  repeat match goal with |- _ /\ _ => split end; try assumption; reflexivity.
Qed.

(** X10: whatever the capsule layers compute, the class scores that
    [forward] returns are never negative, and every entry of the
    reconstructions lies between 0 and 1, the decoder ending in a
    sigmoid. *)
Theorem forward_scores_and_pixels_in_range
    (args : Namespace) (img_shape : list nat)
    (channels primary_dim num_classes out_dim kernel_size : Z)
    (net : CapsuleNetwork) (x : tensor) (w : world)
    (preds : t2) (reconstructions : tensor) (layers : list t3) (w' : world) :
  constructed args img_shape channels primary_dim num_classes out_dim
              kernel_size net ->
  CapsuleNetwork_forward net x w = (Ok (preds, reconstructions, layers), w') ->
  Forall (Forall (fun s => 0 <= s)) preds /\
  Forall (fun v => 0 <= v <= 1) (data reconstructions).
Proof.
  intros Hnet H.
  destruct (forward_inv _ _ _ H) as [out [inp [rows [_ [-> [_ [Hs Hv]]]]]]].
  split.
  - apply Forall_forall. intros r Hr. apply in_map_iff in Hr.
    destruct Hr as [r0 [<- _]].
    apply Forall_forall. intros v Hv'. apply in_map_iff in Hv'.
    destruct Hv' as [v0 [<- _]]. apply norm_nonneg.
  - destruct Hnet as [c0 [pc [l1 [l2 [l3 Hnet]]]]].
    destruct Hnet as [_ [_ [_ [_ [_ [_ [_ [_ [_ [Hdec _]]]]]]]]]].
    rewrite Hdec in Hs.
    change [LLinear l1; LReLU; LLinear l2; LReLU; LLinear l3; LSigmoid]
      with ([LLinear l1; LReLU; LLinear l2; LReLU; LLinear l3] ++ [LSigmoid])
      in Hs.
    apply Sequential_forward_sigmoid in Hs.
    rewrite (view_infer_data _ _ Hv).
    apply Forall_concat.
    eapply Forall_impl; [|exact Hs]. intros r Hr.
    eapply Forall_impl; [|exact Hr]. simpl. intros a Ha. lra.
Qed.

End ForwardRange.

Lemma small_net_forward_ok :
  exists preds reconstructions layers w',
    CapsuleNetwork_forward small_net small_image 0%N
    = (Ok (preds, reconstructions, layers), w').
Proof.
  destruct (@forward_spec
              (SpecRuntime.runtime SpecRuntime.eps0) mnist_namespace 1 4 4
              2 2 2 2 1 small_net 1 small_image 0%N
              (spec_runtime_routing_contract eps0_pos)
              small_net_primary_contract small_net_constructed)
    as [out [layers [preds [rec [w' [_ [H _]]]]]]];
    try reflexivity; try (simpl; lia).
  exists preds, rec, layers, w'. exact H.
Qed.

Lemma forward_scores_and_pixels_in_range_witness :
  exists preds reconstructions layers w',
    constructed mnist_namespace [1; 4; 4]%nat 2 2 2 2 1 small_net /\
    CapsuleNetwork_forward small_net small_image 0%N
    = (Ok (preds, reconstructions, layers), w') /\
    Forall (Forall (fun s => 0 <= s)) preds /\
    Forall (fun v => 0 <= v <= 1) (data reconstructions).
Proof.
  destruct small_net_forward_ok as [preds [rec [layers [w' H]]]].
  exists preds, rec, layers, w'.
  split; [exact small_net_constructed|]. split; [exact H|].
  exact (@forward_scores_and_pixels_in_range
           (SpecRuntime.runtime SpecRuntime.eps0) mnist_namespace
           [1; 4; 4]%nat 2 2 2 2 1 small_net small_image 0%N
           preds rec layers w' small_net_constructed H).
Defined.

Lemma sum_sq_app (a b : t1) : sum_sq (a ++ b) = sum_sq a + sum_sq b.
Proof.
  unfold sum_sq. rewrite map_app. induction (map (fun x => x * x) a); simpl.
  - lra.
  - rewrite IHl. lra.
Qed.

Lemma sum_sq_concat_zero (m : t2) D :
  (forall k, (k < length m)%nat -> nth k m [] = zeros D) ->
  sum_sq (concat m) = 0.
Proof.
  induction m as [|a m IH]; intros H; simpl; [reflexivity|].
  assert (Ha : a = zeros D) by (apply (H 0%nat); simpl; lia).
  rewrite sum_sq_app, Ha, sum_sq_zeros, IH; [lra|].
  intros k Hk. apply (H (S k)). simpl. lia.
Qed.

Lemma sum_sq_concat_single (m : t2) :
  forall (i : nat) (v : t1) (D : nat),
    (i < length m)%nat ->
    (forall k, (k < length m)%nat ->
               nth k m [] = if (k =? i)%nat then v else zeros D) ->
    sum_sq (concat m) = sum_sq v.
Proof.
  induction m as [|a m IH]; intros i v D Hi H; simpl in *; [lia|].
  rewrite sum_sq_app. pose proof (H 0%nat ltac:(lia)) as Ha. simpl in Ha.
  destruct i as [|i].
  - rewrite Ha, (@sum_sq_concat_zero m D); [lra|].
    intros k Hk. apply (H (S k)). lia.
  - rewrite Ha, sum_sq_zeros, (IH i v D); [lra|lia|].
    intros k Hk. apply (H (S k)). lia.
Qed.

Lemma nth_concat_shaped (m : t2) (D : nat) :
  forall k d,
    Forall (fun r => length r = D) m ->
    (k < length m)%nat -> (d < D)%nat ->
    nth (k * D + d) (concat m) 0 = nth d (nth k m []) 0.
Proof.
  induction m as [|a m IH]; intros k d HF Hk Hd; simpl in *; [lia|].
  inversion HF as [|? ? Ha HF']; subst.
  destruct k as [|k]; simpl.
  - apply app_nth1. lia.
  - rewrite app_nth2 by lia.
    replace (length a + k * length a + d - length a)%nat
      with (k * length a + d)%nat by lia.
    apply IH; [assumption|lia|assumption].
Qed.

Section DecoderInput.
Context {rt : Runtime}.

(** X11: in a forward pass whose capsule stack has produced the class
    capsules [out], the decoder is run on one row per example, the
    flattened class capsules with all but the longest one zeroed: entry
    [k*D + d] of the row is component [d] of capsule [k] if [k] is the
    selected class and [0] otherwise.  The Euclidean norm of the row is
    therefore the highest of the class scores that [forward] returns for
    the example. *)
Theorem decoder_input_keeps_the_longest_capsule
    (net : CapsuleNetwork) (x : tensor) (w : world)
    (out : t3) (layers : list t3) (w' : world) (B D : nat) :
  forward_capsules net x w = (Ok (out, layers), w') ->
  (1 <= net_num_classes net)%Z -> (1 <= B)%nat ->
  shaped3 B (Z.to_nat (net_num_classes net)) D out ->
  let preds := map (map norm) out in
  exists inp,
    shaped2 B (Z.to_nat (net_num_classes net) * D) inp /\
    CapsuleNetwork_forward net x w
    = ((rows <- Sequential_forward (decoder net) inp ;;
        reconstructions <- view_infer rows (net_img_shape net) ;;
        Ok (preds, reconstructions, layers))%res, w') /\
    forall b, (b < B)%nat ->
      let scores := nth b preds [] in
      let i := argmax scores in
      (forall k d, (k < Z.to_nat (net_num_classes net))%nat -> (d < D)%nat ->
         nth (k * D + d) (nth b inp []) 0
         = if (k =? i)%nat then get3 out b k d else 0) /\
      norm (nth b inp []) = nth i scores 0 /\
      (forall k, (k < Z.to_nat (net_num_classes net))%nat ->
         nth k scores 0 <= norm (nth b inp [])).
Proof.
  intros Hcaps Hnc HB Hs preds.
  destruct (decoder_input_spec Hnc HB Hs)
    as [y [masked [_ [_ [_ [Hinp [Hms Hrows]]]]]]].
  exists (map (@concat R) masked).
  split; [apply (view_rows_shape HB Hms)|].
  split.
  { rewrite (forward_after_capsules _ _ _ Hcaps), Hinp. reflexivity. }
  intros b Hb scores i.
  destruct (Hrows b Hb) as [Hmax Hk].
  assert (Hlen : length out = B) by apply Hs.
  assert (Hlm : length masked = B) by apply Hms.
  assert (Hpb : nth b (map (map norm) out) []
                = map norm (nth b out [])).
  { rewrite (@nth_map' _ _ (map norm) _ b [] []) by lia. reflexivity. }
  assert (Hidx : nth b (map argmax (map (map norm) out)) 0%nat = i).
  { rewrite (@nth_map' _ _ argmax _ b 0%nat []) by (rewrite length_map; lia).
    reflexivity. }
  cbv zeta in Hmax, Hk. rewrite Hidx in Hmax, Hk.
  fold preds in Hmax. fold scores in Hmax.
  destruct (shaped3_nth Hms Hb) as [Hmk HmD].
  destruct (shaped3_nth Hs Hb) as [Hok HoD].
  assert (Hls : length scores = Z.to_nat (net_num_classes net)).
  { unfold scores, preds. rewrite Hpb, length_map. exact Hok. }
  destruct Hmax as [Hi [Hge _]]. rewrite Hls in Hi, Hge.
  rewrite (@nth_map' _ _ (@concat R) _ b [] []) by lia.
  assert (Hnorm : norm (concat (nth b masked [])) = nth i scores 0).
  { unfold norm at 1.
    rewrite (@sum_sq_concat_single (nth b masked []) i
               (nth i (nth b out []) []) D).
    - unfold scores, preds. rewrite Hpb.
      rewrite (@nth_map' _ _ norm _ i 0 []) by lia. reflexivity.
    - lia.
    - intros k Hk'. rewrite Hmk in Hk'. destruct (Hk k Hk') as [_ E].
      rewrite E. destruct (Nat.eqb_spec k i) as [->|]; reflexivity. }
  split; [|split].
  - intros k d Hk' Hd.
    rewrite (@nth_concat_shaped (nth b masked []) D k d HmD) by lia.
    destruct (Hk k Hk') as [_ E]. rewrite E.
    destruct (k =? i)%nat; [reflexivity|].
    unfold zeros. apply nth_repeat.
  - exact Hnorm.
  - intros k Hk'. rewrite Hnorm. apply Hge. exact Hk'.
Qed.

End DecoderInput.

Lemma decoder_input_keeps_the_longest_capsule_witness :
  exists out layers w',
    forward_capsules small_net small_image 0%N = (Ok (out, layers), w') /\
    (1 <= net_num_classes small_net)%Z /\ (1 <= 1)%nat /\
    shaped3 1 (Z.to_nat (net_num_classes small_net)) 2 out /\
    let preds := map (map norm) out in
    exists inp,
      shaped2 1 (Z.to_nat (net_num_classes small_net) * 2) inp /\
      CapsuleNetwork_forward small_net small_image 0%N
      = ((rows <- Sequential_forward (decoder small_net) inp ;;
          reconstructions <- view_infer rows (net_img_shape small_net) ;;
          Ok (preds, reconstructions, layers))%res, w') /\
      forall b, (b < 1)%nat ->
        let scores := nth b preds [] in
        let i := argmax scores in
        (forall k d,
           (k < Z.to_nat (net_num_classes small_net))%nat -> (d < 2)%nat ->
           nth (k * 2 + d) (nth b inp []) 0
           = if (k =? i)%nat then get3 out b k d else 0) /\
        norm (nth b inp []) = nth i scores 0 /\
        (forall k, (k < Z.to_nat (net_num_classes small_net))%nat ->
           nth k scores 0 <= norm (nth b inp [])).
Proof.
  destruct small_net_capsules as [out [layers [w' [H Hs]]]].
  assert (H1 : (1 <= net_num_classes small_net)%Z) by (simpl; lia).
  exists out, layers, w'.
  split; [exact H|]. split; [exact H1|]. split; [exact (le_n 1)|].
  split; [exact Hs|].
  exact (@decoder_input_keeps_the_longest_capsule
           (SpecRuntime.runtime SpecRuntime.eps0) small_net small_image 0%N
           out layers w' 1 2 H H1 (le_n 1) Hs).
Defined.

Section InitEdges.
Context {rt : Runtime}.

Lemma primary_caps_of_inv img channels primary_dim k pc :
  primary_caps_of img channels primary_dim k = Ok pc ->
  primary_dim <> 0%Z /\ (3 <= length img)%nat.
Proof.
  unfold primary_caps_of. intros H.
  destruct (py_truediv channels primary_dim) as [q|e] eqn:Eq;
    [|discriminate].
  cbn [rbind] in H. split.
  - intros ->. unfold py_truediv in Eq. rewrite Z.eqb_refl in Eq.
    discriminate.
  - destruct (index img 1) as [h|e] eqn:E1; [|discriminate].
    cbn [rbind] in H.
    destruct (py_float (Z.of_nat h - 2 * (k - 1))) as [fh|e];
      [|discriminate].
    cbn [rbind] in H.
    destruct (index img 2) as [w0|e] eqn:E2; [|discriminate].
    unfold index in E2.
    destruct (nth_error img 2) as [v|] eqn:E; [|discriminate].
    assert (Hlt : (2 < length img)%nat)
      by (apply nth_error_Some; congruence).
    lia.
Qed.

(** X12: [CapsuleNetwork.__init__] does not compare the image with the
    kernel.  For an image with a side shorter than the kernel the
    network may well be built, but [forward] then raises on every batch
    of images of the very shape it was built for, before any capsule
    layer is called. *)
Theorem image_smaller_than_kernel_builds_but_cannot_run
    (args : Namespace) (C H W : nat)
    (channels primary_dim num_classes out_dim : Z) (dev : device)
    (kernel_size : Z) (w : world) (net : CapsuleNetwork) (w1 : world) :
  CapsuleNetwork_init args [C; H; W] channels primary_dim num_classes
                      out_dim dev kernel_size w = (Ok net, w1) ->
  (H < Z.to_nat kernel_size)%nat \/ (W < Z.to_nat kernel_size)%nat ->
  forall (B : nat) (x : tensor) (w2 : world),
    shape x = [B; C; H; W] ->
    CapsuleNetwork_forward net x w2 = (Raise ShapeError, w2).
Proof.
  intros Hinit Hsmall B x w2 Hx.
  apply CapsuleNetwork_init_constructed in Hinit.
  destruct Hinit as [c0 [pc [l1 [l2 [l3 Hnet]]]]].
  destruct Hnet as [Hc0 [_ [_ [_ [Hconv _]]]]].
  unfold index in Hc0. simpl in Hc0. injection Hc0 as <-.
  unfold conv_config in Hconv. injection Hconv as E1 E2 E3 E4.
  unfold CapsuleNetwork_forward, forward_capsules, bind, lift.
  unfold Conv2d_forward. rewrite Hx, E1, E3, E4, Nat2Z.id, Nat.eqb_refl.
  simpl negb. cbv iota.
  replace (Z.to_nat 1) with 1%nat by reflexivity.
  destruct (Z.to_nat kernel_size) as [|k] eqn:Ek; [lia|].
  simpl orb.
  assert (Hlt : ((H <? S k) || (W <? S k))%nat = true).
  { apply orb_true_iff. destruct Hsmall as [Hs|Hs];
      [left|right]; apply Nat.ltb_lt; exact Hs. }
  rewrite Hlt. reflexivity.
Qed.

(** X13: what a successful [CapsuleNetwork.__init__] implies: the image
    shape has at least three axes, [primary_dim] is not zero, and there
    are [max(0, num_res_blocks)] residual blocks, each of exactly two
    routing layers and with [skip] set to [args.residual]. *)
Theorem CapsuleNetwork_init_success_implies
    (args : Namespace) (img_shape : list nat)
    (channels primary_dim num_classes out_dim : Z) (dev : device)
    (kernel_size : Z) (w : world) (net : CapsuleNetwork) (w' : world) :
  CapsuleNetwork_init args img_shape channels primary_dim num_classes
                      out_dim dev kernel_size w = (Ok net, w') ->
  (3 <= length img_shape)%nat /\
  primary_dim <> 0%Z /\
  net_img_shape net = img_shape /\
  length (blocks net) = Z.to_nat (args_num_res_blocks args) /\
  Forall (fun b => skip b = args_residual args /\
                   length (functions b) = 2%nat) (blocks net).
Proof.
  intros Hinit. apply CapsuleNetwork_init_constructed in Hinit.
  destruct Hinit as [c0 [pc [l1 [l2 [l3 Hnet]]]]].
  destruct Hnet as [_ [Hpc [Himg [_ [_ [_ [Hlen [Hblocks _]]]]]]]].
  destruct (primary_caps_of_inv _ _ _ _ Hpc) as [Hd Hl].
  repeat match goal with |- _ /\ _ => split end; try assumption.
  eapply Forall_impl; [|exact Hblocks].
  intros b [Hs [f1 [f2 [Hf _]]]]. split; [exact Hs|].
  rewrite Hf. reflexivity.
Qed.

End InitEdges.

Lemma tiny_init_succeeds (a : Namespace) :
  succeeds (CapsuleNetwork_init (rt := SpecRuntime.runtime SpecRuntime.eps0)
              a tiny_shape 256 8 10 16 cpu 9).
Proof.
  eapply (@CapsuleNetwork_init_succeeds (SpecRuntime.runtime SpecRuntime.eps0)
            (@spec_runtime_allocates SpecRuntime.eps0)).
  - apply spec_runtime_primary_init; lia.
  - reflexivity.
  - reflexivity.
  - lia.
  - lia.
  - lia.
  - vm_compute; congruence.
  - lia.
  - lia.
Qed.

Lemma image_smaller_than_kernel_builds_but_cannot_run_witness :
  let rt := SpecRuntime.runtime SpecRuntime.eps0 in
  exists net w1,
    CapsuleNetwork_init (rt := rt) mnist_namespace [1; 8; 8]%nat 256 8 10 16
                        cpu 9 0%N = (Ok net, w1) /\
    ((8 < Z.to_nat 9)%nat \/ (8 < Z.to_nat 9)%nat) /\
    forall (B : nat) (x : tensor) (w2 : world),
      shape x = [B; 1; 8; 8]%nat ->
      CapsuleNetwork_forward net x w2 = (Raise ShapeError, w2).
Proof.
  intro rt.
  destruct (tiny_init_succeeds mnist_namespace 0%N) as [net [w1 H]].
  assert (Hs : (8 < Z.to_nat 9)%nat \/ (8 < Z.to_nat 9)%nat)
    by (left; simpl; lia).
  exists net, w1. split; [exact H|]. split; [exact Hs|].
  exact (@image_smaller_than_kernel_builds_but_cannot_run rt mnist_namespace
           1 8 8 256 8 10 16 cpu 9 0%N net w1 H Hs).
Defined.

Lemma CapsuleNetwork_init_success_implies_witness :
  let rt := SpecRuntime.runtime SpecRuntime.eps0 in
  exists net w',
    CapsuleNetwork_init (rt := rt) mnist_namespace mnist_shape 256 8 10 16
                        cpu 9 0%N = (Ok net, w') /\
    (3 <= length mnist_shape)%nat /\
    8%Z <> 0%Z /\
    net_img_shape net = mnist_shape /\
    length (blocks net) = Z.to_nat (args_num_res_blocks mnist_namespace) /\
    Forall (fun b => skip b = args_residual mnist_namespace /\
                     length (functions b) = 2%nat) (blocks net).
Proof.
  intro rt.
  destruct (mnist_init_succeeds mnist_namespace 0%N) as [net [w' H]].
  exists net, w'. split; [exact H|].
  exact (@CapsuleNetwork_init_success_implies rt mnist_namespace mnist_shape
           256 8 10 16 cpu 9 0%N net w' H).
Defined.

Lemma length_momentum_paths n : length (momentum_paths n) = Z.to_nat n.
Proof. unfold momentum_paths. rewrite length_map, length_seq. reflexivity. Qed.

Lemma nth_momentum_paths n i :
  (i < Z.to_nat n)%nat ->
  nth i (momentum_paths n) ""%string
  = ("blocks." ++ str (Z.of_nat i) ++ ".functions")%string.
Proof.
  intros Hi. unfold momentum_paths.
  rewrite (@nth_map' _ _ _ (seq 0 (Z.to_nat n)) i ""%string 0%nat)
    by (rewrite length_seq; exact Hi).
  rewrite seq_nth by exact Hi. reflexivity.
Qed.

Section TrainerInit.
Context {rt : Runtime}.
Variable Loaders : Type.
Variable first_image_shape : Loaders -> M world (list nat).

Lemma CapsNetTrainer_init_inv loaders (args : Namespace) dev w tr w' :
  CapsNetTrainer_init first_image_shape loaders args dev w = (Ok tr, w') ->
  exists modelname img_shape num_classes net w1 w2,
    args_modelname args = Some modelname /\
    first_image_shape loaders w = (Ok img_shape, w1) /\
    args_num_classes args = Some num_classes /\
    CapsuleNetwork_init args img_shape 256 8 num_classes 16 dev 9 w1
    = (Ok net, w2) /\
    tr_modelname tr = modelname /\
    tr_net tr
    = (let n := if args_momentum args then
                  MomentumNet (Plain net)
                    (momentum_paths (args_num_res_blocks args))
                    (args_gamma args)
                else Plain net in
       if args_multi_gpu args then DataParallel n else n).
Proof.
  intros H. unfold CapsNetTrainer_init in H.
  step_bind H as mn w0 E0. apply lift_inv in E0. destruct E0 as [E0 ->].
  step_bind H as img w1 E1.
  step_bind H as nc w2 E2. apply lift_inv in E2. destruct E2 as [E2 ->].
  step_bind H as net w3 E3.
  apply ret_inv in H. destruct H as [-> _].
  exists mn, img, nc, net, w1, w3. simpl.
  unfold getattr in E0, E2.
  destruct (args_modelname args); [|discriminate]. injection E0 as ->.
  destruct (args_num_classes args); [|discriminate]. injection E2 as ->.
  repeat match goal with |- _ /\ _ => split end; try assumption; reflexivity.
Qed.

(** X14: with [--momentum], the trainer hands [transform_to_momentumnet]
    exactly one path per residual block of the network it has just
    built, the path of block [i] being [blocks.i.functions]; both are
    counted by [args.num_res_blocks]. *)
Theorem momentum_paths_name_every_block
    (loaders : Loaders) (args : Namespace) (dev : device) (w : world)
    (tr : CapsNetTrainer Loaders) (w' : world) :
  CapsNetTrainer_init first_image_shape loaders args dev w = (Ok tr, w') ->
  args_momentum args = true ->
  exists net paths,
    tr_net tr
    = (if args_multi_gpu args
       then DataParallel (MomentumNet (Plain net) paths (args_gamma args))
       else MomentumNet (Plain net) paths (args_gamma args)) /\
    length paths = length (blocks net) /\
    forall i, (i < length (blocks net))%nat ->
      nth i paths ""%string
      = ("blocks." ++ str (Z.of_nat i) ++ ".functions")%string.
Proof.
  intros H Hm.
  destruct (CapsNetTrainer_init_inv _ _ _ _ H)
    as [mn [img [nc [net [w1 [w2 [_ [_ [_ [Hinit [_ Hnet]]]]]]]]]]].
  rewrite Hm in Hnet. cbv zeta in Hnet.
  apply CapsuleNetwork_init_constructed in Hinit.
  destruct Hinit as [c0 [pc [l1 [l2 [l3 Hc]]]]].
  destruct Hc as [_ [_ [_ [_ [_ [_ [Hlen _]]]]]]].
  exists net, (momentum_paths (args_num_res_blocks args)).
  split; [rewrite Hnet; destruct (args_multi_gpu args); reflexivity|].
  split; [rewrite length_momentum_paths, Hlen; reflexivity|].
  intros i Hi. apply nth_momentum_paths. rewrite <- Hlen. exact Hi.
Qed.

End TrainerInit.

Lemma spec_trainer_init_succeeds (ns : Namespace) (name : string) :
  args_modelname ns = Some name ->
  args_num_classes ns = Some 10%Z ->
  succeeds (CapsNetTrainer_init (rt := SpecRuntime.runtime SpecRuntime.eps0)
              (fun _ : unit => ret mnist_shape) tt ns cpu).
Proof.
  intros Hn Hc. unfold CapsNetTrainer_init. rewrite Hn, Hc.
  eapply succeeds_bind_lift; [reflexivity|].
  apply succeeds_bind_ret.
  eapply succeeds_bind_lift; [reflexivity|].
  apply succeeds_bind; [apply mnist_init_succeeds|intros net].
  apply succeeds_ret.
Qed.

Lemma momentum_paths_name_every_block_witness :
  let rt := SpecRuntime.runtime SpecRuntime.eps0 in
  exists tr w',
    CapsNetTrainer_init (rt := rt) (fun _ : unit => ret mnist_shape) tt
                        mocaps_namespace cpu 0%N = (Ok tr, w') /\
    args_momentum mocaps_namespace = true /\
    exists net paths,
      tr_net tr
      = (if args_multi_gpu mocaps_namespace
         then DataParallel
                (MomentumNet (Plain net) paths (args_gamma mocaps_namespace))
         else MomentumNet (Plain net) paths (args_gamma mocaps_namespace)) /\
      length paths = length (blocks net) /\
      forall i, (i < length (blocks net))%nat ->
        nth i paths ""%string
        = ("blocks." ++ str (Z.of_nat i) ++ ".functions")%string.
Proof.
  intro rt.
  destruct (@spec_trainer_init_succeeds mocaps_namespace "MoCapsNet_1"
              eq_refl eq_refl 0%N) as [tr [w' H]].
  exists tr, w'. split; [exact H|]. split; [reflexivity|].
  exact (@momentum_paths_name_every_block rt unit
           (fun _ : unit => ret mnist_shape) tt mocaps_namespace cpu 0%N
           tr w' H eq_refl).
Defined.

(** X15: the ASCII names of a dataset that [main.py] accepts, compared
    in upper case: MNIST, CIFAR, CIFAR100, SVHN and JAMONES, with their
    numbers of classes and image sizes.  Of these only JAMONES is missing from the
    [datasets] table, so the [ImageFolder] branch with its random split
    is taken for JAMONES and for nothing else; any other ASCII name
    raises [ValueError]. *)
Theorem accepted_datasets (dataset : string) :
  is_ascii dataset = true ->
  match num_classes_of dataset with
  | Ok n =>
      exists size,
        image_size_of dataset = Ok size /\
        ((upper dataset = "MNIST"%string /\ n = 10%Z /\ size = 28%nat /\
          in_datasets dataset = true) \/
         (upper dataset = "CIFAR"%string /\ n = 10%Z /\ size = 32%nat /\
          in_datasets dataset = true) \/
         (upper dataset = "CIFAR100"%string /\ n = 100%Z /\ size = 32%nat /\
          in_datasets dataset = true) \/
         (upper dataset = "SVHN"%string /\ n = 10%Z /\ size = 32%nat /\
          in_datasets dataset = true) \/
         (upper dataset = "JAMONES"%string /\ n = 26%Z /\ size = 50%nat /\
          in_datasets dataset = false))
  | Raise e =>
      e = ValueError /\ image_size_of dataset = Raise ValueError /\
      in_datasets dataset = false
  end.
Proof.
  intros _. unfold num_classes_of, image_size_of, in_datasets.
  destruct (String.eqb (upper dataset) "MNIST") eqn:E1.
  { apply String.eqb_eq in E1. eexists; split; [reflexivity|]. tauto. }
  destruct (String.eqb (upper dataset) "CIFAR") eqn:E2.
  { apply String.eqb_eq in E2. eexists; split; [reflexivity|]. tauto. }
  destruct (String.eqb (upper dataset) "CIFAR100") eqn:E3.
  { apply String.eqb_eq in E3. eexists; split; [reflexivity|]. tauto. }
  destruct (String.eqb (upper dataset) "SVHN") eqn:E4.
  { apply String.eqb_eq in E4. eexists; split; [reflexivity|]. tauto. }
  destruct (String.eqb (upper dataset) "JAMONES") eqn:E5.
  { apply String.eqb_eq in E5. eexists; split; [reflexivity|].
    do 4 right. tauto. }
  tauto.
Qed.

Lemma accepted_datasets_witness :
  is_ascii "jamones" = true /\
  exists size,
    num_classes_of "jamones" = Ok 26%Z /\
    image_size_of "jamones" = Ok size /\
    ((upper "jamones" = "MNIST"%string /\ 26%Z = 10%Z /\ size = 28%nat /\
      in_datasets "jamones" = true) \/
     (upper "jamones" = "CIFAR"%string /\ 26%Z = 10%Z /\ size = 32%nat /\
      in_datasets "jamones" = true) \/
     (upper "jamones" = "CIFAR100"%string /\ 26%Z = 100%Z /\ size = 32%nat /\
      in_datasets "jamones" = true) \/
     (upper "jamones" = "SVHN"%string /\ 26%Z = 10%Z /\ size = 32%nat /\
      in_datasets "jamones" = true) \/
     (upper "jamones" = "JAMONES"%string /\ 26%Z = 26%Z /\ size = 50%nat /\
      in_datasets "jamones" = false)).
Proof.
  split; [reflexivity|].
  destruct (@accepted_datasets "jamones" eq_refl) as [size [H1 H2]].
  exists size. split; [reflexivity|]. split; [exact H1|exact H2].
Defined.

Lemma main_namespace_inv dc a ns :
  main_namespace dc a = Ok ns ->
  exists n,
    num_classes_of (args_dataset a) = Ok n /\
    args_num_classes ns = Some n /\
    args_modelname ns = assign_modelname a /\
    args_num_routing ns = args_num_routing a /\
    args_num_res_blocks ns = args_num_res_blocks a /\
    args_residual ns = args_residual a /\
    args_momentum ns = args_momentum a.
Proof.
  unfold main_namespace.
  destruct (num_classes_of (args_dataset a)) as [n|e]; [|discriminate].
  cbn [rbind].
  destruct (dataset_dir (args_dataset a)) as [dir|e]; [|discriminate].
  cbn [rbind]. intros H. injection H as <-. exists n. simpl.
  repeat match goal with |- _ /\ _ => split end; reflexivity.
Qed.

Lemma primary_caps_of_sizes (c size : nat) :
  size = 28%nat \/ size = 32%nat \/ size = 50%nat ->
  primary_caps_of [c; size; size] 256 8 9
  = Ok (8 * (Z.of_nat size - 16) * (Z.of_nat size - 16))%Z.
Proof.
  intros [-> | [-> | ->]]; reflexivity.
Qed.

Lemma image_size_of_cases d size :
  image_size_of d = Ok size -> size = 28%nat \/ size = 32%nat \/ size = 50%nat.
Proof.
  unfold image_size_of.
  repeat match goal with
         | |- context [if ?b then _ else _] => destruct b
         end; intros H; try discriminate; injection H as <-; tauto.
Qed.

Lemma inner_net_wrapped {rt : Runtime} (net : CapsuleNetwork)
    (momentum multi_gpu : bool) (paths : list string) (gamma : R) :
  inner_net (let n := if momentum then MomentumNet (Plain net) paths gamma
                      else Plain net in
             if multi_gpu then DataParallel n else n) = net.
Proof. destruct momentum, multi_gpu; reflexivity. Qed.

Section EndToEnd.
Context {rt : Runtime}.
Variable Loaders : Type.
Variable first_image_shape : Loaders -> M world (list nat).

(** X16: what [main.py], the trainer and the network agree on.  If the
    trainer has been built from the namespace that [main.py] makes of an
    ASCII dataset name, on images of [c] channels and of the side that
    [main.py] fixes for the dataset, then the options were not
    [--momentum] without [--residual], the trainer bears the model name
    [main.py] assigned, [caps1] has [8 * (size - 16)^2] input capsules
    (1152, 2048 or 9248), [caps2] has one output capsule per class of
    the dataset, and there are [max(0, num_res_blocks)] blocks. *)
Theorem built_trainer_matches_the_dataset
    (a : ParsedArgs) (device_count : Z) (ns : Namespace)
    (loaders : Loaders) (c size : nat) (dev : device) (w : world)
    (tr : CapsNetTrainer Loaders) (w' : world) :
  is_ascii (args_dataset a) = true ->
  main_namespace device_count a = Ok ns ->
  image_size_of (args_dataset a) = Ok size ->
  (forall w0 sh w1, first_image_shape loaders w0 = (Ok sh, w1) ->
                    sh = [c; size; size]) ->
  CapsNetTrainer_init first_image_shape loaders ns dev w = (Ok tr, w') ->
  (args_momentum a = true -> args_residual a = true) /\
  exists name n,
    assign_modelname a = Some name /\ tr_modelname tr = name /\
    num_classes_of (args_dataset a) = Ok n /\
    net_img_shape (inner_net (tr_net tr)) = [c; size; size] /\
    rc_in_caps (caps1 (inner_net (tr_net tr)))
    = (8 * (Z.of_nat size - 16) * (Z.of_nat size - 16))%Z /\
    (rc_in_caps (caps1 (inner_net (tr_net tr))) = 1152%Z \/
     rc_in_caps (caps1 (inner_net (tr_net tr))) = 2048%Z \/
     rc_in_caps (caps1 (inner_net (tr_net tr))) = 9248%Z) /\
    rc_out_caps (caps2 (inner_net (tr_net tr))) = n /\
    length (blocks (inner_net (tr_net tr)))
    = Z.to_nat (args_num_res_blocks a).
Proof.
  intros _ Hmain Hsize Hfis Hinit.
  destruct (main_namespace_inv _ _ Hmain)
    as [n [Hn [Hnc [Hmn [_ [Hnb _]]]]]].
  destruct (@CapsNetTrainer_init_inv rt Loaders first_image_shape loaders ns
              dev w tr w' Hinit)
    as [mn [img [nc [net [w1 [w2 [Emn [Eimg [Enc [Enet [Etr Etn]]]]]]]]]]].
  rewrite Hmn in Emn. rewrite Hnc in Enc. injection Enc as <-.
  rewrite (Hfis _ _ _ Eimg) in Enet.
  pose proof (image_size_of_cases _ Hsize) as Hcases.
  pose proof (CapsuleNetwork_init_constructed _ _ _ _ _ _ _ _ _ Enet) as Hc.
  destruct Hc as [c0 [pc [l1 [l2 [l3 Hc]]]]].
  destruct Hc as [_ [Hpc [Himg [_ [_ [Hcaps1 [Hlen [_ [Hcaps2 _]]]]]]]]].
  rewrite (primary_caps_of_sizes c Hcases) in Hpc. injection Hpc as <-.
  unfold rc_config in Hcaps1, Hcaps2.
  injection Hcaps1 as _ Hin _ _ _. injection Hcaps2 as _ _ Hout _ _.
  rewrite Etn, inner_net_wrapped.
  split.
  { unfold assign_modelname in Emn. intros Hm.
    destruct (args_residual a); [reflexivity|].
    rewrite Hm in Emn. discriminate. }
  exists mn, n.
  split; [exact Emn|]. split; [exact Etr|]. split; [exact Hn|].
  split; [exact Himg|]. split; [exact Hin|].
  split.
  { rewrite Hin.
    destruct Hcases as [-> | [-> | ->]]; [left|right; left|right; right];
      reflexivity. }
  split; [exact Hout|].
  rewrite Hlen, Hnb. reflexivity.
Qed.

End EndToEnd.

Lemma built_trainer_matches_the_dataset_witness :
  let rt := SpecRuntime.runtime SpecRuntime.eps0 in
  let fis := fun _ : unit => ret (world := N) mnist_shape in
  exists ns tr w',
    is_ascii (args_dataset mocaps_args) = true /\
    main_namespace 1 mocaps_args = Ok ns /\
    image_size_of (args_dataset mocaps_args) = Ok 28%nat /\
    (forall (w0 : N) sh w1, fis tt w0 = (Ok sh, w1) ->
                            sh = [1; 28; 28]%nat) /\
    CapsNetTrainer_init (rt := rt) fis tt ns cpu 0%N = (Ok tr, w') /\
    (args_momentum mocaps_args = true -> args_residual mocaps_args = true) /\
    exists name n,
      assign_modelname mocaps_args = Some name /\ tr_modelname tr = name /\
      num_classes_of (args_dataset mocaps_args) = Ok n /\
      net_img_shape (inner_net (tr_net tr)) = [1; 28; 28]%nat /\
      rc_in_caps (caps1 (inner_net (tr_net tr)))
      = (8 * (Z.of_nat 28 - 16) * (Z.of_nat 28 - 16))%Z /\
      (rc_in_caps (caps1 (inner_net (tr_net tr))) = 1152%Z \/
       rc_in_caps (caps1 (inner_net (tr_net tr))) = 2048%Z \/
       rc_in_caps (caps1 (inner_net (tr_net tr))) = 9248%Z) /\
      rc_out_caps (caps2 (inner_net (tr_net tr))) = n /\
      length (blocks (inner_net (tr_net tr)))
      = Z.to_nat (args_num_res_blocks mocaps_args).
Proof.
  intros rt fis.
  assert (Hm : exists ns, main_namespace 1 mocaps_args = Ok ns /\
                          args_modelname ns = Some "MoCapsNet_1"%string /\
                          args_num_classes ns = Some 10%Z)
    by (eexists; repeat split; reflexivity).
  destruct Hm as [ns [Hmain [Hname Hnc]]].
  destruct (@spec_trainer_init_succeeds ns "MoCapsNet_1" Hname Hnc 0%N)
    as [tr [w' Hinit]].
  assert (Hf : forall (w0 : N) sh w1, fis tt w0 = (Ok sh, w1) ->
                                      sh = [1; 28; 28]%nat).
  { intros w0 sh w1 E. unfold fis, ret in E. injection E as <- _.
    reflexivity. }
  exists ns, tr, w'.
  split; [reflexivity|]. split; [exact Hmain|]. split; [reflexivity|].
  split; [exact Hf|]. split; [exact Hinit|].
  exact (@built_trainer_matches_the_dataset rt unit fis mocaps_args 1 ns tt
           1%nat 28%nat cpu 0%N tr w' eq_refl Hmain eq_refl Hf Hinit).
Defined.

Lemma loader_batch_sizes_single (n bs : nat) :
  (1 <= n <= bs)%nat -> loader_batch_sizes n bs = [n].
Proof.
  intros H. unfold loader_batch_sizes.
  destruct (Nat.eq_dec n bs) as [->|Hne].
  - rewrite Nat.div_same, Nat.Div0.mod_same by lia. reflexivity.
  - rewrite Nat.div_small, Nat.mod_small by lia.
    destruct (n =? 0)%nat eqn:E; [apply Nat.eqb_eq in E; lia|reflexivity].
Qed.

(** X18: the random split of lines 153 to 158 keeps every image, the
    larger part for training.  A folder whose training part fits into
    one batch cannot be trained without the conflict measurement: the
    only batch leaves [i] at [0], and [run] fails in its first epoch
    with a division by zero. *)
Theorem training_split_of_one_batch_cannot_be_trained
    (batches : nat -> phase -> list batch_outcome)
    (epochs num_data : Z) (batch_size : nat) :
  (1 <= epochs)%Z -> (1 <= num_data)%Z ->
  let num_train := fst (split_sizes num_data) in
  let num_test := snd (split_sizes num_data) in
  (num_train <= Z.of_nat batch_size)%Z ->
  map bo_size (batches 1%nat train)
  = map Z.of_nat (loader_batch_sizes (Z.to_nat num_train) batch_size) ->
  (num_train + num_test = num_data)%Z /\
  (0 <= num_test <= num_train)%Z /\ (1 <= num_train)%Z /\
  run false batches epochs = Raise ZeroDivisionError.
Proof.
  intros He Hn num_train num_test Hfit Hsizes.
  assert (Hq : (0 <= Z.quot num_data 5)%Z) by (apply Z.quot_pos; lia).
  assert (Hq2 : (5 * Z.quot num_data 5 <= num_data)%Z)
    by (apply Z.mul_quot_le; lia).
  unfold num_train, num_test, split_sizes in *. cbn [fst snd] in *.
  split; [lia|]. split; [lia|]. split; [lia|].
  rewrite loader_batch_sizes_single in Hsizes by lia.
  destruct (batches 1%nat train) as [|b [|b' bs]] eqn:Eb;
    simpl in Hsizes; try discriminate.
  exact (@single_train_batch_fails false batches epochs b He Eb
           (or_introl eq_refl)).
Qed.

Lemma training_split_of_one_batch_cannot_be_trained_witness :
  (1 <= 30)%Z /\ (1 <= 2)%Z /\
  (fst (split_sizes 2) <= Z.of_nat 128)%Z /\
  map bo_size ((fun (_ : nat) (_ : phase) => [sample_batch 3]) 1%nat train)
  = map Z.of_nat (loader_batch_sizes (Z.to_nat (fst (split_sizes 2))) 128) /\
  (fst (split_sizes 2) + snd (split_sizes 2) = 2)%Z /\
  (0 <= snd (split_sizes 2) <= fst (split_sizes 2))%Z /\
  (1 <= fst (split_sizes 2))%Z /\
  run false (fun _ _ => [sample_batch 3]) 30 = Raise ZeroDivisionError.
Proof.
  assert (H1 : (1 <= 30)%Z) by lia.
  assert (H2 : (1 <= 2)%Z) by lia.
  assert (H3 : (fst (split_sizes 2) <= Z.of_nat 128)%Z)
    by (vm_compute; congruence).
  assert (H4 : map bo_size
                 ((fun (_ : nat) (_ : phase) => [sample_batch 3]) 1%nat train)
               = map Z.of_nat
                   (loader_batch_sizes (Z.to_nat (fst (split_sizes 2))) 128))
    by reflexivity.
  split; [exact H1|]. split; [exact H2|]. split; [exact H3|].
  split; [exact H4|].
  exact (@training_split_of_one_batch_cannot_be_trained
           (fun _ _ => [sample_batch 3]) 30 2 128 H1 H2 H3 H4).
Defined.

Lemma tadd3_same_shape (B K D : nat) (x y : t3) :
  shaped3 B K D x -> shaped3 B K D y ->
  tadd3 x y = Ok (map add_example (combine x y)).
Proof.
  intros [HxB HxF] [HyB HyF]. unfold tadd3.
  rewrite bcast_same by lia.
  apply zipWithM_pure; [lia|].
  intros ex ey Hin.
  rewrite Forall_forall in HxF, HyF.
  destruct (HxF ex (in_combine_l _ _ _ _ Hin)) as [HexK HexF].
  destruct (HyF ey (in_combine_r _ _ _ _ Hin)) as [HeyK HeyF].
  rewrite bcast_same by lia.
  unfold add_example. cbn [fst snd].
  apply zipWithM_pure; [lia|].
  intros cx cy Hin2.
  rewrite Forall_forall in HexF, HeyF.
  pose proof (HexF cx (in_combine_l _ _ _ _ Hin2)) as Hcx.
  pose proof (HeyF cy (in_combine_r _ _ _ _ Hin2)) as Hcy.
  rewrite bcast_same by lia.
  unfold add_capsule. cbn [fst snd].
  apply zipWithM_pure; [lia|]. intros; reflexivity.
Qed.

Lemma shaped2_nth K D (m : t2) j :
  shaped2 K D m -> (j < K)%nat -> length (nth j m []) = D.
Proof.
  intros [HL HF] Hj. rewrite Forall_forall in HF.
  apply HF. apply nth_In. lia.
Qed.

Lemma get3_add (B K D : nat) (x y : t3) b j d :
  shaped3 B K D x -> shaped3 B K D y ->
  (b < B)%nat -> (j < K)%nat -> (d < D)%nat ->
  get3 (map add_example (combine x y)) b j d = get3 x b j d + get3 y b j d.
Proof.
  intros Hx Hy Hb Hj Hd. unfold get3.
  pose proof (shaped3_nth Hx Hb) as Hxb.
  pose proof (shaped3_nth Hy Hb) as Hyb.
  pose proof (shaped2_nth Hxb Hj) as Hxj.
  pose proof (shaped2_nth Hyb Hj) as Hyj.
  destruct Hx as [HxB _], Hy as [HyB _].
  rewrite (@nth_map_combine _ _ _ add_example x y b [] [] [])
    by lia.
  unfold add_example. cbn [fst snd].
  rewrite (@nth_map_combine _ _ _ add_capsule (nth b x []) (nth b y [])
             j [] [] [])
    by (destruct Hxb, Hyb; lia).
  unfold add_capsule. cbn [fst snd].
  rewrite (@nth_map_combine _ _ _ (fun r : R * R => fst r + snd r)
             (nth j (nth b x []) []) (nth j (nth b y []) []) d 0 0 0)
    by lia.
  reflexivity.
Qed.

Section ResidualSum.
Context {rt : Runtime}.

(** X19: in a residual block as [CapsuleNetwork.__init__] builds it,
    input and output of every layer have the same shape, so the
    shortcut never broadcasts: with [skip], every component of the
    block's output is the component of its input plus those of the two
    layers' outputs, the second layer being fed the first sum. *)
Theorem residual_block_adds_both_layers
    (f1 f2 : RoutingCapsules) (caps dim nr : Z) (B : nat) (x : t3)
    (w : world) :
  routing_shape_contract ->
  (1 <= nr)%Z ->
  block_built dim caps caps dim nr true
              {| skip := true; functions := [f1; f2] |} ->
  shaped3 B (Z.to_nat caps) (Z.to_nat dim) x ->
  exists y1 w1 x1 y2 w2 out,
    RoutingCapsules_forward f1 x w = (Ok y1, w1) /\
    RoutingCapsules_forward f2 x1 w1 = (Ok y2, w2) /\
    ResCapsBlock_forward {| skip := true; functions := [f1; f2] |} x w
    = (Ok out, w2) /\
    shaped3 B (Z.to_nat caps) (Z.to_nat dim) out /\
    forall b j d,
      (b < B)%nat -> (j < Z.to_nat caps)%nat -> (d < Z.to_nat dim)%nat ->
      get3 x1 b j d = get3 x b j d + get3 y1 b j d /\
      get3 out b j d = get3 x b j d + get3 y1 b j d + get3 y2 b j d.
Proof.
  intros Hrouting Hnr [_ [g1 [g2 [Hf [Hc1 Hc2]]]]] Hx.
  cbn [functions] in Hf. injection Hf as <- <-.
  unfold rc_config in Hc1, Hc2.
  injection Hc1 as A1 A2 A3 A4 A5. injection Hc2 as B1 B2 B3 B4 B5.
  destruct (@Hrouting f1 x B w) as [y1 [w1 [E1 Hy1]]];
    [rewrite A5; exact Hnr|rewrite A1, A2; exact Hx|].
  rewrite A3, A4 in Hy1.
  pose proof (tadd3_same_shape Hx Hy1) as Ex1.
  destruct (tadd3_shape Hx Hy1) as [x1 [Ex1' Hx1]].
  rewrite Ex1 in Ex1'. injection Ex1' as Hx1eq.
  destruct (@Hrouting f2 x1 B w1) as [y2 [w2 [E2 Hy2]]];
    [rewrite B5; exact Hnr|rewrite B1, B2; exact Hx1|].
  rewrite B3, B4 in Hy2.
  pose proof (tadd3_same_shape Hx1 Hy2) as Eout.
  destruct (tadd3_shape Hx1 Hy2) as [out [Eout' Hout]].
  rewrite Eout in Eout'. injection Eout' as Houteq.
  exists y1, w1, x1, y2, w2, out.
  split; [exact E1|]. split; [exact E2|].
  split.
  { unfold ResCapsBlock_forward. cbn [skip functions ResCapsBlock_loop].
    unfold bind, lift, ret. rewrite E1, Ex1, Hx1eq, E2, Eout, Houteq.
    reflexivity. }
  split; [exact Hout|].
  intros b j d Hb Hj Hd.
  assert (H1 : get3 x1 b j d = get3 x b j d + get3 y1 b j d)
    by (rewrite <- Hx1eq; apply (get3_add Hx Hy1 Hb Hj Hd)).
  split; [exact H1|].
  rewrite <- Houteq, (get3_add Hx1 Hy2 Hb Hj Hd), H1. reflexivity.
Qed.

End ResidualSum.

Lemma small_block_built :
  block_built 1 2 2 1 3 true
              small_block.
Proof.
  split; [reflexivity|].
  exists (small_layer 1 2 2 1), (small_layer 1 2 2 1).
  repeat split.
Qed.

Lemma small_capsules_shaped :
  shaped3 1 (Z.to_nat 2) (Z.to_nat 1) small_capsules.
Proof. repeat constructor. Qed.

Lemma residual_block_adds_both_layers_witness :
  let rt := SpecRuntime.runtime SpecRuntime.eps0 in
  let f := small_layer 1 2 2 1 in
  routing_shape_contract (rt := rt) /\ (1 <= 3)%Z /\
  block_built 1 2 2 1 3 true
              {| skip := true; functions := [f; f] |} /\
  shaped3 1 (Z.to_nat 2) (Z.to_nat 1) small_capsules /\
  exists y1 w1 x1 y2 w2 out,
    RoutingCapsules_forward (Runtime := rt) f small_capsules 0%N
    = (Ok y1, w1) /\
    RoutingCapsules_forward (Runtime := rt) f x1 w1 = (Ok y2, w2) /\
    ResCapsBlock_forward (rt := rt)
      {| skip := true; functions := [f; f] |} small_capsules 0%N
    = (Ok out, w2) /\
    shaped3 1 (Z.to_nat 2) (Z.to_nat 1) out /\
    forall b j d,
      (b < 1)%nat -> (j < Z.to_nat 2)%nat -> (d < Z.to_nat 1)%nat ->
      get3 x1 b j d = get3 small_capsules b j d + get3 y1 b j d /\
      get3 out b j d
      = get3 small_capsules b j d + get3 y1 b j d + get3 y2 b j d.
Proof.
  intros rt f.
  assert (H1 : (1 <= 3)%Z) by lia.
  split; [exact (spec_runtime_routing_contract eps0_pos)|].
  split; [exact H1|]. split; [exact small_block_built|].
  split; [exact small_capsules_shaped|].
  exact (@residual_block_adds_both_layers rt f f 2 1 3 1 small_capsules 0%N
           (spec_runtime_routing_contract eps0_pos) H1 small_block_built
           small_capsules_shaped).
Defined.
